(** * Flood rehabilitation project: camp inventory ledger

    A shallow embedding of the camp management client
    ([src/utils/camps.js], [src/utils/auth.js], [src/lib/supabase.js], and
    the entry point of the page) and of the relational schema it talks to
    (the migration that declares [users], [camps], [camp_selections] with
    its [status] column, and [volunteer_assignments]).

    The client is a pair of singleton objects ([CampManager], [AuthManager])
    that cache rows of the store and issue one request per [dbHelpers]
    call.  Every request is a transaction of its own.  The embedding keeps
    the two levels apart: the tables and their constraints are pure
    functions on [Db.t]; the JavaScript methods are written in a small
    state-and-exception monad over [Sys], the store together with the two
    singletons.

    One client is modelled, and the tables change by its requests only.
    Of the schema, the tables, their keys, [REFERENCES] clauses, the
    [UNIQUE(user_id, status)] constraint and the trigger
    [check_single_active_selection] are modelled.  The row-level policies
    are not: a request the service turns down, for that or any other
    reason, is an entry of the script [outcomes]. *)

From Stdlib Require Import List String ZArith Lia Bool Arith PeanoNat Sorted Permutation.
Import ListNotations.

Set Implicit Arguments.

(** ** Rows *)

(** [uuid] columns.  [gen_random_uuid()] is modelled by a counter of the
    store, so that a generated key is never one already handed out. *)
Definition uuid := nat.

(** [timestamptz] columns and [new Date()]: the two clocks are read from
    the state and stand still along a run.  The columns [updated_at], and
    the trigger that stamps them, are left out: nothing reads them. *)
Definition timestamptz := nat.

Module User.
Record t := mk {
  id : uuid;
  name : string;
  email : string;
  role : string;
  age : Z;
  contact : string
}.
End User.

Module Camp.
Record t := mk {
  id : uuid;
  name : string;
  beds : Z;
  original_beds : Z;
  resources : list string;
  contact : option string;
  ambulance : string;
  added_by : option uuid;
  type : string;
  created_at : timestamptz
}.

Definition with_beds (c : t) (b : Z) : t :=
  mk (id c) (name c) b (original_beds c) (resources c) (contact c)
     (ambulance c) (added_by c) (type c) (created_at c).
End Camp.

(** [status text CHECK (status IN ('active', 'cancelled'))]. *)
Inductive Status := active | cancelled.

Definition Status_eqb (a b : Status) : bool :=
  match a, b with
  | active, active | cancelled, cancelled => true
  | _, _ => false
  end.

Module CampSelection.
Record t := mk {
  id : uuid;
  user_id : uuid;
  camp_id : uuid;
  status : Status;
  selected_at : timestamptz;
  cancelled_at : option timestamptz
}.

(** [SET status = 'cancelled', cancelled_at = ts]. *)
Definition cancel (ts : timestamptz) (r : t) : t :=
  mk (id r) (user_id r) (camp_id r) cancelled (selected_at r) (Some ts).
End CampSelection.

Module VolunteerAssignment.
Record t := mk {
  id : uuid;
  volunteer_id : uuid;
  camp_id : uuid;
  created_at : timestamptz
}.
End VolunteerAssignment.

(** The object literal handed to [addCamp]; the keys [added_by], [type]
    and [original_beds] are overwritten by the method and so are not part
    of it. *)
Module CampData.
Record t := mk {
  name : string;
  beds : Z;
  resources : list string;
  contact : option string;
  ambulance : string
}.
End CampData.

(** ** The store *)

Module Db.
Record t := mk {
  users : list User.t;
  camps : list Camp.t;
  camp_selections : list CampSelection.t;
  volunteer_assignments : list VolunteerAssignment.t;
  next_uuid : uuid;
  now : timestamptz
}.

Definition with_camps (d : t) (l : list Camp.t) : t :=
  mk (users d) l (camp_selections d) (volunteer_assignments d) (next_uuid d) (now d).

Definition with_camp_selections (d : t) (l : list CampSelection.t) : t :=
  mk (users d) (camps d) l (volunteer_assignments d) (next_uuid d) (now d).
End Db.

(** The error object of a reply ([{ message, code, ... }]). *)
Record PostgrestError := mkError { code : string; message : string }.

(** [.single()] on zero or on several rows. *)
Definition PGRST116 : PostgrestError :=
  mkError "PGRST116" "JSON object requested, multiple (or no) rows returned".

(** [RAISE EXCEPTION] of [check_single_active_selection]. *)
Definition P0001 : PostgrestError :=
  mkError "P0001" "User already has an active camp selection".

(** A [REFERENCES] clause refused the row. *)
Definition foreign_key_violation : PostgrestError :=
  mkError "23503" "insert or update on table violates foreign key constraint".

(** [UNIQUE(user_id, status)] refused the transaction at commit. *)
Definition unique_violation : PostgrestError :=
  mkError "23505" "duplicate key value violates unique constraint".

Definition has_user (d : Db.t) (u : uuid) : bool :=
  existsb (fun r => User.id r =? u) (Db.users d).

Definition has_camp (d : Db.t) (c : uuid) : bool :=
  existsb (fun r => Camp.id r =? c) (Db.camps d).

(** [WHERE user_id = u AND status = 'active']. *)
Definition is_active_of (u : uuid) (r : CampSelection.t) : bool :=
  (CampSelection.user_id r =? u) && Status_eqb (CampSelection.status r) active.

(** The trigger function: [true] when it raises.
<<
  IF NEW.status = 'active' AND EXISTS (
    SELECT 1 FROM camp_selections
    WHERE user_id = NEW.user_id AND status = 'active' AND id != NEW.id)
  THEN RAISE EXCEPTION ...
>> *)
Definition check_single_active_selection
  (tbl : list CampSelection.t) (NEW : CampSelection.t) : bool :=
  Status_eqb (CampSelection.status NEW) active &&
  existsb (fun r => is_active_of (CampSelection.user_id NEW) r &&
                    negb (CampSelection.id r =? CampSelection.id NEW)) tbl.

(** [UNIQUE(user_id, status)]: no two rows of the table share the pair. *)
Definition count_key (u : uuid) (st : Status) (tbl : list CampSelection.t) : nat :=
  List.length (filter (fun r => (CampSelection.user_id r =? u) &&
                                Status_eqb (CampSelection.status r) st) tbl).

Definition unique_user_status (tbl : list CampSelection.t) : bool :=
  forallb (fun r => count_key (CampSelection.user_id r) (CampSelection.status r) tbl <=? 1) tbl.

(** [INSERT INTO camp_selections (user_id, camp_id, status) ... RETURNING *].
    The trigger runs before the row is written, the foreign keys are
    checked next and the deferred uniqueness constraint when the
    transaction commits. *)
Definition insert_camp_selection (u c : uuid) (st : Status) (d : Db.t)
  : (PostgrestError + CampSelection.t) * Db.t :=
  let NEW := CampSelection.mk (Db.next_uuid d) u c st (Db.now d) None in
  if check_single_active_selection (Db.camp_selections d) NEW then (inl P0001, d)
  else if negb (has_user d u && has_camp d c) then (inl foreign_key_violation, d)
  else if negb (unique_user_status (Db.camp_selections d ++ [NEW]))
  then (inl unique_violation, d)
  else (inr NEW,
        Db.mk (Db.users d) (Db.camps d) (Db.camp_selections d ++ [NEW])
              (Db.volunteer_assignments d) (S (Db.next_uuid d)) (Db.now d)).

(** [UPDATE camp_selections SET status = 'cancelled', cancelled_at = ts
     WHERE user_id = u AND status = 'active'].
    The trigger lets a row through whose new status is not [active]; the
    uniqueness constraint on [(user_id, status)] is checked at commit,
    when a row was written. *)
Definition cancel_rows (ts : timestamptz) (u : uuid) (tbl : list CampSelection.t)
  : list CampSelection.t :=
  map (fun r => if is_active_of u r then CampSelection.cancel ts r else r) tbl.

Definition update_cancel_selection (ts : timestamptz) (u : uuid) (d : Db.t)
  : (PostgrestError + unit) * Db.t :=
  let tbl' := cancel_rows ts u (Db.camp_selections d) in
  if existsb (is_active_of u) (Db.camp_selections d) && negb (unique_user_status tbl')
  then (inl unique_violation, d)
  else (inr tt, Db.with_camp_selections d tbl').

(** [SELECT * FROM camp_selections WHERE user_id = u AND status = 'active'],
    read through [.single()]. *)
Definition single {A} (rows : list A) : PostgrestError + A :=
  match rows with
  | [x] => inr x
  | _ => inl PGRST116
  end.

Definition select_active_selection (u : uuid) (d : Db.t)
  : PostgrestError + CampSelection.t :=
  single (filter (is_active_of u) (Db.camp_selections d)).

(** [ORDER BY created_at DESC], by insertion; of rows with one
    [created_at], the one written last comes first. *)
Fixpoint insert_desc (c : Camp.t) (l : list Camp.t) : list Camp.t :=
  match l with
  | [] => [c]
  | x :: l' =>
      if Camp.created_at x <? Camp.created_at c then c :: l
      else x :: insert_desc c l'
  end.

Definition order_desc (l : list Camp.t) : list Camp.t :=
  fold_right insert_desc [] l.

Definition select_camps (d : Db.t) : list Camp.t := order_desc (Db.camps d).

(** [INSERT INTO camps ... RETURNING *]: [added_by] references [users]. *)
Definition insert_camp (cd : CampData.t) (by_ : uuid) (ty : string) (orig : Z) (d : Db.t)
  : (PostgrestError + Camp.t) * Db.t :=
  let NEW := Camp.mk (Db.next_uuid d) (CampData.name cd) (CampData.beds cd) orig
                     (CampData.resources cd) (CampData.contact cd)
                     (CampData.ambulance cd) (Some by_) ty (Db.now d) in
  if negb (has_user d by_) then (inl foreign_key_violation, d)
  else (inr NEW,
        Db.mk (Db.users d) (Db.camps d ++ [NEW]) (Db.camp_selections d)
              (Db.volunteer_assignments d) (S (Db.next_uuid d)) (Db.now d)).

(** [UPDATE camps SET beds = b WHERE id = i RETURNING *]. *)
Definition set_beds (i : uuid) (b : Z) (l : list Camp.t) : list Camp.t :=
  map (fun c => if Camp.id c =? i then Camp.with_beds c b else c) l.

Definition update_camp_beds (i : uuid) (b : Z) (d : Db.t) : list Camp.t * Db.t :=
  let l' := set_beds i b (Db.camps d) in
  (filter (fun c => Camp.id c =? i) l', Db.with_camps d l').

(** [beds] and [original_beds] are [integer] columns: the store refuses a
    value above [int4_max] (error 22003) where the unbounded integers of
    [update_camp_beds] take it.  The two agree on every value that fits;
    what is proved of a count that grows ([beds + 1], in
    [cancelSelection]) is stated for a value that fits. *)
Definition int4_max : Z := 2147483647.

(** [DELETE FROM camps WHERE id = i], with the two
    [REFERENCES camps(id) ON DELETE CASCADE] clauses. *)
Definition delete_camp (i : uuid) (d : Db.t) : Db.t :=
  Db.mk (Db.users d)
        (filter (fun c => negb (Camp.id c =? i)) (Db.camps d))
        (filter (fun r => negb (CampSelection.camp_id r =? i)) (Db.camp_selections d))
        (filter (fun r => negb (VolunteerAssignment.camp_id r =? i)) (Db.volunteer_assignments d))
        (Db.next_uuid d) (Db.now d).

(** [INSERT INTO volunteer_assignments (volunteer_id, camp_id) ... RETURNING *]. *)
Definition insert_volunteer_assignment (v c : uuid) (d : Db.t)
  : (PostgrestError + VolunteerAssignment.t) * Db.t :=
  let NEW := VolunteerAssignment.mk (Db.next_uuid d) v c (Db.now d) in
  if negb (has_user d v && has_camp d c) then (inl foreign_key_violation, d)
  else (inr NEW,
        Db.mk (Db.users d) (Db.camps d) (Db.camp_selections d)
              (Db.volunteer_assignments d ++ [NEW]) (S (Db.next_uuid d)) (Db.now d)).

(** [SELECT * FROM volunteer_assignments WHERE volunteer_id = v
     ORDER BY created_at DESC]. *)
Fixpoint insert_desc_va (a : VolunteerAssignment.t) (l : list VolunteerAssignment.t) :=
  match l with
  | [] => [a]
  | x :: l' =>
      if VolunteerAssignment.created_at x <? VolunteerAssignment.created_at a
      then a :: l else x :: insert_desc_va a l'
  end.

Definition select_volunteer_assignments (v : uuid) (d : Db.t) : list VolunteerAssignment.t :=
  fold_right insert_desc_va []
    (filter (fun r => VolunteerAssignment.volunteer_id r =? v) (Db.volunteer_assignments d)).

(** [SELECT * FROM users WHERE email = e], read through [.single()]. *)
Definition select_user_by_email (e : string) (d : Db.t) : PostgrestError + User.t :=
  single (filter (fun r => String.eqb (User.email r) e) (Db.users d)).

(** ** The client: singletons, requests and the monad of the methods *)

Module CampManager.
Record t := mk {
  camps : list Camp.t;
  userSelection : option CampSelection.t
}.
End CampManager.

Module AuthManager.
Record t := mk { currentUser : option User.t }.
End AuthManager.

(** The whole system as one request sees it.  [outcomes] scripts what the
    service does with the requests to come, one entry per request:
    [Some e] refuses the request with [e] and leaves the tables alone (a
    transport failure, a row-level policy); [None], or an exhausted
    script, lets the tables answer.  [date] is the client's clock. *)
Record Sys := mkSys {
  db : Db.t;
  campManager : CampManager.t;
  authManager : AuthManager.t;
  outcomes : list (option PostgrestError);
  date : timestamptz
}.

(** What a [throw] carries: [new Error(msg)], a [TypeError], or the error
    object of a reply.  The methods throw nothing else; in particular
    [if (error) throw error] never throws [null]. *)
Inductive Thrown :=
| JsError (msg : string)
| Rejected (e : PostgrestError).

(** [error.message] in a [catch] clause. *)
Definition error_message (t : Thrown) : string :=
  match t with
  | JsError msg => msg
  | Rejected e => message e
  end.

(** A method body: it reads and writes the system and either returns or
    throws.  What was written before a [throw] stays written. *)
Definition M (A : Type) : Type := Sys -> (Thrown + A) * Sys.

Definition ret {A} (a : A) : M A := fun s => (inr a, s).

Definition bind {A B} (m : M A) (k : A -> M B) : M B :=
  fun s => match m s with
           | (inl e, s') => (inl e, s')
           | (inr a, s') => k a s'
           end.

Definition throw {A} (e : Thrown) : M A := fun s => (inl e, s).

Definition try_catch {A} (body : M A) (handler : Thrown -> M A) : M A :=
  fun s => match body s with
           | (inl e, s') => handler e s'
           | (inr a, s') => (inr a, s')
           end.

Definition gets {A} (f : Sys -> A) : M A := fun s => (inr (f s), s).

Definition modify (f : Sys -> Sys) : M unit := fun s => (inr tt, f s).

Declare Scope js_scope.
Delimit Scope js_scope with js.
Notation "x <- c1 ;; c2" := (bind c1 (fun x => c2))
  (at level 61, c1 at next level, right associativity) : js_scope.
Notation "c1 ;;; c2" := (bind c1 (fun _ => c2))
  (at level 61, right associativity) : js_scope.
Local Open Scope js_scope.

(** The object a method resolves to: [{ success: true, ... }] or
    [{ success: false, error: error.message }]. *)
Record Result (A : Type) := mkResult {
  success : bool;
  error : option string;
  payload : option A
}.

Definition resolved {A} (a : A) : Result A := mkResult true None (Some a).
Definition failed {A} (msg : string) : Result A := mkResult false (Some msg) None.

(** [try { ... } catch (error) { return { success: false, error: error.message } }]. *)
Definition guarded {A} (body : M (Result A)) : M (Result A) :=
  try_catch body (fun error => ret (failed (error_message error))).

(** The [{ data, error }] pair of a reply. *)
Module Reply.
Record t (A : Type) := mk { data : A; error : option PostgrestError }.
End Reply.

(** One round trip: the next scripted outcome decides whether the tables
    see the request. *)
Definition request {A} (exec : Db.t -> (PostgrestError + A) * Db.t) : M (PostgrestError + A) :=
  fun s =>
    match outcomes s with
    | Some e :: rest =>
        (inr (inl e), mkSys (db s) (campManager s) (authManager s) rest (date s))
    | _ =>
        let (r, d') := exec (db s) in
        (inr r, mkSys d' (campManager s) (authManager s) (tl (outcomes s)) (date s))
    end.

(** [{ data: data?.[0], error }] and [{ data, error }]. *)
Definition reply_opt {A} (r : PostgrestError + A) : Reply.t (option A) :=
  match r with
  | inl e => Reply.mk None (Some e)
  | inr a => Reply.mk (Some a) None
  end.

(** [{ data: data || [], error }]. *)
Definition reply_list {A} (r : PostgrestError + list A) : Reply.t (list A) :=
  match r with
  | inl e => Reply.mk [] (Some e)
  | inr l => Reply.mk l None
  end.

Module dbHelpers.

Definition getUserByEmail (email : string) : M (Reply.t (option User.t)) :=
  r <- request (fun d => (select_user_by_email email d, d)) ;;
  ret (reply_opt r).

Definition getCamps : M (Reply.t (list Camp.t)) :=
  r <- request (fun d => (inr (select_camps d), d)) ;;
  ret (reply_list r).

Definition createCamp (cd : CampData.t) (added_by : uuid) (type : string) (original_beds : Z)
  : M (Reply.t (option Camp.t)) :=
  r <- request (insert_camp cd added_by type original_beds) ;;
  ret (reply_opt r).

(** [updateCamp(id, { beds })]: the only shape of [updates] the managers
    send; [data?.[0]] is the first row written, if any. *)
Definition updateCamp (id : uuid) (beds : Z) : M (Reply.t (option Camp.t)) :=
  r <- request (fun d => let (rows, d') := update_camp_beds id beds d in (inr rows, d')) ;;
  ret (match r with
       | inl e => Reply.mk None (Some e)
       | inr rows => Reply.mk (hd_error rows) None
       end).

Definition deleteCamp (id : uuid) : M (Reply.t unit) :=
  r <- request (fun d => (inr tt, delete_camp id d)) ;;
  ret (match r with
       | inl e => Reply.mk tt (Some e)
       | inr _ => Reply.mk tt None
       end).

Definition createCampSelection (user_id camp_id : uuid) (status : Status)
  : M (Reply.t (option CampSelection.t)) :=
  r <- request (insert_camp_selection user_id camp_id status) ;;
  ret (reply_opt r).

(** The embedded [camps (...)] columns of the reply are left out: the
    managers read [camp_id] only. *)
Definition getUserCampSelection (userId : uuid) : M (Reply.t (option CampSelection.t)) :=
  r <- request (fun d => (select_active_selection userId d, d)) ;;
  ret (reply_opt r).

Definition cancelCampSelection (userId : uuid) : M (Reply.t unit) :=
  now <- gets date ;;
  r <- request (update_cancel_selection now userId) ;;
  ret (match r with
       | inl e => Reply.mk tt (Some e)
       | inr _ => Reply.mk tt None
       end).

Definition createVolunteerAssignment (volunteer_id camp_id : uuid)
  : M (Reply.t (option VolunteerAssignment.t)) :=
  r <- request (insert_volunteer_assignment volunteer_id camp_id) ;;
  ret (reply_opt r).

Definition getVolunteerAssignments (volunteerId : uuid)
  : M (Reply.t (list VolunteerAssignment.t)) :=
  r <- request (fun d => (inr (select_volunteer_assignments volunteerId d), d)) ;;
  ret (reply_list r).

End dbHelpers.

(** ** [AuthManager] *)

Definition getCurrentUser : M (option User.t) :=
  gets (fun s => AuthManager.currentUser (authManager s)).

(** [setCurrentUser] and [clearCurrentUser]: [localStorage] only mirrors
    [currentUser], and a failed write to it is caught inside. *)
Definition setCurrentUser (userData : option User.t) : M unit :=
  modify (fun s => mkSys (db s) (campManager s) (AuthManager.mk userData)
                         (outcomes s) (date s)).

(** [login(email, password)].  The row of [users] has no password column;
    the destructuring that drops one is the identity on [User.t]. *)
Definition login (email password : string) : M (Result User.t) :=
  guarded (
    r <- dbHelpers.getUserByEmail email ;;
    match Reply.error r, Reply.data r with
    | None, Some user =>
        setCurrentUser (Some user) ;;;
        ret (resolved user)
    | _, _ => throw (JsError "Invalid email or password")
    end).

Definition logout : M (Result unit) :=
  setCurrentUser None ;;;
  ret (resolved tt).

(** ** [CampManager] *)

Definition this_camps : M (list Camp.t) :=
  gets (fun s => CampManager.camps (campManager s)).

Definition this_userSelection : M (option CampSelection.t) :=
  gets (fun s => CampManager.userSelection (campManager s)).

Definition set_this_camps (camps : list Camp.t) : M unit :=
  modify (fun s => mkSys (db s)
                         (CampManager.mk camps (CampManager.userSelection (campManager s)))
                         (authManager s) (outcomes s) (date s)).

Definition set_this_userSelection (sel : option CampSelection.t) : M unit :=
  modify (fun s => mkSys (db s)
                         (CampManager.mk (CampManager.camps (campManager s)) sel)
                         (authManager s) (outcomes s) (date s)).

(** [notify()] runs the callbacks that pages registered.  They redraw:
    they are taken to return, and to touch neither the store nor the two
    singletons. *)
Definition notify : M unit := ret tt.

Definition loadCamps : M (Result (list Camp.t)) :=
  guarded (
    r <- dbHelpers.getCamps ;;
    match Reply.error r with
    | Some error => throw (Rejected error)
    | None =>
        set_this_camps (Reply.data r) ;;;
        notify ;;;
        ret (resolved (Reply.data r))
    end).

Definition loadUserSelection : M (Result (option CampSelection.t)) :=
  guarded (
    currentUser <- getCurrentUser ;;
    match currentUser with
    | None =>
        set_this_userSelection None ;;;
        notify ;;;
        ret (resolved None)
    | Some currentUser =>
        r <- dbHelpers.getUserCampSelection (User.id currentUser) ;;
        match Reply.error r with
        | Some error =>
            if negb (String.eqb (code error) "PGRST116") then throw (Rejected error)
            else
              set_this_userSelection (Reply.data r) ;;;
              notify ;;;
              ret (resolved (Reply.data r))
        | None =>
            set_this_userSelection (Reply.data r) ;;;
            notify ;;;
            ret (resolved (Reply.data r))
        end
    end).

Definition find_camp (campId : uuid) (camps : list Camp.t) : option Camp.t :=
  find (fun c => Camp.id c =? campId) camps.

Definition selectCamp (campId : uuid)
  : M (Result (option CampSelection.t * option Camp.t)) :=
  guarded (
    currentUser <- getCurrentUser ;;
    match currentUser with
    | None => throw (JsError "User must be logged in to select a camp")
    | Some currentUser =>
    userSelection <- this_userSelection ;;
    match userSelection with
    | Some _ =>
        throw (JsError "You already have a camp selected. Please cancel your current selection first.")
    | None =>
    camps <- this_camps ;;
    match find_camp campId camps with
    | None => throw (JsError "Camp not found")
    | Some camp =>
    if (Camp.beds camp <=? 0)%Z then throw (JsError "This camp is full")
    else
      r1 <- dbHelpers.createCampSelection (User.id currentUser) campId active ;;
      match Reply.error r1 with
      | Some selectionError => throw (Rejected selectionError)
      | None =>
      r2 <- dbHelpers.updateCamp campId (Camp.beds camp - 1)%Z ;;
      match Reply.error r2 with
      | Some updateError => throw (Rejected updateError)
      | None =>
          loadCamps ;;;
          loadUserSelection ;;;
          ret (resolved (Reply.data r1, Reply.data r2))
      end end end end end).

Definition cancelSelection : M (Result unit) :=
  guarded (
    currentUser <- getCurrentUser ;;
    userSelection <- this_userSelection ;;
    match currentUser, userSelection with
    | Some currentUser, Some userSelection =>
        let campId := CampSelection.camp_id userSelection in
        camps <- this_camps ;;
        let camp := find_camp campId camps in
        r1 <- dbHelpers.cancelCampSelection (User.id currentUser) ;;
        match Reply.error r1 with
        | Some cancelError => throw (Rejected cancelError)
        | None =>
            match camp with
            | Some camp =>
                r2 <- dbHelpers.updateCamp campId (Camp.beds camp + 1)%Z ;;
                match Reply.error r2 with
                | Some updateError => throw (Rejected updateError)
                | None => ret tt
                end
            | None => ret tt
            end ;;;
            loadCamps ;;;
            loadUserSelection ;;;
            ret (resolved tt)
        end
    | _, _ => throw (JsError "No active camp selection found")
    end).

(** [addCamp(campData)]; [None] is a call without the argument, where
    reading [campData.beds] throws a [TypeError]. *)
Definition addCamp (campData : option CampData.t) : M (Result (option Camp.t)) :=
  guarded (
    currentUser <- getCurrentUser ;;
    match currentUser with
    | Some currentUser =>
        if negb (String.eqb (User.role currentUser) "volunteer")
        then throw (JsError "Only volunteers can add camps")
        else
          match campData with
          | None => throw (JsError "Cannot read properties of undefined (reading 'beds')")
          | Some campData =>
              r <- dbHelpers.createCamp campData (User.id currentUser)
                     "volunteer-added" (CampData.beds campData) ;;
              match Reply.error r with
              | Some error => throw (Rejected error)
              | None =>
                  loadCamps ;;;
                  ret (resolved (Reply.data r))
              end
          end
    | None => throw (JsError "Only volunteers can add camps")
    end).

Definition deleteCamp (campId : uuid) : M (Result unit) :=
  guarded (
    currentUser <- getCurrentUser ;;
    match currentUser with
    | Some currentUser =>
        if negb (String.eqb (User.role currentUser) "volunteer")
        then throw (JsError "Only volunteers can delete camps")
        else
          r <- dbHelpers.deleteCamp campId ;;
          match Reply.error r with
          | Some error => throw (Rejected error)
          | None =>
              loadCamps ;;;
              ret (resolved tt)
          end
    | None => throw (JsError "Only volunteers can delete camps")
    end).

Definition addVolunteerAssignment (campId : uuid)
  : M (Result (option VolunteerAssignment.t)) :=
  guarded (
    currentUser <- getCurrentUser ;;
    match currentUser with
    | Some currentUser =>
        if negb (String.eqb (User.role currentUser) "volunteer")
        then throw (JsError "Only volunteers can be assigned to camps")
        else
          r <- dbHelpers.createVolunteerAssignment (User.id currentUser) campId ;;
          match Reply.error r with
          | Some error => throw (Rejected error)
          | None => ret (resolved (Reply.data r))
          end
    | None => throw (JsError "Only volunteers can be assigned to camps")
    end).

Definition getVolunteerHistory : M (Result (list VolunteerAssignment.t)) :=
  guarded (
    currentUser <- getCurrentUser ;;
    match currentUser with
    | Some currentUser =>
        if negb (String.eqb (User.role currentUser) "volunteer")
        then ret (resolved [])
        else
          r <- dbHelpers.getVolunteerAssignments (User.id currentUser) ;;
          match Reply.error r with
          | Some error => throw (Rejected error)
          | None => ret (resolved (Reply.data r))
          end
    | None => ret (resolved [])
    end).

(** ** Calls and how they settle *)

(** The public methods of the two singletons.  The subscriptions that
    [setupRealtimeSubscriptions] registers run [loadCamps] and
    [loadUserSelection] when a table changes; here they are calls like the
    others, placed where the notification arrives. *)
Inductive Call :=
| LoadCamps
| LoadUserSelection
| SelectCamp (campId : uuid)
| CancelSelection
| AddCamp (campData : option CampData.t)
| DeleteCamp (campId : uuid)
| AddVolunteerAssignment (campId : uuid)
| GetVolunteerHistory
| Login (email password : string)
| Logout.

(** What the caller of an [async] method gets: the promise fulfils with a
    result object, or it rejects with what was thrown. *)
Inductive Settled :=
| Fulfilled (success : bool) (error : option string)
| RejectedWith (e : Thrown).

Definition settle {A} (x : (Thrown + Result A) * Sys) : Settled * Sys :=
  match x with
  | (inr r, s) => (Fulfilled (success r) (error r), s)
  | (inl e, s) => (RejectedWith e, s)
  end.

Definition call (c : Call) (s : Sys) : Settled * Sys :=
  match c with
  | LoadCamps => settle (loadCamps s)
  | LoadUserSelection => settle (loadUserSelection s)
  | SelectCamp campId => settle (selectCamp campId s)
  | CancelSelection => settle (cancelSelection s)
  | AddCamp campData => settle (addCamp campData s)
  | DeleteCamp campId => settle (deleteCamp campId s)
  | AddVolunteerAssignment campId => settle (addVolunteerAssignment campId s)
  | GetVolunteerHistory => settle (getVolunteerHistory s)
  | Login email password => settle (login email password s)
  | Logout => settle (logout s)
  end.

Definition calls (l : list Call) (s : Sys) : Sys :=
  fold_left (fun s c => snd (call c s)) l s.

(** A result object as every method builds it: [success] is set, and a
    failure carries its message. *)
Definition well_formed {A} (r : Result A) : Prop :=
  (success r = true /\ error r = None) \/
  (success r = false /\ exists msg, error r = Some msg).

(** The method fulfils, whatever the system it runs in. *)
Definition total_at_interface {A} (m : M (Result A)) : Prop :=
  forall s, exists r s', m s = (inr r, s') /\ well_formed r.

(** ** What the ledger is meant to keep *)

(** Active rows that point at a camp. *)
Definition is_active_on (campId : uuid) (r : CampSelection.t) : bool :=
  (CampSelection.camp_id r =? campId) && Status_eqb (CampSelection.status r) active.

Definition active_count (d : Db.t) (campId : uuid) : nat :=
  List.length (filter (is_active_on campId) (Db.camp_selections d)).

(** [0 <= beds <= original_beds], for every camp. *)
Definition beds_bounded (d : Db.t) : Prop :=
  Forall (fun c => (0 <= Camp.beds c <= Camp.original_beds c)%Z) (Db.camps d).

(** A bed is missing from [beds] for each active selection of the camp,
    and for nothing else. *)
Definition ledger_agrees (d : Db.t) : Prop :=
  Forall (fun c => (Camp.beds c + Z.of_nat (active_count d (Camp.id c))
                    = Camp.original_beds c)%Z) (Db.camps d).

(** At most one active row per user. *)
Definition single_active (d : Db.t) : Prop :=
  forall u, count_key u active (Db.camp_selections d) <= 1.

Definition camp_beds (d : Db.t) (campId : uuid) : option Z :=
  option_map Camp.beds (find_camp campId (Db.camps d)).

(** What the schema guarantees of the tables: primary keys of [camps] are
    distinct and were generated, [camp_id] references a camp, and
    [(user_id, status)] is unique. *)
Record db_wf (d : Db.t) : Prop := {
  wf_camp_ids : NoDup (map Camp.id (Db.camps d));
  wf_camp_fresh : Forall (fun c => Camp.id c < Db.next_uuid d) (Db.camps d);
  wf_camp_fk : Forall (fun r => has_camp d (CampSelection.camp_id r) = true)
                      (Db.camp_selections d);
  wf_unique : unique_user_status (Db.camp_selections d) = true
}.

(** The manager's copy of the user's selection is current as far as the
    ledger needs it: the user's active rows are on the camp it names, and
    there is one when that camp still exists. *)
Definition selection_current (s : Sys) : Prop :=
  forall u sel,
    AuthManager.currentUser (authManager s) = Some u ->
    CampManager.userSelection (campManager s) = Some sel ->
    CampSelection.camp_id sel < Db.next_uuid (db s) /\
    (forall r, In r (Db.camp_selections (db s)) ->
               is_active_of (User.id u) r = true ->
               CampSelection.camp_id r = CampSelection.camp_id sel) /\
    (has_camp (db s) (CampSelection.camp_id sel) = true ->
     exists r, In r (Db.camp_selections (db s)) /\
               is_active_of (User.id u) r = true).

(** What the ledger needs of the tables. *)
Record sound (d : Db.t) : Prop := {
  tables_wf : db_wf d;
  agrees : ledger_agrees d;
  nonneg : Forall (fun c => (0 <= Camp.beds c)%Z) (Db.camps d)
}.

(** A system at rest in which the ledger is sound: the store answers every
    request, the manager's copies are current, and the tables agree. *)
Record consistent (s : Sys) : Prop := {
  answers : outcomes s = [];
  camps_current : CampManager.camps (campManager s) = select_camps (db s);
  sel_current : selection_current s;
  tables_sound : sound (db s)
}.

(** The user's active selection as [loadUserSelection] stores it. *)
Definition loaded_selection (user : option User.t) (d : Db.t) : option CampSelection.t :=
  match user with
  | None => None
  | Some u => match select_active_selection (User.id u) d with
              | inr row => Some row
              | inl _ => None
              end
  end.

(** The system after [loadCamps] and [loadUserSelection] have run over
    the tables [d], every request answered. *)
Definition reloaded (s : Sys) (d : Db.t) : Sys :=
  mkSys d
        (CampManager.mk (select_camps d)
                        (loaded_selection (AuthManager.currentUser (authManager s)) d))
        (authManager s) [] (date s).

(** The system after [loadCamps] alone. *)
Definition camps_reloaded (s : Sys) (d : Db.t) : Sys :=
  mkSys d
        (CampManager.mk (select_camps d) (CampManager.userSelection (campManager s)))
        (authManager s) [] (date s).

(** Whether the next request is refused, and the system once it is past. *)
Definition refused (s : Sys) : option PostgrestError :=
  match outcomes s with
  | Some e :: _ => Some e
  | _ => None
  end.

Definition consumed (s : Sys) (d : Db.t) : Sys :=
  mkSys d (campManager s) (authManager s) (tl (outcomes s)) (date s).

Definition succeeded (x : Settled) : bool :=
  match x with
  | Fulfilled true _ => true
  | _ => false
  end.

(** The row [addCamp] asks the store to write. *)
Definition new_camp (d : Db.t) (u : User.t) (cd : CampData.t) : Camp.t :=
  Camp.mk (Db.next_uuid d) (CampData.name cd) (CampData.beds cd) (CampData.beds cd)
          (CampData.resources cd) (CampData.contact cd) (CampData.ambulance cd)
          (Some (User.id u)) "volunteer-added" (Db.now d).

(** Methods whose returned values all satisfy [Q]. *)
Definition returns_only {A} (Q : A -> Prop) (m : M A) : Prop :=
  forall s a s', m s = (inr a, s') -> Q a.

(** The calls of one signed-in session: everything but [login] and
    [logout], with a capacity that is not negative when a camp is added. *)
Definition session_call (c : Call) : Prop :=
  match c with
  | Login _ _ | Logout => False
  | AddCamp (Some campData) => (0 <= CampData.beds campData)%Z
  | _ => True
  end.

(** The calls that write to the ledger. *)
Definition mutation (c : Call) : Prop :=
  match c with
  | SelectCamp _ | CancelSelection | AddCamp _ | DeleteCamp _ => True
  | _ => False
  end.

(** ** A small deployment

    The three camps the migration inserts, two registered users, and a
    client that has loaded the camps. *)
Definition refugee1 : User.t := User.mk 1 "Asha" "asha@example.org" "refugee" 34 "+91 90000 00001".
Definition refugee2 : User.t := User.mk 2 "Biju" "biju@example.org" "refugee" 41 "+91 90000 00002".
Definition volunteer1 : User.t := User.mk 3 "Chitra" "chitra@example.org" "volunteer" 29 "+91 90000 00003".

Definition central_school : Camp.t :=
  Camp.mk 10 "Central School Grounds" 24 24 ["Food"%string; "Water"%string; "Medical Aid"%string; "Blankets"%string]
          (Some "+91 98765 43210"%string) "Yes" None "default" 0.
Definition community_hall : Camp.t :=
  Camp.mk 11 "Community Hall" 12 12 ["Food"%string; "Water"%string; "Blankets"%string; "Clothing"%string]
          (Some "+91 98765 11223"%string) "Nearby" None "default" 0.
Definition high_school : Camp.t :=
  Camp.mk 12 "Government High School" 30 30 ["Food"%string; "Water"%string; "First Aid"%string; "Hygiene Kits"%string]
          (Some "+91 98765 77889"%string) "Yes" None "default" 0.

Definition seeded : Db.t :=
  Db.mk [refugee1; refugee2; volunteer1]
        [central_school; community_hall; high_school] [] [] 100 1.

(** A signed-in client over [seeded] whose requests meet [script]. *)
Definition client (user : User.t) (script : list (option PostgrestError)) : Sys :=
  mkSys seeded (CampManager.mk (select_camps seeded) None)
        (AuthManager.mk (Some user)) script 2.

(** A camp with a single bed, for the scenarios on the last bed. *)
Definition one_bed : Camp.t :=
  Camp.mk 20 "Riverside Shed" 1 1 ["Water"%string] None "No" None "default" 0.

Definition small : Db.t :=
  Db.mk [refugee1; refugee2; volunteer1] [one_bed] [] [] 100 1.

Definition small_client (user : User.t) (script : list (option PostgrestError)) : Sys :=
  mkSys small (CampManager.mk (select_camps small) None)
        (AuthManager.mk (Some user)) script 2.

(** The service is unreachable for one request. *)
Definition unavailable : PostgrestError := mkError "503" "Service Unavailable".

(** A method keeps a property of the tables. *)
Definition keeps (I : Db.t -> Prop) {A} (m : M A) : Prop :=
  forall s, I (db s) -> I (db (snd (m s))).

(** The state a refused bed update leaves behind, once the manager has
    reloaded the user's selection (the subscription to [camp_selections]
    does, on the row that was inserted). *)
Definition half_selected : Sys :=
  calls [SelectCamp 20; LoadUserSelection] (small_client refugee1 [None; Some unavailable]).

(** The single bed is taken by one user; another user's client has loaded
    the camps. *)
Definition last_bed_taken : Sys :=
  let d := db (snd (call (SelectCamp 20) (small_client refugee1 []))) in
  mkSys d (CampManager.mk (select_camps d) None) (AuthManager.mk (Some refugee2)) [] 3.

(** The single bed is taken, the reload of the camps that follows is
    refused, and the second refugee signs in on the same browser and loads
    their selection: the table has 0 beds, the manager's copy still 1. *)
Definition stale_copy : Sys :=
  calls [SelectCamp 20; Logout; Login "biju@example.org" "pw"; LoadUserSelection]
        (small_client refugee1 [None; None; Some unavailable]).

(** A volunteer selects the camp and deletes it: the cascade removes the
    selection row, and the manager still holds it. *)
Definition selection_deleted : Sys :=
  calls [SelectCamp 20; DeleteCamp 20] (small_client volunteer1 []).

(** ** The rest of the client *)

(** What [register] is given: the columns of [users] the caller supplies.
    A key that is no column of the table, or a column left out that the
    table requires, makes the service turn the request down, which is a
    refusal of the script. *)
Module UserData.
Record t := mk {
  name : string;
  email : string;
  role : string;
  age : Z;
  contact : string
}.
End UserData.

(** [CHECK (role IN ('refugee', 'volunteer'))]. *)
Definition role_allowed (role : string) : bool :=
  String.eqb role "refugee" || String.eqb role "volunteer".

Definition check_violation : PostgrestError :=
  mkError "23514" "new row violates check constraint".

Definition has_email (d : Db.t) (email : string) : bool :=
  existsb (fun r => String.eqb (User.email r) email) (Db.users d).

(** [INSERT INTO users ... RETURNING *]: the [CHECK] on [role] is tested on
    the row, [email text UNIQUE] when it enters the index. *)
Definition insert_user (ud : UserData.t) (d : Db.t) : (PostgrestError + User.t) * Db.t :=
  let NEW := User.mk (Db.next_uuid d) (UserData.name ud) (UserData.email ud)
                     (UserData.role ud) (UserData.age ud) (UserData.contact ud) in
  if negb (role_allowed (UserData.role ud)) then (inl check_violation, d)
  else if has_email d (UserData.email ud) then (inl unique_violation, d)
  else (inr NEW,
        Db.mk (Db.users d ++ [NEW]) (Db.camps d) (Db.camp_selections d)
              (Db.volunteer_assignments d) (S (Db.next_uuid d)) (Db.now d)).

(** [dbHelpers.createUser]. *)
Definition createUser (userData : UserData.t) : M (Reply.t (option User.t)) :=
  r <- request (insert_user userData) ;;
  ret (reply_opt r).

(** [register(userData)].  The error of the first lookup is not read: a
    lookup that fails, for whatever reason, counts as "no such user". *)
Definition register (userData : UserData.t) : M (Result User.t) :=
  guarded (
    r <- dbHelpers.getUserByEmail (UserData.email userData) ;;
    match Reply.data r with
    | Some existingUser => throw (JsError "User with this email already exists")
    | None =>
        r' <- createUser userData ;;
        match Reply.error r' with
        | Some error => throw (Rejected error)
        | None =>
            match Reply.data r' with
            | None =>
                throw (JsError "Cannot destructure property 'password' of 'newUser' as it is undefined.")
            | Some newUser =>
                setCurrentUser (Some newUser) ;;;
                ret (resolved newUser)
            end
        end
    end).

Definition isLoggedIn : M bool :=
  currentUser <- getCurrentUser ;;
  ret (match currentUser with Some _ => true | None => false end).

(** [this.currentUser?.role === 'volunteer']. *)
Definition isVolunteer : M bool :=
  currentUser <- getCurrentUser ;;
  ret (match currentUser with
       | Some u => String.eqb (User.role u) "volunteer"
       | None => false
       end).

Definition isRefugee : M bool :=
  currentUser <- getCurrentUser ;;
  ret (match currentUser with
       | Some u => String.eqb (User.role u) "refugee"
       | None => false
       end).

(** The [DOMContentLoaded] handler of the entry point. *)
Definition initialize : M unit :=
  loggedIn <- isLoggedIn ;;
  if loggedIn then
    loadCamps ;;;
    loadUserSelection ;;;
    ret tt
  else ret tt.

(** What the handlers read of a change event: [payload.new?.user_id] and
    [payload.old?.user_id], [None] for [undefined]. *)
Module Payload.
Record t := mk {
  new_user_id : option uuid;
  old_user_id : option uuid
}.
End Payload.

(** [===] on two values that are a key or [undefined]. *)
Definition same_id (a b : option uuid) : bool :=
  match a, b with
  | Some x, Some y => x =? y
  | None, None => true
  | _, _ => false
  end.

(** The handler [setupRealtimeSubscriptions] registers for [camps]. *)
Definition onCampsChange : M unit :=
  loadCamps ;;;
  ret tt.

(** The handler it registers for [camp_selections]. *)
Definition onCampSelectionsChange (payload : Payload.t) : M unit :=
  currentUser <- getCurrentUser ;;
  let me := option_map User.id currentUser in
  if same_id me (Payload.new_user_id payload) || same_id me (Payload.old_user_id payload)
  then loadUserSelection ;;; ret tt
  else ret tt.

(** ** Properties of the rest *)

(** The system once [this.userSelection] is assigned. *)
Definition with_userSelection (t : Sys) (sel : option CampSelection.t) : Sys :=
  mkSys (db t) (CampManager.mk (CampManager.camps (campManager t)) sel)
        (authManager t) (outcomes t) (date t).


(** Newest first. *)
Definition newest_first (l : list Camp.t) : Prop :=
  Sorted (fun a b => Camp.created_at b <= Camp.created_at a) l.

Definition assignments_newest_first (l : list VolunteerAssignment.t) : Prop :=
  Sorted (fun a b => VolunteerAssignment.created_at b <= VolunteerAssignment.created_at a) l.

(** The selection rows of everybody but [u]. *)
Definition rows_of_others (u : uuid) (d : Db.t) : list CampSelection.t :=
  filter (fun r => negb (CampSelection.user_id r =? u)) (Db.camp_selections d).

(** No bed count is negative, in the table or in the manager's copy. *)
Definition no_negative_beds (s : Sys) : Prop :=
  Forall (fun c => (0 <= Camp.beds c)%Z) (Db.camps (db s)) /\
  Forall (fun c => (0 <= Camp.beds c)%Z) (CampManager.camps (campManager s)).

(** Calls that are given no negative capacity. *)
Definition no_negative_capacity (c : Call) : Prop :=
  match c with
  | AddCamp (Some campData) => (0 <= CampData.beds campData)%Z
  | _ => True
  end.

(** The calls by which a signed-in user acts for themselves: no change of
    user, and no deletion of a camp. *)
Definition own_call (c : Call) : Prop :=
  match c with
  | Login _ _ | Logout | DeleteCamp _ => False
  | _ => True
  end.

(** Every reference of a row finds its row. *)
Record references_hold (d : Db.t) : Prop := {
  selection_user : Forall (fun r => has_user d (CampSelection.user_id r) = true)
                          (Db.camp_selections d);
  selection_camp : Forall (fun r => has_camp d (CampSelection.camp_id r) = true)
                          (Db.camp_selections d);
  assignment_user : Forall (fun r => has_user d (VolunteerAssignment.volunteer_id r) = true)
                           (Db.volunteer_assignments d);
  assignment_camp : Forall (fun r => has_camp d (VolunteerAssignment.camp_id r) = true)
                           (Db.volunteer_assignments d);
  camp_author : Forall (fun c => match Camp.added_by c with
                                 | Some u => has_user d u = true
                                 | None => True
                                 end) (Db.camps d)
}.

(** [email text UNIQUE], and the [CHECK] on [role]. *)
Record users_wf (d : Db.t) : Prop := {
  emails_unique : NoDup (map User.email (Db.users d));
  roles_allowed : Forall (fun u => role_allowed (User.role u) = true) (Db.users d)
}.

(** Hoare triples of the methods: from [P], [m] returns in [Q] or throws
    in [E]. *)
Definition triple {A} (P : Sys -> Prop) (m : M A) (Q : A -> Sys -> Prop) (E : Sys -> Prop)
  : Prop :=
  forall s, P s ->
    match m s with
    | (inr a, s') => Q a s'
    | (inl _, s') => E s'
    end.

(** [m] keeps [I], however it ends. *)
Definition maintains {A} (I : Sys -> Prop) (m : M A) : Prop :=
  triple I m (fun _ => I) I.



(** The signed-in user is [u], and the selection rows of everybody else
    are [rows]. *)
Definition others_are (u : User.t) (rows : list CampSelection.t) (s : Sys) : Prop :=
  AuthManager.currentUser (authManager s) = Some u /\
  rows_of_others (User.id u) (db s) = rows.

(** A browser in which nobody is signed in and nothing is loaded, and a
    person who is not registered yet. *)
Definition visitor (script : list (option PostgrestError)) : Sys :=
  mkSys seeded (CampManager.mk [] None) (AuthManager.mk None) script 2.

Definition newcomer : UserData.t :=
  UserData.mk "Devi" "devi@example.org" "volunteer" 37 "+91 90000 00004".

(** A page load with [user] restored from [localStorage]: nothing is
    loaded yet. *)
Definition restored (user : User.t) (script : list (option PostgrestError)) : Sys :=
  mkSys seeded (CampManager.mk [] None) (AuthManager.mk (Some user)) script 2.

(** The seeded deployment once the first refugee holds a bed of the first
    camp, seen from the client of [user], with [script] to come. *)
Definition shared (user : User.t) (script : list (option PostgrestError)) : Sys :=
  let d := db (snd (call (SelectCamp 10) (client refugee1 []))) in
  mkSys d (CampManager.mk (select_camps d) None) (AuthManager.mk (Some user)) script 3.

(** * Proofs *)

Unset Implicit Arguments.

(** Unfolds the monad of the methods, and nothing of the store. *)
Ltac js :=
  cbv beta iota zeta delta
    [guarded try_catch bind ret throw gets modify negb getCurrentUser
     this_camps this_userSelection set_this_camps set_this_userSelection
     setCurrentUser notify];
  cbn [fst snd Reply.error Reply.data reply_opt reply_list].

Ltac tables :=
  cbn [Db.users Db.camps Db.camp_selections Db.volunteer_assignments Db.next_uuid
       Db.now Db.with_camps Db.with_camp_selections fst snd] in *.

(** ** Camps: order, lookup, keys *)

Lemma In_insert_desc c x l : In x (insert_desc c l) <-> x = c \/ In x l.
Proof.
  induction l as [|a l IH]; simpl.
  - split; intros [H|H]; auto.
  - destruct (Camp.created_at a <? Camp.created_at c); simpl.
    + split; intros [H|H]; auto.
    + rewrite IH. split; intros [H|[H|H]]; auto.
Qed.

Lemma In_order_desc x l : In x (order_desc l) <-> In x l.
Proof.
  induction l as [|a l IH]; simpl; [tauto|].
  rewrite In_insert_desc, IH. split; intros [H|H]; auto.
Qed.

Lemma find_camp_some i l c : find_camp i l = Some c -> In c l /\ Camp.id c = i.
Proof.
  intros H. apply find_some in H. destruct H as [H1 H2].
  apply Nat.eqb_eq in H2. auto.
Qed.

Lemma find_camp_none i l c : find_camp i l = None -> In c l -> Camp.id c <> i.
Proof.
  intros H Hin E. apply (find_none _ _ H) in Hin. apply Nat.eqb_neq in Hin. auto.
Qed.

Lemma find_camp_exists i l c :
  In c l -> Camp.id c = i -> exists c', find_camp i l = Some c'.
Proof.
  intros Hin E. destruct (find_camp i l) eqn:F; [eauto|].
  destruct (find_camp_none _ _ _ F Hin E).
Qed.

Lemma has_camp_iff d i :
  has_camp d i = true <-> exists c, In c (Db.camps d) /\ Camp.id c = i.
Proof.
  unfold has_camp. rewrite existsb_exists.
  split; intros [c [H1 H2]]; exists c; split; auto; apply Nat.eqb_eq; auto.
Qed.

Lemma camp_key l a b :
  NoDup (map Camp.id l) -> In a l -> In b l -> Camp.id a = Camp.id b -> a = b.
Proof.
  induction l as [|x l IH]; simpl; [tauto|].
  intros N Ha Hb E. inversion N as [|? ? Hx N']; subst.
  destruct Ha as [->|Ha], Hb as [->|Hb]; auto.
  - exfalso. apply Hx. rewrite E. apply in_map. exact Hb.
  - exfalso. apply Hx. rewrite <- E. apply in_map. exact Ha.
Qed.

Lemma map_id_set_beds i b l : map Camp.id (set_beds i b l) = map Camp.id l.
Proof.
  unfold set_beds. rewrite map_map. apply map_ext.
  intros c. destruct (Camp.id c =? i); reflexivity.
Qed.

Lemma has_camp_ids d d' :
  map Camp.id (Db.camps d') = map Camp.id (Db.camps d) ->
  forall i, has_camp d' i = has_camp d i.
Proof.
  intros H i. unfold has_camp.
  assert (E : forall l, existsb (fun r => Camp.id r =? i) l
                        = existsb (fun k => k =? i) (map Camp.id l)).
  { induction l as [|a l IH]; simpl; [reflexivity|]. rewrite IH. reflexivity. }
  rewrite !E, H. reflexivity.
Qed.

(** The cached camp the manager finds is the row of the table. *)
Lemma cached_camp d i c :
  find_camp i (select_camps d) = Some c -> In c (Db.camps d) /\ Camp.id c = i.
Proof.
  intros H. apply find_camp_some in H. destruct H as [H1 H2].
  unfold select_camps in H1. apply (proj1 (In_order_desc _ _)) in H1. split; assumption.
Qed.

Lemma cached_camp_none d i :
  find_camp i (select_camps d) = None -> has_camp d i = false.
Proof.
  intros H. destruct (has_camp d i) eqn:E; [|reflexivity].
  apply has_camp_iff in E. destruct E as [c [H1 H2]].
  exfalso. eapply find_camp_none; eauto. apply (proj2 (In_order_desc _ _)). exact H1.
Qed.

Lemma cached_camp_found d i c :
  NoDup (map Camp.id (Db.camps d)) -> In c (Db.camps d) -> Camp.id c = i ->
  find_camp i (select_camps d) = Some c.
Proof.
  intros N Hin E.
  destruct (find_camp_exists i (select_camps d) c) as [c' F]; auto.
  { apply (proj2 (In_order_desc _ _)). exact Hin. }
  rewrite F. f_equal. destruct (cached_camp _ _ _ F) as [H1 H2].
  apply (camp_key _ _ _ N H1 Hin). congruence.
Qed.

(** ** Selections: counting rows *)

Lemma filter_filter_length_le {A} (f g : A -> bool) (l : list A) :
  List.length (filter f (filter g l)) <= List.length (filter f l).
Proof.
  induction l as [|a l IH]; simpl; [lia|].
  destruct (g a), (f a) eqn:F; simpl; rewrite ?F; simpl; lia.
Qed.

Lemma filter_le_one {A} (f : A -> bool) (l : list A) (x : A) :
  List.length (filter f l) <= 1 -> In x l -> f x = true -> filter f l = [x].
Proof.
  intros Hlen Hin Hf.
  assert (Hx : In x (filter f l)) by (apply filter_In; auto).
  destruct (filter f l) as [|a [|b t]]; simpl in *.
  - contradiction.
  - destruct Hx as [->|[]]. reflexivity.
  - lia.
Qed.

Lemma filter_none {A} (f : A -> bool) (l : list A) :
  (forall x, In x l -> f x = false) -> filter f l = [].
Proof.
  induction l as [|a l IH]; simpl; intros H; [reflexivity|].
  rewrite (H a (or_introl eq_refl)). apply IH. intros x Hx. apply H. right; exact Hx.
Qed.

Lemma status_eqb_eq a b : Status_eqb a b = true <-> a = b.
Proof. destruct a, b; simpl; split; congruence. Qed.

Lemma is_active_of_iff u r :
  is_active_of u r = true <->
  CampSelection.user_id r = u /\ CampSelection.status r = active.
Proof.
  unfold is_active_of. rewrite andb_true_iff, Nat.eqb_eq, status_eqb_eq. tauto.
Qed.

Lemma count_key_app u st l1 l2 :
  count_key u st (l1 ++ l2) = count_key u st l1 + count_key u st l2.
Proof. unfold count_key. rewrite filter_app, length_app. reflexivity. Qed.

Lemma unique_count_key tbl u st :
  unique_user_status tbl = true -> count_key u st tbl <= 1.
Proof.
  intros H. unfold unique_user_status in H. rewrite forallb_forall in H.
  unfold count_key in *.
  destruct (filter _ tbl) as [|r t] eqn:F; simpl; [lia|].
  assert (Hr : In r (filter (fun r => (CampSelection.user_id r =? u) &&
                              Status_eqb (CampSelection.status r) st) tbl))
    by (rewrite F; left; reflexivity).
  apply filter_In in Hr. destruct Hr as [Hin Hk].
  apply andb_prop in Hk. destruct Hk as [Hu Hs].
  apply Nat.eqb_eq in Hu. apply status_eqb_eq in Hs.
  specialize (H r Hin). apply Nat.leb_le in H.
  rewrite Hu, Hs, F in H. exact H.
Qed.

Lemma count_key_unique tbl :
  (forall u st, count_key u st tbl <= 1) -> unique_user_status tbl = true.
Proof.
  intros H. unfold unique_user_status. apply forallb_forall.
  intros r _. apply Nat.leb_le. apply H.
Qed.

Lemma unique_single_active d :
  unique_user_status (Db.camp_selections d) = true -> single_active d.
Proof. intros H u. apply unique_count_key. exact H. Qed.

Lemma cancel_rows_idle ts u tbl :
  existsb (is_active_of u) tbl = false -> cancel_rows ts u tbl = tbl.
Proof.
  unfold cancel_rows. induction tbl as [|r tbl IH]; simpl; [reflexivity|].
  intros H. apply orb_false_elim in H. destruct H as [H1 H2].
  rewrite H1, (IH H2). reflexivity.
Qed.

Lemma count_key_filter u st (g : CampSelection.t -> bool) tbl :
  count_key u st (filter g tbl) <= count_key u st tbl.
Proof. unfold count_key. apply filter_filter_length_le. Qed.

(** ** The statements keep the schema's guarantees *)

Lemma db_wf_insert_selection u c st d :
  db_wf d -> db_wf (snd (insert_camp_selection u c st d)).
Proof.
  intros W. unfold insert_camp_selection.
  destruct (check_single_active_selection _ _); [exact W|].
  destruct (has_user d u && has_camp d c) eqn:FK; cbn [negb]; [|exact W].
  destruct (unique_user_status _) eqn:U; cbn [negb snd]; [|exact W].
  apply andb_prop in FK. destruct FK as [_ FK].
  destruct W as [W1 W2 W3 W4]. constructor; tables.
  - exact W1.
  - eapply Forall_impl; [|exact W2]. cbv beta. intros; lia.
  - apply Forall_app. split; [exact W3|]. constructor; [exact FK|constructor].
  - exact U.
Qed.

Lemma db_wf_cancel ts u d :
  db_wf d -> db_wf (snd (update_cancel_selection ts u d)).
Proof.
  intros W. unfold update_cancel_selection.
  destruct (existsb (is_active_of u) (Db.camp_selections d)) eqn:E; cbn [andb].
  - destruct (unique_user_status _) eqn:U; cbn [negb snd]; [|exact W].
    destruct W as [W1 W2 W3 W4]. constructor; tables; auto.
    unfold cancel_rows. apply Forall_map.
    eapply Forall_impl; [|exact W3]. cbv beta.
    intros r Hr. destruct (is_active_of u r); exact Hr.
  - cbn [snd]. rewrite (cancel_rows_idle _ _ _ E).
    destruct d; exact W.
Qed.

Lemma db_wf_delete i d : db_wf d -> db_wf (delete_camp i d).
Proof.
  intros [W1 W2 W3 W4]. unfold delete_camp. constructor; tables.
  - clear -W1. induction (Db.camps d) as [|a l IH]; simpl; [constructor|].
    inversion W1 as [|? ? Hx N]; subst.
    destruct (Camp.id a =? i); simpl; auto.
    constructor; auto. intros Hin. apply Hx.
    apply in_map_iff in Hin. destruct Hin as [x [E Hin]].
    apply filter_In in Hin. rewrite <- E. apply in_map. tauto.
  - apply Forall_forall. intros c Hc. apply filter_In in Hc.
    rewrite Forall_forall in W2. apply W2. tauto.
  - apply Forall_forall. intros r Hr. apply filter_In in Hr. destruct Hr as [Hr Hne].
    rewrite Forall_forall in W3. specialize (W3 r Hr).
    apply has_camp_iff in W3. destruct W3 as [c [Hc E]].
    apply has_camp_iff. exists c. tables. split; [|exact E].
    apply filter_In. split; [exact Hc|]. rewrite E. exact Hne.
  - apply count_key_unique. intros v st.
    etransitivity; [apply count_key_filter | apply unique_count_key; exact W4].
Qed.

Lemma db_wf_insert_camp cd u ty o d :
  db_wf d -> db_wf (snd (insert_camp cd u ty o d)).
Proof.
  intros W. unfold insert_camp. destruct (negb _); [exact W|].
  destruct W as [W1 W2 W3 W4]. constructor; tables.
  - rewrite map_app. cbn [map Camp.id].
    assert (F : ~ In (Db.next_uuid d) (map Camp.id (Db.camps d))).
    { intros Hin. apply in_map_iff in Hin. destruct Hin as [c [E Hc]].
      rewrite Forall_forall in W2. specialize (W2 c Hc). lia. }
    clear -W1 F. induction (map Camp.id (Db.camps d)) as [|a l IH]; simpl.
    + constructor; [intros []|constructor].
    + inversion W1; subst. constructor.
      * intros Hin. apply in_app_or in Hin. destruct Hin as [Hin|[Hin|[]]]; auto.
        apply F. left; symmetry; exact Hin.
      * apply IH; auto. intros Hin. apply F. right; exact Hin.
  - apply Forall_app. split.
    + eapply Forall_impl; [|exact W2]. cbv beta. intros; lia.
    + constructor; [cbn [Camp.id]; lia|constructor].
  - eapply Forall_impl; [|exact W3]. cbv beta. intros r Hr.
    apply has_camp_iff in Hr. destruct Hr as [c [Hc E]].
    apply has_camp_iff. exists c. tables. split; [apply in_or_app; auto|exact E].
  - exact W4.
Qed.

Lemma db_wf_update_beds i b d : db_wf d -> db_wf (snd (update_camp_beds i b d)).
Proof.
  intros [W1 W2 W3 W4]. unfold update_camp_beds. constructor; tables.
  - rewrite map_id_set_beds. exact W1.
  - unfold set_beds. apply Forall_map. eapply Forall_impl; [|exact W2]. cbv beta.
    intros c Hc. destruct (Camp.id c =? i); exact Hc.
  - eapply Forall_impl; [|exact W3]. cbv beta. intros r Hr.
    rewrite <- Hr. apply has_camp_ids. tables. apply map_id_set_beds.
  - exact W4.
Qed.

Lemma db_wf_insert_assignment v c d :
  db_wf d -> db_wf (snd (insert_volunteer_assignment v c d)).
Proof.
  intros W. unfold insert_volunteer_assignment. destruct (negb _); [exact W|].
  destruct W as [W1 W2 W3 W4]. constructor; tables; auto.
  eapply Forall_impl; [|exact W2]. cbv beta. intros; lia.
Qed.

Lemma count_key_cancel_rows ts u v tbl :
  count_key v active (cancel_rows ts u tbl) <= count_key v active tbl.
Proof.
  unfold count_key, cancel_rows.
  induction tbl as [|r tbl IH]; cbn [map filter List.length]; [lia|].
  destruct (is_active_of u r) eqn:Hu.
  - cbn [CampSelection.cancel CampSelection.status CampSelection.user_id Status_eqb].
    rewrite Bool.andb_false_r.
    destruct ((CampSelection.user_id r =? v) && Status_eqb (CampSelection.status r) active);
      cbn [List.length]; lia.
  - destruct ((CampSelection.user_id r =? v) && Status_eqb (CampSelection.status r) active);
      cbn [List.length]; lia.
Qed.

(** ** The statements on [camp_selections] and the one-active rule *)

Lemma single_active_insert u c st d :
  single_active d -> single_active (snd (insert_camp_selection u c st d)).
Proof.
  intros H. unfold insert_camp_selection.
  destruct (check_single_active_selection _ _); [exact H|].
  destruct (negb (has_user d u && has_camp d c)); [exact H|].
  destruct (unique_user_status _) eqn:U; [|exact H].
  intros v. simpl. apply unique_count_key. exact U.
Qed.

Lemma single_active_cancel ts u d :
  single_active d -> single_active (snd (update_cancel_selection ts u d)).
Proof.
  intros H. unfold update_cancel_selection.
  destruct (_ && _); [exact H|].
  intros v. simpl. etransitivity; [apply count_key_cancel_rows | apply H].
Qed.

Lemma single_active_delete i d :
  single_active d -> single_active (delete_camp i d).
Proof.
  intros H v. unfold delete_camp, count_key. simpl.
  etransitivity; [apply filter_filter_length_le | apply H].
Qed.

(** ** Invariants of the tables along a method *)

Section Keeps.
Variable I : Db.t -> Prop.

Local Abbreviation keeps := (keeps I).

Lemma keeps_ret {A} (a : A) : keeps (ret a).
Proof. intros s H; exact H. Qed.

Lemma keeps_throw {A} (e : Thrown) : keeps (@throw A e).
Proof. intros s H; exact H. Qed.

Lemma keeps_gets {A} (f : Sys -> A) : keeps (gets f).
Proof. intros s H; exact H. Qed.

Lemma keeps_modify (f : Sys -> Sys) : (forall s, db (f s) = db s) -> keeps (modify f).
Proof. intros Hf s H. simpl. rewrite Hf. exact H. Qed.

Lemma keeps_bind {A B} (m : M A) (k : A -> M B) :
  keeps m -> (forall a, keeps (k a)) -> keeps (bind m k).
Proof.
  intros Hm Hk s H. unfold bind. specialize (Hm s H).
  destruct (m s) as [[e|a] s1]; simpl in *; [exact Hm|].
  exact (Hk a s1 Hm).
Qed.

Lemma keeps_try_catch {A} (body : M A) (handler : Thrown -> M A) :
  keeps body -> (forall e, keeps (handler e)) -> keeps (try_catch body handler).
Proof.
  intros Hb Hh s H. unfold try_catch. specialize (Hb s H).
  destruct (body s) as [[e|a] s1]; simpl in *; [|exact Hb].
  exact (Hh e s1 Hb).
Qed.

Lemma keeps_request {A} (exec : Db.t -> (PostgrestError + A) * Db.t) :
  (forall d, I d -> I (snd (exec d))) -> keeps (request exec).
Proof.
  intros He s H. unfold request.
  destruct (outcomes s) as [|[e|] rest]; simpl; try exact H;
    specialize (He _ H); destruct (exec (db s)); exact He.
Qed.

Hypothesis insert_selection_keeps : forall u c st d, I d -> I (snd (insert_camp_selection u c st d)).
Hypothesis cancel_keeps : forall ts u d, I d -> I (snd (update_cancel_selection ts u d)).
Hypothesis delete_keeps : forall i d, I d -> I (delete_camp i d).
Hypothesis insert_camp_keeps : forall cd u ty o d, I d -> I (snd (insert_camp cd u ty o d)).
Hypothesis update_beds_keeps : forall i b d, I d -> I (snd (update_camp_beds i b d)).
Hypothesis insert_assignment_keeps : forall v c d, I d -> I (snd (insert_volunteer_assignment v c d)).

Ltac keeps_step :=
  first
    [ apply keeps_ret | apply keeps_throw | apply keeps_gets
    | apply keeps_modify; reflexivity
    | apply keeps_request; intros ? ?;
      first [ match goal with
              | H : I ?d |- context [update_camp_beds ?i ?b ?d] =>
                  let K := fresh in
                  pose proof (update_beds_keeps i b _ H) as K;
                  destruct (update_camp_beds i b d); exact K
              end
            | solve [simpl; auto] ]
    | apply keeps_bind; [|intro]
    | apply keeps_try_catch; [|intro]
    | match goal with
      | |- keeps (match ?x with _ => _ end) => destruct x
      | |- keeps (let (_, _) := ?x in _) => destruct x
      end ].

Ltac keeps_all := repeat keeps_step.

Lemma keeps_loadCamps : keeps loadCamps.
Proof. unfold loadCamps, guarded, dbHelpers.getCamps, set_this_camps, notify. keeps_all. Qed.

Lemma keeps_loadUserSelection : keeps loadUserSelection.
Proof.
  unfold loadUserSelection, guarded, dbHelpers.getUserCampSelection, getCurrentUser,
    set_this_userSelection, notify. keeps_all.
Qed.

Lemma keeps_call (c : Call) : forall s, I (db s) -> I (db (snd (call c s))).
Proof.
  assert (S : forall A (m : M (Result A)), keeps m -> forall s, I (db s) -> I (db (snd (settle (m s))))).
  { intros A m Hm s H. specialize (Hm s H). destruct (m s) as [[e|r] s1]; exact Hm. }
  destruct c; unfold call; apply S.
  - apply keeps_loadCamps.
  - apply keeps_loadUserSelection.
  - unfold selectCamp, guarded, dbHelpers.createCampSelection, dbHelpers.updateCamp,
      getCurrentUser, this_userSelection, this_camps.
    keeps_all; try apply keeps_loadCamps; try apply keeps_loadUserSelection.
  - unfold cancelSelection, guarded, dbHelpers.cancelCampSelection, dbHelpers.updateCamp,
      getCurrentUser, this_userSelection, this_camps.
    keeps_all; try apply keeps_loadCamps; try apply keeps_loadUserSelection.
  - unfold addCamp, guarded, dbHelpers.createCamp, getCurrentUser.
    keeps_all; try apply keeps_loadCamps.
  - unfold deleteCamp, guarded, dbHelpers.deleteCamp, getCurrentUser.
    keeps_all; try apply keeps_loadCamps.
  - unfold addVolunteerAssignment, guarded, dbHelpers.createVolunteerAssignment, getCurrentUser.
    keeps_all.
  - unfold getVolunteerHistory, guarded, dbHelpers.getVolunteerAssignments, getCurrentUser.
    keeps_all.
  - unfold login, guarded, dbHelpers.getUserByEmail, setCurrentUser.
    keeps_all.
  - unfold logout, setCurrentUser. keeps_all.
Qed.

Lemma keeps_calls (l : list Call) : forall s, I (db s) -> I (db (calls l s)).
Proof.
  induction l as [|c l IH]; intros s H; simpl; [exact H|].
  apply IH. apply keeps_call. exact H.
Qed.

End Keeps.

(** ** Results of method bodies *)

Lemma returns_ret {A} (Q : A -> Prop) (a : A) : Q a -> returns_only Q (ret a).
Proof. intros H s a' s' E. inversion E; subst; exact H. Qed.

Lemma returns_throw {A} (Q : A -> Prop) (e : Thrown) : returns_only Q (throw e).
Proof. intros s a s' E. discriminate E. Qed.

Lemma returns_bind {A B} (Q : B -> Prop) (m : M A) (k : A -> M B) :
  (forall a, returns_only Q (k a)) -> returns_only Q (bind m k).
Proof.
  intros H s b s' E. unfold bind in E.
  destruct (m s) as [[e|a] s1]; [discriminate E|].
  exact (H a s1 b s' E).
Qed.

Lemma well_formed_resolved {A} (a : A) : well_formed (resolved a).
Proof. left; split; reflexivity. Qed.

Lemma well_formed_failed {A} (msg : string) : well_formed (@failed A msg).
Proof. right; split; [reflexivity | exists msg; reflexivity]. Qed.

Lemma guarded_total {A} (body : M (Result A)) :
  returns_only (@well_formed A) body -> total_at_interface (guarded body).
Proof.
  intros H s. unfold guarded, try_catch.
  destruct (body s) as [[e|r] s'] eqn:E.
  - exists (failed (error_message e)), s'. split; [reflexivity | apply well_formed_failed].
  - exists r, s'. split; [reflexivity | exact (H _ _ _ E)].
Qed.

Ltac returns_step :=
  first
    [ apply returns_throw
    | apply returns_ret; apply well_formed_resolved
    | apply returns_bind; intro
    | match goal with
      | |- returns_only _ (match ?x with _ => _ end) => destruct x
      end ].

Ltac total := apply guarded_total; repeat returns_step.

(** ** Requests *)

Lemma request_refused {A} (exec : Db.t -> (PostgrestError + A) * Db.t) s e :
  refused s = Some e ->
  request exec s = (inr (inl e), consumed s (db s)).
Proof.
  unfold refused, request, consumed. destruct (outcomes s) as [|[e'|] rest]; try discriminate.
  intros H; inversion H; subst. reflexivity.
Qed.

Lemma request_answered {A} (exec : Db.t -> (PostgrestError + A) * Db.t) s :
  refused s = None ->
  request exec s = (inr (fst (exec (db s))), consumed s (snd (exec (db s)))).
Proof.
  unfold refused, request, consumed. destruct (outcomes s) as [|[e'|] rest]; try discriminate;
    intros _; destruct (exec (db s)); reflexivity.
Qed.

(** [loadCamps] and [loadUserSelection] fulfil and leave the tables alone. *)
Lemma loadCamps_db s : db (snd (loadCamps s)) = db s.
Proof.
  unfold loadCamps, guarded, try_catch, bind, dbHelpers.getCamps, bind.
  destruct (refused s) eqn:R.
  - rewrite (request_refused _ _ _ R). reflexivity.
  - rewrite (request_answered _ _ R). reflexivity.
Qed.

Lemma loadCamps_returns s : exists r, fst (loadCamps s) = inr r.
Proof.
  unfold loadCamps, guarded, try_catch, bind, dbHelpers.getCamps, bind.
  destruct (refused s) eqn:R.
  - rewrite (request_refused _ _ _ R). simpl. eauto.
  - rewrite (request_answered _ _ R). simpl. eauto.
Qed.

(** ** Runs in which every request is answered *)

Lemma request_quiet {A} (exec : Db.t -> (PostgrestError + A) * Db.t) s :
  outcomes s = [] ->
  request exec s =
  (inr (fst (exec (db s))),
   mkSys (snd (exec (db s))) (campManager s) (authManager s) [] (date s)).
Proof.
  intros H. unfold request. rewrite H. destruct (exec (db s)); reflexivity.
Qed.

Lemma quiet_eta s : outcomes s = [] ->
  mkSys (db s) (campManager s) (authManager s) [] (date s) = s.
Proof. destruct s; simpl; intros ->; reflexivity. Qed.

Lemma loadCamps_quiet s :
  outcomes s = [] ->
  loadCamps s = (inr (resolved (select_camps (db s))), camps_reloaded s (db s)).
Proof.
  intros H. unfold loadCamps, dbHelpers.getCamps; js.
  rewrite (request_quiet _ _ H). reflexivity.
Qed.

Lemma loadUserSelection_quiet s :
  outcomes s = [] ->
  loadUserSelection s =
  (inr (resolved (loaded_selection (AuthManager.currentUser (authManager s)) (db s))),
   mkSys (db s)
         (CampManager.mk (CampManager.camps (campManager s))
                         (loaded_selection (AuthManager.currentUser (authManager s)) (db s)))
         (authManager s) [] (date s)).
Proof.
  intros H. unfold loadUserSelection, dbHelpers.getUserCampSelection; js.
  destruct (AuthManager.currentUser (authManager s)) as [u|]; js.
  - rewrite (request_quiet _ _ H). unfold loaded_selection. simpl.
    unfold select_active_selection, single.
    destruct (filter _ _) as [|r [|r' t]]; reflexivity.
  - simpl. rewrite H. reflexivity.
Qed.

Lemma insert_camp_selection_refused u c st d e d1 :
  insert_camp_selection u c st d = (inl e, d1) -> d1 = d.
Proof.
  unfold insert_camp_selection.
  repeat match goal with |- context [if ?b then _ else _] => destruct b end;
    intros E; inversion E; reflexivity.
Qed.

Lemma update_cancel_selection_refused ts u d e d1 :
  update_cancel_selection ts u d = (inl e, d1) -> d1 = d.
Proof.
  unfold update_cancel_selection.
  destruct (_ && _); intros E; inversion E; reflexivity.
Qed.

Lemma insert_camp_refused cd u ty o d e d1 :
  insert_camp cd u ty o d = (inl e, d1) -> d1 = d.
Proof.
  unfold insert_camp. destruct (negb _); intros E; inversion E; reflexivity.
Qed.

Lemma insert_volunteer_assignment_refused v c d e d1 :
  insert_volunteer_assignment v c d = (inl e, d1) -> d1 = d.
Proof.
  unfold insert_volunteer_assignment. destruct (negb _); intros E; inversion E; reflexivity.
Qed.

Lemma selectCamp_quiet campId s u camp :
  outcomes s = [] ->
  AuthManager.currentUser (authManager s) = Some u ->
  CampManager.userSelection (campManager s) = None ->
  find_camp campId (CampManager.camps (campManager s)) = Some camp ->
  (0 < Camp.beds camp)%Z ->
  selectCamp campId s =
  match insert_camp_selection (User.id u) campId active (db s) with
  | (inl e, _) => (inr (failed (message e)), s)
  | (inr row, d1) =>
      let w := update_camp_beds campId (Camp.beds camp - 1) d1 in
      (inr (resolved (Some row, hd_error (fst w))), reloaded s (snd w))
  end.
Proof.
  intros H Hu Hsel Hfind Hbeds.
  unfold selectCamp; js. rewrite Hu; js. rewrite Hsel; js. rewrite Hfind; js.
  assert (Hb : (Camp.beds camp <=? 0)%Z = false) by (apply Z.leb_gt; exact Hbeds).
  rewrite Hb; js.
  unfold dbHelpers.createCampSelection; js.
  rewrite (request_quiet _ _ H).
  destruct (insert_camp_selection _ _ _ _) as [[e|row] d1] eqn:E; js.
  - apply insert_camp_selection_refused in E. subst d1.
    rewrite (quiet_eta _ H). reflexivity.
  - unfold dbHelpers.updateCamp; js.
    rewrite request_quiet by reflexivity. cbn [db].
    destruct (update_camp_beds _ _ _) as [rows d2]; js.
    cbn [campManager authManager date].
    rewrite loadCamps_quiet by reflexivity; js.
    rewrite loadUserSelection_quiet by reflexivity; js. reflexivity.
Qed.

Lemma cancelSelection_quiet s u sel :
  outcomes s = [] ->
  AuthManager.currentUser (authManager s) = Some u ->
  CampManager.userSelection (campManager s) = Some sel ->
  cancelSelection s =
  match update_cancel_selection (date s) (User.id u) (db s) with
  | (inl e, _) => (inr (failed (message e)), s)
  | (inr _, d1) =>
      (inr (resolved tt),
       reloaded s
         match find_camp (CampSelection.camp_id sel) (CampManager.camps (campManager s)) with
         | Some camp =>
             snd (update_camp_beds (CampSelection.camp_id sel) (Camp.beds camp + 1) d1)
         | None => d1
         end)
  end.
Proof.
  intros H Hu Hsel.
  unfold cancelSelection; js. rewrite Hu, Hsel; js.
  unfold dbHelpers.cancelCampSelection; js.
  rewrite (request_quiet _ _ H).
  destruct (update_cancel_selection _ _ _) as [[e|[]] d1] eqn:E; js.
  - apply update_cancel_selection_refused in E. subst d1.
    rewrite (quiet_eta _ H). reflexivity.
  - destruct (find_camp _ _) as [camp|]; js.
    + unfold dbHelpers.updateCamp; js.
      rewrite request_quiet by reflexivity. cbn [db].
      destruct (update_camp_beds _ _ _) as [rows d2]; js.
      cbn [campManager authManager date].
      rewrite loadCamps_quiet by reflexivity; js.
    rewrite loadUserSelection_quiet by reflexivity; js. reflexivity.
    + rewrite loadCamps_quiet by reflexivity; js.
      rewrite loadUserSelection_quiet by reflexivity; js. reflexivity.
Qed.

Lemma cancelSelection_none s :
  AuthManager.currentUser (authManager s) = None \/
  CampManager.userSelection (campManager s) = None ->
  cancelSelection s = (inr (failed "No active camp selection found"), s).
Proof.
  intros H. unfold cancelSelection; js.
  destruct (AuthManager.currentUser (authManager s)), (CampManager.userSelection (campManager s));
    js; try reflexivity.
  destruct H; discriminate.
Qed.

Lemma addCamp_quiet s u cd :
  outcomes s = [] ->
  AuthManager.currentUser (authManager s) = Some u ->
  User.role u = "volunteer"%string ->
  addCamp (Some cd) s =
  match insert_camp cd (User.id u) "volunteer-added" (CampData.beds cd) (db s) with
  | (inl e, _) => (inr (failed (message e)), s)
  | (inr c, d1) => (inr (resolved (Some c)), camps_reloaded s d1)
  end.
Proof.
  intros H Hu Hrole.
  unfold addCamp; js. rewrite Hu; js. rewrite Hrole. cbn [String.eqb Ascii.eqb Bool.eqb]; js.
  unfold dbHelpers.createCamp; js.
  rewrite (request_quiet _ _ H).
  destruct (insert_camp _ _ _ _ _) as [[e|c] d1] eqn:E; js.
  - apply insert_camp_refused in E. subst d1. rewrite (quiet_eta _ H). reflexivity.
  - rewrite loadCamps_quiet by reflexivity. reflexivity.
Qed.

Lemma deleteCamp_quiet s u campId :
  outcomes s = [] ->
  AuthManager.currentUser (authManager s) = Some u ->
  User.role u = "volunteer"%string ->
  deleteCamp campId s = (inr (resolved tt), camps_reloaded s (delete_camp campId (db s))).
Proof.
  intros H Hu Hrole.
  unfold deleteCamp; js. rewrite Hu; js. rewrite Hrole. cbn [String.eqb Ascii.eqb Bool.eqb]; js.
  unfold dbHelpers.deleteCamp; js.
  rewrite (request_quiet _ _ H). js.
  rewrite loadCamps_quiet by reflexivity. reflexivity.
Qed.

Lemma not_volunteer_add s campData :
  (forall u, AuthManager.currentUser (authManager s) = Some u ->
             User.role u <> "volunteer"%string) ->
  addCamp campData s = (inr (failed "Only volunteers can add camps"), s).
Proof.
  intros H. unfold addCamp; js.
  destruct (AuthManager.currentUser (authManager s)) as [u|]; js; [|reflexivity].
  destruct (String.eqb (User.role u) "volunteer") eqn:E; js; [|reflexivity].
  apply String.eqb_eq in E. destruct (H u eq_refl E).
Qed.

Lemma not_volunteer_delete s campId :
  (forall u, AuthManager.currentUser (authManager s) = Some u ->
             User.role u <> "volunteer"%string) ->
  deleteCamp campId s = (inr (failed "Only volunteers can delete camps"), s).
Proof.
  intros H. unfold deleteCamp; js.
  destruct (AuthManager.currentUser (authManager s)) as [u|]; js; [|reflexivity].
  destruct (String.eqb (User.role u) "volunteer") eqn:E; js; [|reflexivity].
  apply String.eqb_eq in E. destruct (H u eq_refl E).
Qed.

(** ** The ledger along the statements *)

Lemma insert_camp_selection_accepted u c st d row d1 :
  insert_camp_selection u c st d = (inr row, d1) ->
  row = CampSelection.mk (Db.next_uuid d) u c st (Db.now d) None /\
  d1 = Db.mk (Db.users d) (Db.camps d) (Db.camp_selections d ++ [row])
             (Db.volunteer_assignments d) (S (Db.next_uuid d)) (Db.now d) /\
  has_user d u = true /\ has_camp d c = true /\
  unique_user_status (Db.camp_selections d ++ [row]) = true.
Proof.
  unfold insert_camp_selection.
  destruct (check_single_active_selection _ _); [discriminate|].
  destruct (has_user d u && has_camp d c) eqn:FK; cbn [negb]; [|discriminate].
  destruct (unique_user_status _) eqn:U; cbn [negb]; [|discriminate].
  intros E. inversion E; subst. apply andb_prop in FK. tauto.
Qed.

Lemma active_rows_snoc i tbl r :
  List.length (filter (is_active_on i) (tbl ++ [r])) =
  List.length (filter (is_active_on i) tbl) + (if is_active_on i r then 1 else 0).
Proof.
  rewrite filter_app, length_app. cbn [filter].
  destruct (is_active_on i r); reflexivity.
Qed.

Lemma count_key_active u tbl :
  count_key u active tbl = List.length (filter (is_active_of u) tbl).
Proof. reflexivity. Qed.

Lemma active_rows_cancel ts u r tbl :
  count_key u active tbl <= 1 -> In r tbl -> is_active_of u r = true ->
  forall i,
    List.length (filter (is_active_on i) (cancel_rows ts u tbl)) +
    (if CampSelection.camp_id r =? i then 1 else 0) =
    List.length (filter (is_active_on i) tbl).
Proof.
  rewrite count_key_active.
  intros Hc Hin Hr i. induction tbl as [|h t IH]; [destruct Hin|].
  unfold cancel_rows. cbn [filter map] in *. fold (cancel_rows ts u t).
  destruct (is_active_of u h) eqn:Hh.
  - cbn [List.length] in Hc.
    assert (Z : filter (is_active_of u) t = []).
    { destruct (filter (is_active_of u) t) eqn:F; [reflexivity|]. cbn in Hc. lia. }
    assert (Ht : existsb (is_active_of u) t = false).
    { destruct (existsb (is_active_of u) t) eqn:X; [|reflexivity].
      apply existsb_exists in X. destruct X as [x [Hx1 Hx2]].
      assert (In x (filter (is_active_of u) t)) by (apply filter_In; auto).
      rewrite Z in H. destruct H. }
    rewrite (cancel_rows_idle _ _ _ Ht).
    assert (r = h).
    { destruct Hin as [E|Hin]; [auto|].
      assert (In r (filter (is_active_of u) t)) by (apply filter_In; auto).
      rewrite Z in H. destruct H. }
    subst r.
    apply is_active_of_iff in Hh. destruct Hh as [_ Hs].
    assert (A1 : is_active_on i (CampSelection.cancel ts h) = false)
      by (unfold is_active_on; cbn; apply Bool.andb_false_r).
    assert (A2 : is_active_on i h = (CampSelection.camp_id h =? i))
      by (unfold is_active_on; rewrite Hs; cbn; apply Bool.andb_true_r).
    rewrite A1, A2.
    destruct (CampSelection.camp_id h =? i); cbn [List.length]; lia.
  - destruct Hin as [E|Hin]; [subst; congruence|].
    specialize (IH Hc Hin).
    destruct (is_active_on i h); cbn [List.length]; lia.
Qed.

Lemma active_rows_delete i j tbl :
  i <> j ->
  List.length (filter (is_active_on i)
                 (filter (fun r => negb (CampSelection.camp_id r =? j)) tbl)) =
  List.length (filter (is_active_on i) tbl).
Proof.
  intros N. induction tbl as [|h t IH]; [reflexivity|]. cbn [filter].
  destruct (CampSelection.camp_id h =? j) eqn:E; cbn [negb filter].
  - apply Nat.eqb_eq in E. unfold is_active_on at 2.
    assert (X : (CampSelection.camp_id h =? i) = false) by (apply Nat.eqb_neq; lia).
    rewrite X. cbn [andb]. exact IH.
  - destruct (is_active_on i h); cbn [List.length]; rewrite IH; reflexivity.
Qed.

Lemma active_rows_absent i tbl :
  (forall r, In r tbl -> CampSelection.camp_id r <> i) ->
  List.length (filter (is_active_on i) tbl) = 0.
Proof.
  intros H. rewrite filter_none; [reflexivity|].
  intros r Hr. unfold is_active_on.
  apply andb_false_intro1. apply Nat.eqb_neq. apply H. exact Hr.
Qed.

(** [selectCamp]: the row and the bed leave together. *)
Lemma ledger_select d u camp row d1 :
  db_wf d -> ledger_agrees d -> Forall (fun c => (0 <= Camp.beds c)%Z) (Db.camps d) ->
  In camp (Db.camps d) -> (0 < Camp.beds camp)%Z ->
  insert_camp_selection u (Camp.id camp) active d = (inr row, d1) ->
  let d2 := snd (update_camp_beds (Camp.id camp) (Camp.beds camp - 1) d1) in
  ledger_agrees d2 /\ Forall (fun c => (0 <= Camp.beds c)%Z) (Db.camps d2).
Proof.
  intros W L N Hin Hb E d2. subst d2.
  apply insert_camp_selection_accepted in E.
  destruct E as [Hrow [Hd1 _]]. subst d1.
  assert (A : forall i, is_active_on i row = (Camp.id camp =? i))
    by (intro; subst row; unfold is_active_on; cbn; apply Bool.andb_true_r).
  unfold update_camp_beds, ledger_agrees, active_count. tables.
  unfold ledger_agrees, active_count in L.
  rewrite Forall_forall in L, N.
  split; unfold set_beds; apply Forall_map; apply Forall_forall; intros c Hc.
  - rewrite active_rows_snoc, A.
    destruct (Camp.id c =? Camp.id camp) eqn:X.
    + apply Nat.eqb_eq in X.
      assert (c = camp) by (apply (camp_key _ _ _ (wf_camp_ids W) Hc Hin X)). subst c.
      cbn [Camp.with_beds Camp.beds Camp.id Camp.original_beds].
      specialize (L camp Hin). rewrite Nat.eqb_refl. lia.
    + specialize (L c Hc). rewrite Nat.eqb_sym in X. rewrite X. lia.
  - destruct (Camp.id c =? Camp.id camp).
    + cbn [Camp.with_beds Camp.beds]. lia.
    + apply N. exact Hc.
Qed.

Lemma update_cancel_selection_accepted ts u d d1 :
  update_cancel_selection ts u d = (inr tt, d1) ->
  d1 = Db.with_camp_selections d (cancel_rows ts u (Db.camp_selections d)).
Proof.
  unfold update_cancel_selection. destruct (_ && _); intros E; inversion E; reflexivity.
Qed.

(** [cancelSelection]: the row and the bed come back together. *)
Lemma ledger_cancel ts u d d1 r camp :
  db_wf d -> ledger_agrees d -> Forall (fun c => (0 <= Camp.beds c)%Z) (Db.camps d) ->
  update_cancel_selection ts u d = (inr tt, d1) ->
  In r (Db.camp_selections d) -> is_active_of u r = true ->
  CampSelection.camp_id r = Camp.id camp -> In camp (Db.camps d) ->
  let d2 := snd (update_camp_beds (Camp.id camp) (Camp.beds camp + 1) d1) in
  ledger_agrees d2 /\ Forall (fun c => (0 <= Camp.beds c)%Z) (Db.camps d2).
Proof.
  intros W L N E Hr Ha Hcamp Hin d2. subst d2.
  apply update_cancel_selection_accepted in E. subst d1.
  pose proof (unique_count_key _ u active (wf_unique W)) as Hone.
  pose proof (active_rows_cancel ts u r _ Hone Hr Ha) as C.
  unfold update_camp_beds, ledger_agrees, active_count. tables.
  unfold ledger_agrees, active_count in L.
  rewrite Forall_forall in L, N.
  split; unfold set_beds; apply Forall_map; apply Forall_forall; intros c Hc.
  - specialize (C (Camp.id c)). rewrite Hcamp in C.
    destruct (Camp.id c =? Camp.id camp) eqn:X.
    + apply Nat.eqb_eq in X.
      assert (c = camp) by (apply (camp_key _ _ _ (wf_camp_ids W) Hc Hin X)). subst c.
      cbn [Camp.with_beds Camp.beds Camp.id Camp.original_beds].
      rewrite Nat.eqb_refl in C. specialize (L camp Hin). lia.
    + rewrite Nat.eqb_sym in X. rewrite X in C. specialize (L c Hc). lia.
  - destruct (Camp.id c =? Camp.id camp).
    + cbn [Camp.with_beds Camp.beds]. specialize (N camp Hin). lia.
    + apply N. exact Hc.
Qed.

Lemma cancel_idle ts u d d1 :
  (forall r, In r (Db.camp_selections d) -> is_active_of u r = false) ->
  update_cancel_selection ts u d = (inr tt, d1) -> d1 = d.
Proof.
  intros H E. apply update_cancel_selection_accepted in E. subst d1.
  rewrite cancel_rows_idle.
  - destruct d; reflexivity.
  - destruct (existsb (is_active_of u) (Db.camp_selections d)) eqn:X; [|reflexivity].
    apply existsb_exists in X. destruct X as [x [H1 H2]].
    rewrite (H x H1) in H2. discriminate.
Qed.

Lemma insert_camp_accepted cd u ty o d c d1 :
  insert_camp cd u ty o d = (inr c, d1) ->
  c = Camp.mk (Db.next_uuid d) (CampData.name cd) (CampData.beds cd) o
              (CampData.resources cd) (CampData.contact cd) (CampData.ambulance cd)
              (Some u) ty (Db.now d) /\
  d1 = Db.mk (Db.users d) (Db.camps d ++ [c]) (Db.camp_selections d)
             (Db.volunteer_assignments d) (S (Db.next_uuid d)) (Db.now d).
Proof.
  unfold insert_camp. destruct (negb _); [discriminate|].
  intros E; inversion E; subst. auto.
Qed.

(** No selection points at a key the store has not handed out. *)
Lemma selections_below d r :
  db_wf d -> In r (Db.camp_selections d) -> CampSelection.camp_id r < Db.next_uuid d.
Proof.
  intros W Hr. pose proof (wf_camp_fk W) as FK. pose proof (wf_camp_fresh W) as FR.
  rewrite Forall_forall in FK, FR. specialize (FK r Hr).
  apply has_camp_iff in FK. destruct FK as [c [Hc E]]. rewrite <- E. apply FR. exact Hc.
Qed.

(** [addCamp]: a camp starts full, with no selection on it. *)
Lemma ledger_add cd u ty d c d1 :
  db_wf d -> ledger_agrees d -> Forall (fun c => (0 <= Camp.beds c)%Z) (Db.camps d) ->
  (0 <= CampData.beds cd)%Z ->
  insert_camp cd u ty (CampData.beds cd) d = (inr c, d1) ->
  ledger_agrees d1 /\ Forall (fun c => (0 <= Camp.beds c)%Z) (Db.camps d1).
Proof.
  intros W L N Hb E. apply insert_camp_accepted in E. destruct E as [Hc Hd1]. subst d1.
  unfold ledger_agrees, active_count in *. tables.
  split; apply Forall_app; split; auto; constructor; try constructor.
  - subst c. cbn [Camp.beds Camp.id Camp.original_beds].
    rewrite active_rows_absent; [lia|].
    intros r Hr. pose proof (selections_below d r W Hr). lia.
  - subst c. cbn [Camp.beds]. exact Hb.
Qed.

(** [deleteCamp]: the selections of the camp go with it. *)
Lemma ledger_delete i d :
  ledger_agrees d -> Forall (fun c => (0 <= Camp.beds c)%Z) (Db.camps d) ->
  ledger_agrees (delete_camp i d) /\
  Forall (fun c => (0 <= Camp.beds c)%Z) (Db.camps (delete_camp i d)).
Proof.
  intros L N. unfold ledger_agrees, active_count, delete_camp in *. tables.
  rewrite Forall_forall in L, N.
  split; apply Forall_forall; intros c Hc; apply filter_In in Hc; destruct Hc as [Hc X].
  - rewrite active_rows_delete; [apply L; exact Hc|].
    apply Bool.negb_true_iff in X. apply Nat.eqb_neq in X. exact X.
  - apply N. exact Hc.
Qed.

Lemma insert_volunteer_assignment_tables v c d :
  let d1 := snd (insert_volunteer_assignment v c d) in
  Db.camps d1 = Db.camps d /\ Db.camp_selections d1 = Db.camp_selections d /\
  Db.next_uuid d <= Db.next_uuid d1.
Proof.
  unfold insert_volunteer_assignment. destruct (negb _); tables; auto.
Qed.

(** ** Soundness of the tables along the statements *)

Lemma sound_select d u camp row d1 :
  sound d -> In camp (Db.camps d) -> (0 < Camp.beds camp)%Z ->
  insert_camp_selection u (Camp.id camp) active d = (inr row, d1) ->
  sound (snd (update_camp_beds (Camp.id camp) (Camp.beds camp - 1) d1)).
Proof.
  intros [W L N] Hin Hb E.
  destruct (ledger_select d u camp row d1 W L N Hin Hb E) as [L' N'].
  constructor; auto.
  apply db_wf_update_beds.
  replace d1 with (snd (insert_camp_selection u (Camp.id camp) active d)) by (rewrite E; reflexivity).
  apply db_wf_insert_selection. exact W.
Qed.

Lemma sound_cancel ts u d d1 r camp :
  sound d -> update_cancel_selection ts u d = (inr tt, d1) ->
  In r (Db.camp_selections d) -> is_active_of u r = true ->
  CampSelection.camp_id r = Camp.id camp -> In camp (Db.camps d) ->
  sound (snd (update_camp_beds (Camp.id camp) (Camp.beds camp + 1) d1)).
Proof.
  intros [W L N] E Hr Ha Hc Hin.
  destruct (ledger_cancel ts u d d1 r camp W L N E Hr Ha Hc Hin) as [L' N'].
  constructor; auto.
  apply db_wf_update_beds.
  replace d1 with (snd (update_cancel_selection ts u d)) by (rewrite E; reflexivity).
  apply db_wf_cancel. exact W.
Qed.

Lemma sound_add cd u ty d c d1 :
  sound d -> (0 <= CampData.beds cd)%Z ->
  insert_camp cd u ty (CampData.beds cd) d = (inr c, d1) -> sound d1.
Proof.
  intros [W L N] Hb E.
  destruct (ledger_add cd u ty d c d1 W L N Hb E) as [L' N'].
  constructor; auto.
  replace d1 with (snd (insert_camp cd u ty (CampData.beds cd) d)) by (rewrite E; reflexivity).
  apply db_wf_insert_camp. exact W.
Qed.

Lemma sound_delete i d : sound d -> sound (delete_camp i d).
Proof.
  intros [W L N]. destruct (ledger_delete i d L N) as [L' N'].
  constructor; auto. apply db_wf_delete. exact W.
Qed.

Lemma sound_assignment v c d : sound d -> sound (snd (insert_volunteer_assignment v c d)).
Proof.
  intros [W L N]. constructor.
  - apply db_wf_insert_assignment. exact W.
  - destruct (insert_volunteer_assignment_tables v c d) as [E1 [E2 _]].
    unfold ledger_agrees, active_count in *. rewrite E1, E2. exact L.
  - destruct (insert_volunteer_assignment_tables v c d) as [E1 _]. rewrite E1. exact N.
Qed.

(** Bounds follow from a sound ledger. *)
Lemma sound_bounded d : sound d -> beds_bounded d.
Proof.
  intros [_ L N]. unfold beds_bounded, ledger_agrees in *.
  rewrite Forall_forall in *. intros c Hc. specialize (L c Hc). specialize (N c Hc). lia.
Qed.

(** ** How [selectCamp] turns a caller away *)

Lemma selectCamp_signed_out campId s :
  AuthManager.currentUser (authManager s) = None ->
  selectCamp campId s = (inr (failed "User must be logged in to select a camp"), s).
Proof. intros H. unfold selectCamp; js. rewrite H; js. reflexivity. Qed.

Lemma selectCamp_already campId s u sel :
  AuthManager.currentUser (authManager s) = Some u ->
  CampManager.userSelection (campManager s) = Some sel ->
  selectCamp campId s =
  (inr (failed "You already have a camp selected. Please cancel your current selection first."), s).
Proof. intros H1 H2. unfold selectCamp; js. rewrite H1; js. rewrite H2; js. reflexivity. Qed.

Lemma selectCamp_not_found campId s u :
  AuthManager.currentUser (authManager s) = Some u ->
  CampManager.userSelection (campManager s) = None ->
  find_camp campId (CampManager.camps (campManager s)) = None ->
  selectCamp campId s = (inr (failed "Camp not found"), s).
Proof.
  intros H1 H2 H3. unfold selectCamp; js. rewrite H1; js. rewrite H2; js. rewrite H3; js.
  reflexivity.
Qed.

Lemma selectCamp_full campId s u camp :
  AuthManager.currentUser (authManager s) = Some u ->
  CampManager.userSelection (campManager s) = None ->
  find_camp campId (CampManager.camps (campManager s)) = Some camp ->
  (Camp.beds camp <= 0)%Z ->
  selectCamp campId s = (inr (failed "This camp is full"), s).
Proof.
  intros H1 H2 H3 H4. unfold selectCamp; js. rewrite H1; js. rewrite H2; js. rewrite H3; js.
  apply Z.leb_le in H4. rewrite H4. reflexivity.
Qed.

Lemma addCamp_no_data s u :
  AuthManager.currentUser (authManager s) = Some u ->
  User.role u = "volunteer"%string ->
  addCamp None s =
  (inr (failed "Cannot read properties of undefined (reading 'beds')"), s).
Proof.
  intros H1 H2. unfold addCamp; js. rewrite H1; js. rewrite H2. reflexivity.
Qed.

Lemma addVolunteerAssignment_quiet s u campId :
  outcomes s = [] ->
  AuthManager.currentUser (authManager s) = Some u ->
  User.role u = "volunteer"%string ->
  addVolunteerAssignment campId s =
  match insert_volunteer_assignment (User.id u) campId (db s) with
  | (inl e, _) => (inr (failed (message e)), s)
  | (inr a, d1) =>
      (inr (resolved (Some a)), mkSys d1 (campManager s) (authManager s) [] (date s))
  end.
Proof.
  intros H Hu Hrole.
  unfold addVolunteerAssignment; js. rewrite Hu; js. rewrite Hrole.
  cbn [String.eqb Ascii.eqb Bool.eqb]; js.
  unfold dbHelpers.createVolunteerAssignment; js.
  rewrite (request_quiet _ _ H).
  destruct (insert_volunteer_assignment _ _ _) as [[e|a] d1] eqn:E; js.
  - apply insert_volunteer_assignment_refused in E. subst d1.
    rewrite (quiet_eta _ H). reflexivity.
  - reflexivity.
Qed.

Lemma not_volunteer_assign s campId :
  (forall u, AuthManager.currentUser (authManager s) = Some u ->
             User.role u <> "volunteer"%string) ->
  addVolunteerAssignment campId s =
  (inr (failed "Only volunteers can be assigned to camps"), s).
Proof.
  intros H. unfold addVolunteerAssignment; js.
  destruct (AuthManager.currentUser (authManager s)) as [u|]; js; [|reflexivity].
  destruct (String.eqb (User.role u) "volunteer") eqn:E; js; [|reflexivity].
  apply String.eqb_eq in E. destruct (H u eq_refl E).
Qed.

Lemma getVolunteerHistory_quiet s :
  outcomes s = [] ->
  exists l, getVolunteerHistory s = (inr (resolved l), s).
Proof.
  intros H. unfold getVolunteerHistory; js.
  destruct (AuthManager.currentUser (authManager s)) as [u|]; js; [|eauto].
  destruct (String.eqb (User.role u) "volunteer"); js; [|eauto].
  unfold dbHelpers.getVolunteerAssignments; js.
  rewrite (request_quiet _ _ H); js. rewrite (quiet_eta _ H). eauto.
Qed.

(** The role test of the three volunteer methods, as a case split. *)
Lemma volunteer_or_not s :
  (exists u, AuthManager.currentUser (authManager s) = Some u /\
             User.role u = "volunteer"%string) \/
  (forall u, AuthManager.currentUser (authManager s) = Some u ->
             User.role u <> "volunteer"%string).
Proof.
  destruct (AuthManager.currentUser (authManager s)) as [u|].
  - destruct (String.eqb (User.role u) "volunteer") eqn:E.
    + left. exists u. split; [reflexivity|]. apply String.eqb_eq. exact E.
    + right. intros u' H. inversion H; subst. apply String.eqb_neq. exact E.
  - right. intros u H. discriminate.
Qed.

(** ** The manager's copies after a reload *)

Lemma single_inr {A} (l : list A) (x : A) : single l = inr x -> l = [x].
Proof. destruct l as [|a [|b t]]; cbn; intros E; inversion E; reflexivity. Qed.

Lemma loaded_selection_some u d sel :
  loaded_selection (Some u) d = Some sel ->
  filter (is_active_of (User.id u)) (Db.camp_selections d) = [sel].
Proof.
  unfold loaded_selection, select_active_selection.
  destruct (single _) eqn:E; [discriminate|].
  intros H; inversion H; subst. apply single_inr. exact E.
Qed.

Lemma selection_current_loaded (am : AuthManager.t) camps d o t :
  db_wf d ->
  selection_current
    (mkSys d (CampManager.mk camps (loaded_selection (AuthManager.currentUser am) d)) am o t).
Proof.
  intros W u sel Hu Hsel. cbn [authManager campManager db CampManager.userSelection] in *.
  rewrite Hu in Hsel. apply loaded_selection_some in Hsel.
  assert (Hin : In sel (filter (is_active_of (User.id u)) (Db.camp_selections d)))
    by (rewrite Hsel; left; reflexivity).
  apply filter_In in Hin. destruct Hin as [Hin Ha].
  repeat split.
  - apply selections_below; assumption.
  - intros r Hr Hra.
    assert (X : In r (filter (is_active_of (User.id u)) (Db.camp_selections d)))
      by (apply filter_In; auto).
    rewrite Hsel in X. destruct X as [<-|[]]. reflexivity.
  - intros _. exists sel. auto.
Qed.

Lemma consistent_reloaded s d : sound d -> consistent (reloaded s d).
Proof.
  intros S. constructor; cbn [reloaded outcomes campManager db CampManager.camps]; auto.
  apply selection_current_loaded. exact (tables_wf S).
Qed.

Lemma selection_current_transfer s s' :
  authManager s' = authManager s ->
  CampManager.userSelection (campManager s') = CampManager.userSelection (campManager s) ->
  Db.camp_selections (db s') = Db.camp_selections (db s) ->
  Db.next_uuid (db s) <= Db.next_uuid (db s') ->
  (forall i, has_camp (db s') i = has_camp (db s) i) ->
  selection_current s -> selection_current s'.
Proof.
  intros Ha Hs Ht Hn Hc C u sel Hu Hsel.
  rewrite Ha in Hu. rewrite Hs in Hsel. destruct (C u sel Hu Hsel) as [C1 [C2 C3]].
  rewrite Ht, Hc. repeat split; auto. lia.
Qed.

Lemma selection_current_add s cd u ty o c d1 :
  db_wf (db s) -> selection_current s ->
  insert_camp cd u ty o (db s) = (inr c, d1) ->
  selection_current (camps_reloaded s d1).
Proof.
  intros W C E v sel Hv Hsel. cbn [camps_reloaded authManager campManager db
                                   CampManager.userSelection] in *.
  destruct (C v sel Hv Hsel) as [C1 [C2 C3]].
  apply insert_camp_accepted in E. destruct E as [Hc Hd1]. subst d1. tables.
  repeat split; auto.
  intros H. apply C3. apply has_camp_iff in H. destruct H as [c' [H1 H2]]. tables.
  apply in_app_or in H1. destruct H1 as [H1|[H1|[]]].
  - apply has_camp_iff. eauto.
  - subst c' c. cbn [Camp.id] in H2. lia.
Qed.

Lemma selection_current_delete s i :
  selection_current s -> selection_current (camps_reloaded s (delete_camp i (db s))).
Proof.
  intros C v sel Hv Hsel. cbn [camps_reloaded authManager campManager db
                               CampManager.userSelection] in *.
  destruct (C v sel Hv Hsel) as [C1 [C2 C3]].
  unfold delete_camp. tables. repeat split; auto.
  - intros r Hr. apply filter_In in Hr. apply C2. tauto.
  - intros H. apply has_camp_iff in H. destruct H as [c [H1 H2]]. tables.
    apply filter_In in H1. destruct H1 as [H1 H3].
    destruct C3 as [r [Hr Ha]]; [apply has_camp_iff; eauto|].
    exists r. split; [|exact Ha]. apply filter_In. split; [exact Hr|].
    rewrite (C2 r Hr Ha), <- H2. exact H3.
Qed.

(** ** One call of a session keeps the system consistent *)

Ltac unchanged := cbn [settle fst snd succeeded]; split; [assumption | reflexivity].

Lemma selectCamp_consistent campId s :
  consistent s ->
  consistent (snd (call (SelectCamp campId) s)) /\
  (succeeded (fst (call (SelectCamp campId) s)) = false ->
   snd (call (SelectCamp campId) s) = s).
Proof.
  intros C. pose proof C as [Q CC SC SD]. unfold call.
  destruct (AuthManager.currentUser (authManager s)) as [u|] eqn:Hu.
  2:{ rewrite (selectCamp_signed_out _ _ Hu). unchanged. }
  destruct (CampManager.userSelection (campManager s)) as [sel|] eqn:Hsel.
  1:{ rewrite (selectCamp_already _ _ _ _ Hu Hsel). unchanged. }
  destruct (find_camp campId (CampManager.camps (campManager s))) as [camp|] eqn:Hf.
  2:{ rewrite (selectCamp_not_found _ _ _ Hu Hsel Hf). unchanged. }
  destruct (Z.leb_spec (Camp.beds camp) 0) as [Hb|Hb].
  1:{ rewrite (selectCamp_full _ _ _ _ Hu Hsel Hf Hb). unchanged. }
  rewrite (selectCamp_quiet _ _ _ _ Q Hu Hsel Hf Hb).
  rewrite CC in Hf. apply cached_camp in Hf. destruct Hf as [Hin Hid]. subst campId.
  destruct (insert_camp_selection _ _ _ _) as [[e|row] d1] eqn:E.
  - unchanged.
  - cbn [settle fst snd succeeded resolved success]. split; [|discriminate].
    apply consistent_reloaded. eapply sound_select; eauto.
Qed.

Lemma cancelSelection_consistent s :
  consistent s ->
  consistent (snd (call CancelSelection s)) /\
  (succeeded (fst (call CancelSelection s)) = false ->
   snd (call CancelSelection s) = s).
Proof.
  intros C. pose proof C as [Q CC SC SD]. unfold call.
  destruct (AuthManager.currentUser (authManager s)) as [u|] eqn:Hu.
  2:{ rewrite (cancelSelection_none s (or_introl Hu)). unchanged. }
  destruct (CampManager.userSelection (campManager s)) as [sel|] eqn:Hsel.
  2:{ rewrite (cancelSelection_none s (or_intror Hsel)). unchanged. }
  rewrite (cancelSelection_quiet _ _ _ Q Hu Hsel).
  destruct (update_cancel_selection _ _ _) as [[e|[]] d1] eqn:E.
  - unchanged.
  - cbn [settle fst snd succeeded resolved success]. split; [|discriminate].
    apply consistent_reloaded.
    destruct (SC u sel Hu Hsel) as [C1 [C2 C3]].
    rewrite CC.
    destruct (find_camp _ (select_camps (db s))) as [camp|] eqn:Hf.
    + apply cached_camp in Hf. destruct Hf as [Hin Hid].
      destruct C3 as [r [Hr Ha]]; [apply has_camp_iff; eauto|].
      rewrite <- Hid. eapply sound_cancel; eauto.
      rewrite Hid. apply C2; assumption.
    + apply cached_camp_none in Hf.
      assert (Idle : forall r, In r (Db.camp_selections (db s)) ->
                               is_active_of (User.id u) r = false).
      { intros r Hr. destruct (is_active_of (User.id u) r) eqn:Ha; [|reflexivity].
        exfalso. pose proof (wf_camp_fk (tables_wf SD)) as FK.
        rewrite Forall_forall in FK. specialize (FK r Hr).
        rewrite (C2 r Hr Ha), Hf in FK. discriminate. }
      rewrite (cancel_idle _ _ _ _ Idle E). exact SD.
Qed.

Lemma addCamp_consistent campData s :
  consistent s -> session_call (AddCamp campData) ->
  consistent (snd (call (AddCamp campData) s)) /\
  (succeeded (fst (call (AddCamp campData) s)) = false ->
   snd (call (AddCamp campData) s) = s).
Proof.
  intros C Hd. pose proof C as [Q CC SC SD]. unfold call.
  destruct (volunteer_or_not s) as [[u [Hu Hrole]]|Hno].
  2:{ rewrite (not_volunteer_add _ _ Hno). unchanged. }
  destruct campData as [cd|].
  2:{ rewrite (addCamp_no_data _ _ Hu Hrole). unchanged. }
  rewrite (addCamp_quiet _ _ _ Q Hu Hrole).
  destruct (insert_camp _ _ _ _ _) as [[e|c] d1] eqn:E.
  - unchanged.
  - cbn [settle fst snd succeeded resolved success]. split; [|discriminate].
    constructor; cbn [camps_reloaded outcomes campManager db CampManager.camps]; auto.
    + eapply selection_current_add; eauto. exact (tables_wf SD).
    + eapply sound_add; eauto.
Qed.

Lemma deleteCamp_consistent campId s :
  consistent s ->
  consistent (snd (call (DeleteCamp campId) s)) /\
  (succeeded (fst (call (DeleteCamp campId) s)) = false ->
   snd (call (DeleteCamp campId) s) = s).
Proof.
  intros C. pose proof C as [Q CC SC SD]. unfold call.
  destruct (volunteer_or_not s) as [[u [Hu Hrole]]|Hno].
  2:{ rewrite (not_volunteer_delete _ _ Hno). unchanged. }
  rewrite (deleteCamp_quiet _ _ _ Q Hu Hrole).
  cbn [settle fst snd succeeded resolved success]. split; [|discriminate].
  constructor; cbn [camps_reloaded outcomes campManager db CampManager.camps]; auto.
  - apply selection_current_delete. exact SC.
  - apply sound_delete. exact SD.
Qed.

Lemma loadCamps_consistent s :
  consistent s ->
  consistent (snd (call LoadCamps s)) /\
  (succeeded (fst (call LoadCamps s)) = false -> snd (call LoadCamps s) = s).
Proof.
  intros C. pose proof C as [Q CC SC SD]. unfold call.
  rewrite (loadCamps_quiet _ Q).
  cbn [settle fst snd succeeded resolved success]. split; [|discriminate].
  constructor; cbn [camps_reloaded outcomes campManager db CampManager.camps]; auto.
Qed.

Lemma loadUserSelection_consistent s :
  consistent s ->
  consistent (snd (call LoadUserSelection s)) /\
  (succeeded (fst (call LoadUserSelection s)) = false ->
   snd (call LoadUserSelection s) = s).
Proof.
  intros C. pose proof C as [Q CC SC SD]. unfold call.
  rewrite (loadUserSelection_quiet _ Q).
  cbn [settle fst snd succeeded resolved success]. split; [|discriminate].
  constructor; cbn [outcomes campManager db CampManager.camps]; auto.
  apply selection_current_loaded. exact (tables_wf SD).
Qed.

Lemma addVolunteerAssignment_consistent campId s :
  consistent s ->
  consistent (snd (call (AddVolunteerAssignment campId) s)) /\
  (succeeded (fst (call (AddVolunteerAssignment campId) s)) = false ->
   snd (call (AddVolunteerAssignment campId) s) = s).
Proof.
  intros C. pose proof C as [Q CC SC SD]. unfold call.
  destruct (volunteer_or_not s) as [[u [Hu Hrole]]|Hno].
  2:{ rewrite (not_volunteer_assign _ _ Hno). unchanged. }
  rewrite (addVolunteerAssignment_quiet _ _ _ Q Hu Hrole).
  pose proof (insert_volunteer_assignment_tables (User.id u) campId (db s)) as T.
  pose proof (sound_assignment (User.id u) campId (db s) SD) as S'.
  destruct (insert_volunteer_assignment _ _ _) as [[e|a] d1] eqn:E.
  - unchanged.
  - cbn [settle fst snd succeeded resolved success] in *. split; [|discriminate].
    destruct T as [T1 [T2 T3]].
    constructor; cbn [outcomes campManager db CampManager.camps]; auto.
    + rewrite CC. unfold select_camps. rewrite T1. reflexivity.
    + eapply selection_current_transfer; [ | | | | | exact SC]; auto.
      intros i. apply has_camp_ids. cbn [db]. rewrite T1. reflexivity.
Qed.

Lemma getVolunteerHistory_consistent s :
  consistent s ->
  consistent (snd (call GetVolunteerHistory s)) /\
  (succeeded (fst (call GetVolunteerHistory s)) = false ->
   snd (call GetVolunteerHistory s) = s).
Proof.
  intros C. unfold call.
  destruct (getVolunteerHistory_quiet s (answers C)) as [l E]. rewrite E.
  cbn [settle fst snd succeeded resolved success]. split; [exact C|discriminate].
Qed.

(** A call of a session keeps the system consistent, and a call that
    fails leaves it as it was. *)
Lemma call_consistent c s :
  consistent s -> session_call c ->
  consistent (snd (call c s)) /\
  (succeeded (fst (call c s)) = false -> snd (call c s) = s).
Proof.
  intros C H. destruct c; try (destruct H; fail).
  - apply loadCamps_consistent; assumption.
  - apply loadUserSelection_consistent; assumption.
  - apply selectCamp_consistent; assumption.
  - apply cancelSelection_consistent; assumption.
  - apply addCamp_consistent; assumption.
  - apply deleteCamp_consistent; assumption.
  - apply addVolunteerAssignment_consistent; assumption.
  - apply getVolunteerHistory_consistent; assumption.
Qed.

Lemma calls_consistent l s :
  consistent s -> Forall session_call l -> consistent (calls l s).
Proof.
  revert s. induction l as [|c l IH]; intros s C H; cbn [calls fold_left]; [exact C|].
  inversion H; subst. apply IH; [|assumption].
  apply call_consistent; assumption.
Qed.

(** ** The two steps of a round trip *)

Lemma length_zero_nil {A} (l : list A) : List.length l = 0 -> l = [].
Proof. destruct l; [reflexivity|discriminate]. Qed.

Lemma count_key_zero u st tbl r :
  count_key u st tbl = 0 -> In r tbl ->
  (CampSelection.user_id r =? u) && Status_eqb (CampSelection.status r) st = false.
Proof.
  intros Z Hr. apply length_zero_nil in Z.
  destruct (_ && _) eqn:E; [|reflexivity].
  assert (X : In r (filter (fun r => (CampSelection.user_id r =? u) &&
                                     Status_eqb (CampSelection.status r) st) tbl))
    by (apply filter_In; auto).
  rewrite Z in X. destruct X.
Qed.

Lemma count_key_one u st r :
  count_key u st [r] =
  if (CampSelection.user_id r =? u) && Status_eqb (CampSelection.status r) st then 1 else 0.
Proof. unfold count_key. cbn [filter]. destruct (_ && _); reflexivity. Qed.

(** A row whose pair is new keeps [(user_id, status)] unique. *)
Lemma unique_snoc tbl r :
  unique_user_status tbl = true ->
  count_key (CampSelection.user_id r) (CampSelection.status r) tbl = 0 ->
  unique_user_status (tbl ++ [r]) = true.
Proof.
  intros U Z. apply count_key_unique. intros v st.
  rewrite count_key_app, count_key_one.
  destruct (_ && _) eqn:E.
  - apply andb_prop in E. destruct E as [E1 E2].
    apply Nat.eqb_eq in E1. apply status_eqb_eq in E2. subst v st. lia.
  - pose proof (unique_count_key tbl v st U). lia.
Qed.

Lemma trigger_idle tbl NEW :
  count_key (CampSelection.user_id NEW) active tbl = 0 ->
  check_single_active_selection tbl NEW = false.
Proof.
  intros Z. unfold check_single_active_selection.
  apply andb_false_intro2.
  destruct (existsb _ tbl) eqn:E; [|reflexivity].
  apply existsb_exists in E. destruct E as [r [Hr H]].
  apply andb_prop in H. destruct H as [H _].
  pose proof (count_key_zero _ _ _ r Z Hr) as X.
  unfold is_active_of in H. rewrite H in X. discriminate.
Qed.

Lemma insert_camp_selection_ok u c d :
  db_wf d -> has_user d u = true -> has_camp d c = true ->
  count_key u active (Db.camp_selections d) = 0 ->
  let row := CampSelection.mk (Db.next_uuid d) u c active (Db.now d) None in
  insert_camp_selection u c active d =
  (inr row,
   Db.mk (Db.users d) (Db.camps d) (Db.camp_selections d ++ [row])
         (Db.volunteer_assignments d) (S (Db.next_uuid d)) (Db.now d)).
Proof.
  intros W Hu Hc Z row. unfold insert_camp_selection. fold row.
  rewrite trigger_idle by exact Z.
  rewrite Hu, Hc. cbn [andb negb].
  rewrite unique_snoc; [reflexivity | exact (wf_unique W) | exact Z].
Qed.

Lemma find_camp_set_beds l camp b :
  NoDup (map Camp.id l) -> In camp l ->
  find_camp (Camp.id camp) (set_beds (Camp.id camp) b l) = Some (Camp.with_beds camp b).
Proof.
  intros N Hin. induction l as [|x l IH]; [destruct Hin|].
  unfold find_camp, set_beds. cbn [map find].
  destruct (Camp.id x =? Camp.id camp) eqn:E.
  - cbn [Camp.with_beds Camp.id]. rewrite E.
    apply Nat.eqb_eq in E.
    rewrite (camp_key (x :: l) x camp N (or_introl eq_refl) Hin E). reflexivity.
  - rewrite E. destruct Hin as [->|Hin]; [rewrite Nat.eqb_refl in E; discriminate|].
    inversion N; subst. apply IH; assumption.
Qed.

Lemma camp_beds_set_beds d d' camp b :
  db_wf d -> In camp (Db.camps d) ->
  Db.camps d' = set_beds (Camp.id camp) b (Db.camps d) ->
  camp_beds d' (Camp.id camp) = Some b.
Proof.
  intros W Hin E. unfold camp_beds. rewrite E.
  rewrite find_camp_set_beds; [reflexivity | exact (wf_camp_ids W) | exact Hin].
Qed.

Lemma In_set_beds l camp b :
  In camp l -> In (Camp.with_beds camp b) (set_beds (Camp.id camp) b l).
Proof.
  intros Hin. unfold set_beds. apply in_map_iff. exists camp.
  rewrite Nat.eqb_refl. auto.
Qed.

Lemma filter_active_nil u tbl :
  count_key u active tbl = 0 -> filter (is_active_of u) tbl = [].
Proof. intros Z. apply length_zero_nil. exact Z. Qed.

(** [selectCamp] on a free bed, by a user who holds nothing. *)
Lemma selectCamp_run s u camp :
  outcomes s = [] -> db_wf (db s) ->
  CampManager.camps (campManager s) = select_camps (db s) ->
  AuthManager.currentUser (authManager s) = Some u ->
  has_user (db s) (User.id u) = true ->
  CampManager.userSelection (campManager s) = None ->
  count_key (User.id u) active (Db.camp_selections (db s)) = 0 ->
  In camp (Db.camps (db s)) -> (0 < Camp.beds camp)%Z ->
  let row := CampSelection.mk (Db.next_uuid (db s)) (User.id u) (Camp.id camp) active
                              (Db.now (db s)) None in
  let d2 := Db.mk (Db.users (db s))
                  (set_beds (Camp.id camp) (Camp.beds camp - 1) (Db.camps (db s)))
                  (Db.camp_selections (db s) ++ [row])
                  (Db.volunteer_assignments (db s)) (S (Db.next_uuid (db s)))
                  (Db.now (db s)) in
  selectCamp (Camp.id camp) s =
  (inr (resolved (Some row, Some (Camp.with_beds camp (Camp.beds camp - 1)))),
   mkSys d2 (CampManager.mk (select_camps d2) (Some row)) (authManager s) [] (date s)).
Proof.
  intros Q W CC Hu HU Hsel Z Hin Hb row d2.
  assert (Hf : find_camp (Camp.id camp) (CampManager.camps (campManager s)) = Some camp).
  { rewrite CC. apply cached_camp_found; auto. exact (wf_camp_ids W). }
  assert (Hc : has_camp (db s) (Camp.id camp) = true) by (apply has_camp_iff; eauto).
  rewrite (selectCamp_quiet _ _ _ _ Q Hu Hsel Hf Hb).
  rewrite (insert_camp_selection_ok _ _ _ W HU Hc Z). fold row.
  unfold update_camp_beds. tables. cbv zeta. tables.
  unfold Db.with_camps. tables. fold d2.
  assert (Hd : hd_error (filter (fun c => Camp.id c =? Camp.id camp)
                           (set_beds (Camp.id camp) (Camp.beds camp - 1) (Db.camps (db s))))
               = Some (Camp.with_beds camp (Camp.beds camp - 1))).
  { pose proof (find_camp_set_beds _ camp (Camp.beds camp - 1) (wf_camp_ids W) Hin) as F.
    unfold find_camp in F. revert F.
    generalize (set_beds (Camp.id camp) (Camp.beds camp - 1) (Db.camps (db s))).
    induction l as [|x l IH]; cbn [find filter hd_error]; [discriminate|].
    destruct (Camp.id x =? Camp.id camp); cbn [hd_error]; auto. }
  rewrite Hd. unfold reloaded. rewrite Hu. f_equal. f_equal. f_equal.
  unfold loaded_selection, select_active_selection. subst d2. tables.
  rewrite filter_app, (filter_active_nil _ _ Z). cbn [filter app].
  unfold is_active_of. subst row. cbn [CampSelection.user_id CampSelection.status Status_eqb].
  rewrite Nat.eqb_refl. reflexivity.
Qed.

Lemma count_active_cancelled ts u tbl :
  count_key u active (cancel_rows ts u tbl) = 0.
Proof.
  unfold count_key, cancel_rows.
  induction tbl as [|r tbl IH]; cbn [map filter List.length]; [reflexivity|].
  destruct (is_active_of u r) eqn:Hu.
  - cbn [CampSelection.cancel CampSelection.status CampSelection.user_id Status_eqb].
    rewrite Bool.andb_false_r. exact IH.
  - unfold is_active_of in Hu. rewrite Hu. exact IH.
Qed.

Lemma count_cancelled_cancel_rows ts u v tbl :
  count_key v cancelled (cancel_rows ts u tbl) =
  count_key v cancelled tbl + (if v =? u then count_key u active tbl else 0).
Proof.
  unfold count_key, cancel_rows.
  induction tbl as [|r tbl IH]; cbn [map filter List.length].
  - destruct (v =? u); reflexivity.
  - destruct (is_active_of u r) eqn:Hu.
    + pose proof Hu as Hu'. apply is_active_of_iff in Hu'. destruct Hu' as [E1 E2].
      unfold is_active_of in Hu. rewrite Hu.
      cbn [CampSelection.cancel CampSelection.status CampSelection.user_id Status_eqb].
      rewrite E2, E1. cbn [Status_eqb]. rewrite Bool.andb_false_r, Bool.andb_true_r.
      rewrite (Nat.eqb_sym u v).
      destruct (v =? u); cbn [List.length]; rewrite IH; lia.
    + unfold is_active_of in Hu. rewrite Hu.
      destruct ((CampSelection.user_id r =? v) && Status_eqb (CampSelection.status r) cancelled);
        cbn [List.length]; rewrite IH; lia.
Qed.

Lemma unique_cancel ts u tbl :
  unique_user_status tbl = true -> count_key u cancelled tbl = 0 ->
  unique_user_status (cancel_rows ts u tbl) = true.
Proof.
  intros U Z. apply count_key_unique. intros v [|].
  - etransitivity; [apply count_key_cancel_rows | apply unique_count_key; exact U].
  - rewrite count_cancelled_cancel_rows.
    destruct (v =? u) eqn:E.
    + apply Nat.eqb_eq in E. subst v. rewrite Z.
      pose proof (unique_count_key tbl u active U). lia.
    + pose proof (unique_count_key tbl v cancelled U). lia.
Qed.

(** [cancelSelection] by a user whose one active row the manager holds. *)
Lemma cancelSelection_run s u sel camp :
  outcomes s = [] -> db_wf (db s) ->
  CampManager.camps (campManager s) = select_camps (db s) ->
  AuthManager.currentUser (authManager s) = Some u ->
  CampManager.userSelection (campManager s) = Some sel ->
  filter (is_active_of (User.id u)) (Db.camp_selections (db s)) = [sel] ->
  count_key (User.id u) cancelled (Db.camp_selections (db s)) = 0 ->
  In camp (Db.camps (db s)) -> Camp.id camp = CampSelection.camp_id sel ->
  let d2 := Db.mk (Db.users (db s))
                  (set_beds (Camp.id camp) (Camp.beds camp + 1) (Db.camps (db s)))
                  (cancel_rows (date s) (User.id u) (Db.camp_selections (db s)))
                  (Db.volunteer_assignments (db s)) (Db.next_uuid (db s))
                  (Db.now (db s)) in
  cancelSelection s =
  (inr (resolved tt),
   mkSys d2 (CampManager.mk (select_camps d2) None) (authManager s) [] (date s)).
Proof.
  intros Q W CC Hu Hsel Hact Z Hin Hid d2.
  assert (Hf : find_camp (CampSelection.camp_id sel) (CampManager.camps (campManager s))
               = Some camp).
  { rewrite CC, <- Hid. apply cached_camp_found; auto. exact (wf_camp_ids W). }
  rewrite (cancelSelection_quiet _ _ _ Q Hu Hsel). rewrite Hf.
  unfold update_cancel_selection.
  rewrite (unique_cancel _ _ _ (wf_unique W) Z). rewrite Bool.andb_false_r.
  unfold update_camp_beds, Db.with_camp_selections, Db.with_camps. tables.
  rewrite <- Hid. fold d2.
  unfold reloaded. rewrite Hu. f_equal. f_equal. f_equal.
  unfold loaded_selection, select_active_selection. subst d2. tables.
  rewrite (filter_active_nil _ _ (count_active_cancelled _ _ _)). reflexivity.
Qed.

(** ** Statements that leave [camp_selections] alone *)

Lemma single_active_same d d' :
  Db.camp_selections d' = Db.camp_selections d -> single_active d -> single_active d'.
Proof. intros E H u. rewrite E. apply H. Qed.

Lemma single_active_insert_camp cd u ty o d :
  single_active d -> single_active (snd (insert_camp cd u ty o d)).
Proof.
  apply single_active_same. unfold insert_camp. destruct (negb _); reflexivity.
Qed.

Lemma single_active_update_beds i b d :
  single_active d -> single_active (snd (update_camp_beds i b d)).
Proof. apply single_active_same. reflexivity. Qed.

Lemma single_active_insert_assignment v c d :
  single_active d -> single_active (snd (insert_volunteer_assignment v c d)).
Proof.
  apply single_active_same. unfold insert_volunteer_assignment. destruct (negb _); reflexivity.
Qed.

(** ** [deleteCamp] and the query that follows *)

Lemma loadUserSelection_answered t user :
  refused t = None ->
  AuthManager.currentUser (authManager t) = Some user ->
  snd (loadUserSelection t) =
  mkSys (db t)
        (CampManager.mk (CampManager.camps (campManager t))
                        (loaded_selection (Some user) (db t)))
        (authManager t) (tl (outcomes t)) (date t).
Proof.
  intros R Hu. unfold loadUserSelection, dbHelpers.getUserCampSelection; js.
  rewrite Hu; js. rewrite (request_answered _ _ R); js.
  unfold loaded_selection, select_active_selection, single.
  destruct (filter _ _) as [|r [|r' l]]; reflexivity.
Qed.

Lemma deleteCamp_answered campId s u :
  AuthManager.currentUser (authManager s) = Some u ->
  User.role u = "volunteer"%string ->
  refused s = None ->
  fst (deleteCamp campId s) = inr (resolved tt) /\
  db (snd (deleteCamp campId s)) = delete_camp campId (db s).
Proof.
  intros Hu Hrole R. unfold deleteCamp; js. rewrite Hu; js. rewrite Hrole.
  cbn [String.eqb Ascii.eqb Bool.eqb]; js.
  unfold dbHelpers.deleteCamp; js. rewrite (request_answered _ _ R); js.
  match goal with |- context [loadCamps ?x] =>
    pose proof (loadCamps_db x) as Hdb; destruct (loadCamps_returns x) as [rr Hrr];
    destruct (loadCamps x) as [q sx] end.
  cbn [fst snd] in Hdb, Hrr. subst q. js. split; [reflexivity | exact Hdb].
Qed.

Lemma deleteCamp_refused campId s u e :
  AuthManager.currentUser (authManager s) = Some u ->
  User.role u = "volunteer"%string ->
  refused s = Some e ->
  deleteCamp campId s = (inr (failed (message e)), consumed s (db s)).
Proof.
  intros Hu Hrole R. unfold deleteCamp; js. rewrite Hu; js. rewrite Hrole.
  cbn [String.eqb Ascii.eqb Bool.eqb]; js.
  unfold dbHelpers.deleteCamp; js. rewrite (request_refused _ _ _ R); js. reflexivity.
Qed.

(** After the cascade, a user whose one active row pointed at the camp
    has none. *)
Lemma cascade_leaves_none campId d v row :
  single_active d -> In row (Db.camp_selections d) ->
  is_active_of v row = true -> CampSelection.camp_id row = campId ->
  select_active_selection v (delete_camp campId d) = inl PGRST116.
Proof.
  intros S Hin Ha Hc. unfold select_active_selection, delete_camp. tables.
  rewrite filter_none; [reflexivity|].
  intros x Hx. apply filter_In in Hx. destruct Hx as [Hx Hne].
  destruct (is_active_of v x) eqn:E; [|reflexivity].
  pose proof (filter_le_one (is_active_of v) _ row (S v) Hin Ha) as F.
  assert (X : In x (filter (is_active_of v) (Db.camp_selections d)))
    by (apply filter_In; auto).
  rewrite F in X. destruct X as [<-|[]].
  rewrite Hc, Nat.eqb_refl in Hne. discriminate.
Qed.

(** ** A consistent deployment *)

Lemma seeded_sound : sound seeded.
Proof.
  constructor.
  - constructor; cbn.
    + repeat constructor; cbn; intuition discriminate.
    + repeat constructor.
    + constructor.
    + reflexivity.
  - repeat constructor.
  - repeat constructor; cbn; lia.
Qed.

Lemma client_consistent user : consistent (client user []).
Proof.
  constructor; cbn [client outcomes campManager db CampManager.camps]; auto.
  - intros u sel _ H. discriminate H.
  - exact seeded_sound.
Qed.

(** ** The tables after the two steps *)

Lemma selectCamp_run_wf d u camp :
  db_wf d -> has_user d u = true -> In camp (Db.camps d) ->
  count_key u active (Db.camp_selections d) = 0 ->
  forall b,
  db_wf (Db.mk (Db.users d) (set_beds (Camp.id camp) b (Db.camps d))
               (Db.camp_selections d ++
                [CampSelection.mk (Db.next_uuid d) u (Camp.id camp) active (Db.now d) None])
               (Db.volunteer_assignments d) (S (Db.next_uuid d)) (Db.now d)).
Proof.
  intros W HU Hin Z b.
  assert (Hc : has_camp d (Camp.id camp) = true) by (apply has_camp_iff; eauto).
  pose proof (db_wf_update_beds (Camp.id camp) b _
                (db_wf_insert_selection u (Camp.id camp) active d W)) as X.
  rewrite (insert_camp_selection_ok u (Camp.id camp) d W HU Hc Z) in X. exact X.
Qed.

Lemma cancelSelection_run_wf ts d u i b :
  db_wf d -> count_key u cancelled (Db.camp_selections d) = 0 ->
  db_wf (Db.mk (Db.users d) (set_beds i b (Db.camps d))
               (cancel_rows ts u (Db.camp_selections d))
               (Db.volunteer_assignments d) (Db.next_uuid d) (Db.now d)).
Proof.
  intros W Z.
  pose proof (db_wf_update_beds i b _ (db_wf_cancel ts u d W)) as X.
  unfold update_cancel_selection in X.
  rewrite (unique_cancel ts u _ (wf_unique W) Z), Bool.andb_false_r in X. exact X.
Qed.

(** ** What the store refuses of [selectCamp] *)

Lemma insert_refused_when_active u c d :
  existsb (is_active_of u) (Db.camp_selections d) = true ->
  exists e, insert_camp_selection u c active d = (inl e, d).
Proof.
  intros H. unfold insert_camp_selection.
  destruct (check_single_active_selection _ _); [eauto|].
  destruct (negb (has_user d u && has_camp d c)); [eauto|].
  destruct (unique_user_status _) eqn:U; cbn [negb]; [|eauto].
  exfalso. pose proof (unique_count_key _ u active U) as C.
  rewrite count_key_app, count_key_one in C.
  cbn [CampSelection.user_id CampSelection.status Status_eqb] in C.
  rewrite Nat.eqb_refl in C. cbn [andb] in C.
  apply existsb_exists in H. destruct H as [r [Hr Ha]].
  assert (X : In r (filter (is_active_of u) (Db.camp_selections d)))
    by (apply filter_In; auto).
  rewrite count_key_active in C.
  destruct (filter (is_active_of u) (Db.camp_selections d)); [destruct X|].
  cbn [List.length] in C. lia.
Qed.

Lemma insert_refused_no_camp u c st d :
  has_camp d c = false ->
  exists e, insert_camp_selection u c st d = (inl e, d).
Proof.
  intros H. unfold insert_camp_selection.
  destruct (check_single_active_selection _ _); [eauto|].
  rewrite H, Bool.andb_false_r. cbn [negb]. eauto.
Qed.

(** When the store would refuse the row, [selectCamp] fails, whatever the
    manager's copies say and whatever the service does, and the tables are
    as they were. *)
Lemma selectCamp_writes_nothing campId s u :
  AuthManager.currentUser (authManager s) = Some u ->
  (exists e, insert_camp_selection (User.id u) campId active (db s) = (inl e, db s)) ->
  succeeded (fst (call (SelectCamp campId) s)) = false /\
  db (snd (call (SelectCamp campId) s)) = db s.
Proof.
  intros Hu [e E]. unfold call.
  destruct (CampManager.userSelection (campManager s)) as [sel|] eqn:Hsel.
  1:{ rewrite (selectCamp_already campId s u sel Hu Hsel). split; reflexivity. }
  destruct (find_camp campId (CampManager.camps (campManager s))) as [camp|] eqn:Hf.
  2:{ rewrite (selectCamp_not_found campId s u Hu Hsel Hf). split; reflexivity. }
  destruct (Z.leb_spec (Camp.beds camp) 0) as [Hb|Hb].
  1:{ rewrite (selectCamp_full campId s u camp Hu Hsel Hf Hb). split; reflexivity. }
  unfold selectCamp; js. rewrite Hu; js. rewrite Hsel; js. rewrite Hf; js.
  assert (Hb' : (Camp.beds camp <=? 0)%Z = false) by (apply Z.leb_gt; exact Hb).
  rewrite Hb'; js. unfold dbHelpers.createCampSelection; js.
  destruct (refused s) as [e'|] eqn:R.
  - rewrite (request_refused _ _ _ R); js. split; reflexivity.
  - rewrite (request_answered _ _ R), E; js. split; reflexivity.
Qed.

(** ** Two runs of the model *)

(** The scenario of the last bed: A takes it, B is refused, A cancels, B
    takes it.  One client, signing the two users in by turns. *)
Example last_bed_scenario :
  let as_B := [Logout; Login "biju@example.org" "b"; LoadCamps; LoadUserSelection] in
  let as_A := [Logout; Login "asha@example.org" "a"; LoadCamps; LoadUserSelection] in
  let s0 := small_client refugee1 [] in
  let s1 := calls as_B (snd (call (SelectCamp 20) s0)) in
  let s2 := calls as_A (snd (call (SelectCamp 20) s1)) in
  let s3 := calls as_B (snd (call CancelSelection s2)) in
  let s4 := snd (call (SelectCamp 20) s3) in
  fst (call (SelectCamp 20) s0) = Fulfilled true None /\
  camp_beds (db s1) 20 = Some 0%Z /\
  fst (call (SelectCamp 20) s1) = Fulfilled false (Some "This camp is full"%string) /\
  fst (call CancelSelection s2) = Fulfilled true None /\
  camp_beds (db s3) 20 = Some 1%Z /\
  fst (call (SelectCamp 20) s3) = Fulfilled true None /\
  camp_beds (db s4) 20 = Some 0%Z /\
  map (fun r => (CampSelection.user_id r, CampSelection.status r))
      (Db.camp_selections (db s4)) = [(1, cancelled); (2, active)].
Proof. cbv zeta. repeat split. Qed.

(** A user cancels once: [UNIQUE(user_id, status)] refuses a second
    cancelled row of the same user. *)
Example second_cancellation_refused :
  let s := calls [SelectCamp 20; CancelSelection; SelectCamp 20] (small_client refugee1 []) in
  fst (call CancelSelection s)
  = Fulfilled false (Some "duplicate key value violates unique constraint"%string) /\
  snd (call CancelSelection s) = s.
Proof. cbv zeta. split; reflexivity. Qed.

(** * The claims *)

(** ** C1 *)

(** C1, as the code has it.  In a session of one client that starts from
    a consistent system (the store answers every request, the manager's
    copies are current, and for every camp [beds >= 0] and [beds] plus its
    active selections is [original_beds]), after every call of [selectCamp],
    [cancelSelection], [addCamp] with a capacity that is not negative,
    [deleteCamp], and of the loads and assignment methods, every camp has
    [0 <= beds <= original_beds]. *)
Theorem beds_bounded_in_session : forall l s,
  consistent s -> Forall session_call l -> beds_bounded (db (calls l s)).
Proof.
  intros l s C H. apply sound_bounded.
  exact (tables_sound (calls_consistent l s C H)).
Qed.

(** The theorem on the seeded deployment, a volunteer signed in. *)
Lemma beds_bounded_in_session_witness :
  beds_bounded
    (db (calls [SelectCamp 10; CancelSelection; SelectCamp 12;
                AddCamp (Some (CampData.mk "Town Library" 8 ["Water"%string] None "No"));
                DeleteCamp 11]
               (client volunteer1 []))).
Proof.
  apply (beds_bounded_in_session
           [SelectCamp 10; CancelSelection; SelectCamp 12;
            AddCamp (Some (CampData.mk "Town Library" 8 ["Water"%string] None "No"));
            DeleteCamp 11]
           (client volunteer1 [])).
  - constructor; cbn [client outcomes campManager db CampManager.camps]; auto.
    + intros u sel _ H. discriminate H.
    + constructor.
      * constructor; cbn.
        -- repeat constructor; cbn; intuition discriminate.
        -- repeat constructor.
        -- constructor.
        -- reflexivity.
      * repeat constructor.
      * repeat constructor; cbn; lia.
  - repeat constructor. cbn. lia.
Defined.

(** C1 fails as stated.  The camp has one bed; the user selects it while
    the reload of the camps is refused once (the third request of
    [selectCamp]), then cancels: [cancelSelection] writes the stale copy
    plus one, and the camp has 2 beds of 1.  And a volunteer who adds a
    camp with [beds = -3] gets a camp with [beds = -3]. *)
Lemma beds_bounded_broken :
  beds_bounded (db (small_client refugee1 [None; None; Some unavailable])) /\
  map (fun c => (Camp.beds c, Camp.original_beds c))
      (Db.camps (db (calls [SelectCamp 20; CancelSelection]
                           (small_client refugee1 [None; None; Some unavailable]))))
  = [(2, 1)%Z] /\
  ~ beds_bounded (db (calls [SelectCamp 20; CancelSelection]
                            (small_client refugee1 [None; None; Some unavailable]))) /\
  ~ beds_bounded
      (db (calls [AddCamp (Some (CampData.mk "Town Library" (-3) [] None "No"))]
                 (small_client volunteer1 []))).
Proof.
  split; [|split; [|split]].
  - repeat constructor; cbn; lia.
  - reflexivity.
  - intros H. inversion H as [|c l Hc Hl]; subst. cbn in Hc. lia.
  - intros H. unfold beds_bounded in H. rewrite Forall_forall in H.
    specialize (H (Camp.mk 100 "Town Library" (-3) (-3) [] None "No" (Some 3)
                           "volunteer-added" 1)).
    cbn in H. assert (X : (0 <= -3)%Z) by (apply H; right; left; reflexivity). lia.
Qed.

(** ** C2 *)

(** C2. At most one [camp_selections] row per user has [status = active]:
    from tables where this holds, it holds after every sequence of calls
    of the public methods ([selectCamp] and [cancelSelection] among them),
    whatever the store does with the requests, and it holds after each
    single statement on [camp_selections], so also between the requests
    of one call. *)
Theorem one_active_selection_per_user :
  (forall l s, single_active (db s) -> single_active (db (calls l s))) /\
  (forall u c st d,
     single_active d -> single_active (snd (insert_camp_selection u c st d))) /\
  (forall ts u d,
     single_active d -> single_active (snd (update_cancel_selection ts u d))).
Proof.
  split; [|split].
  - intros l s. apply keeps_calls.
    + exact single_active_insert.
    + exact single_active_cancel.
    + exact single_active_delete.
    + exact single_active_insert_camp.
    + exact single_active_update_beds.
    + exact single_active_insert_assignment.
  - exact single_active_insert.
  - exact single_active_cancel.
Qed.

(** The theorem on a run in which the store refuses a bed update. *)
Lemma one_active_selection_per_user_witness :
  single_active
    (db (calls [SelectCamp 10; SelectCamp 11; CancelSelection; LoadUserSelection;
                SelectCamp 11; CancelSelection; SelectCamp 12]
               (client refugee1 [None; Some unavailable]))).
Proof.
  apply (proj1 one_active_selection_per_user).
  intros u. cbn. lia.
Defined.

(** ** C3 *)

(** C3, as the code has it.  When the store answers every request, a
    mutating call ([selectCamp], [cancelSelection], [addCamp],
    [deleteCamp]) of one client's session, from a consistent system,
    leaves every camp's [beds] in
    agreement with its active selection rows, and a call that fails leaves
    the whole system as it was before the call. *)
Theorem mutation_keeps_ledger : forall c s,
  consistent s -> session_call c -> mutation c ->
  ledger_agrees (db (snd (call c s))) /\
  (succeeded (fst (call c s)) = false -> snd (call c s) = s).
Proof.
  intros c s C H _. destruct (call_consistent c s C H) as [C' U].
  split; [|exact U]. exact (agrees (tables_sound C')).
Qed.

(** The theorem on the first selection of the seeded deployment. *)
Lemma mutation_keeps_ledger_witness :
  ledger_agrees (db (snd (call (SelectCamp 10) (client refugee1 [])))) /\
  (succeeded (fst (call (SelectCamp 10) (client refugee1 []))) = false ->
   snd (call (SelectCamp 10) (client refugee1 [])) = client refugee1 []).
Proof.
  apply (mutation_keeps_ledger (SelectCamp 10) (client refugee1 [])).
  - constructor; cbn [client outcomes campManager db CampManager.camps]; auto.
    + intros u sel _ H. discriminate H.
    + constructor.
      * constructor; cbn.
        -- repeat constructor; cbn; intuition discriminate.
        -- repeat constructor.
        -- constructor.
        -- reflexivity.
      * repeat constructor.
      * repeat constructor; cbn; lia.
  - exact I.
  - exact I.
Defined.

(** C3 fails as stated.  The store refuses the second request of
    [selectCamp], the bed update: the call fails with the store's message,
    and the row it inserted first stays, active, on a camp whose [beds] is
    still 1 of 1.  The state is not the state before the call, and [beds]
    disagrees with the selections. *)
Lemma selectCamp_half_done :
  ledger_agrees (db (small_client refugee1 [None; Some unavailable])) /\
  fst (call (SelectCamp 20) (small_client refugee1 [None; Some unavailable]))
  = Fulfilled false (Some "Service Unavailable"%string) /\
  Db.camp_selections
    (db (snd (call (SelectCamp 20) (small_client refugee1 [None; Some unavailable]))))
  = [CampSelection.mk 100 1 20 active 1 None] /\
  camp_beds (db (snd (call (SelectCamp 20) (small_client refugee1 [None; Some unavailable]))))
            20 = Some 1%Z /\
  db (snd (call (SelectCamp 20) (small_client refugee1 [None; Some unavailable])))
  <> db (small_client refugee1 [None; Some unavailable]) /\
  ~ ledger_agrees
      (db (snd (call (SelectCamp 20) (small_client refugee1 [None; Some unavailable])))).
Proof.
  repeat split.
  - repeat constructor.
  - intros H. apply (f_equal Db.camp_selections) in H. discriminate H.
  - intros H. inversion H as [|c l Hc Hl]; subst. cbn in Hc. lia.
Qed.

(** ** C4 *)

(** C4, as the code has it.  [selectCamp] tests the manager's copies, not
    the tables.  For a signed-in user it fails with "You already have a
    camp selected ..." (AlreadySelected) whenever the manager holds a
    selection, with "Camp not found" (CampNotFound) whenever the camp is
    not in the manager's copy of the camps, and with "This camp is full"
    (CampFull) whenever the camp's [beds <= 0] in that copy, the
    conditions being taken in this order; in each case the system after
    the call is the system before it: no row is created and no [beds] is
    written.  In particular a camp with [beds = 0] in the manager's copy
    is refused with CampFull; and so is a camp with [beds <= 0] in the
    table, when the manager's copy of the camps is current, the keys of
    [camps] are distinct and the manager holds no selection.  And
    whatever the manager's copies say: while the table holds an active
    row of the user, or holds no such camp, the call fails and the tables
    stay as they were. *)
Theorem selectCamp_refuses : forall campId s u,
  AuthManager.currentUser (authManager s) = Some u ->
  (forall sel,
     CampManager.userSelection (campManager s) = Some sel ->
     selectCamp campId s =
     (inr (failed "You already have a camp selected. Please cancel your current selection first."),
      s)) /\
  (CampManager.userSelection (campManager s) = None ->
   find_camp campId (CampManager.camps (campManager s)) = None ->
   selectCamp campId s = (inr (failed "Camp not found"), s)) /\
  (forall camp,
     CampManager.userSelection (campManager s) = None ->
     find_camp campId (CampManager.camps (campManager s)) = Some camp ->
     (Camp.beds camp <= 0)%Z ->
     selectCamp campId s = (inr (failed "This camp is full"), s)) /\
  (forall camp,
     CampManager.userSelection (campManager s) = None ->
     find_camp campId (CampManager.camps (campManager s)) = Some camp ->
     Camp.beds camp = 0%Z ->
     selectCamp campId s = (inr (failed "This camp is full"), s)) /\
  (existsb (is_active_of (User.id u)) (Db.camp_selections (db s)) = true ->
   succeeded (fst (call (SelectCamp campId) s)) = false /\
   db (snd (call (SelectCamp campId) s)) = db s) /\
  (has_camp (db s) campId = false ->
   succeeded (fst (call (SelectCamp campId) s)) = false /\
   db (snd (call (SelectCamp campId) s)) = db s) /\
  (forall camp,
     CampManager.camps (campManager s) = select_camps (db s) ->
     NoDup (map Camp.id (Db.camps (db s))) ->
     CampManager.userSelection (campManager s) = None ->
     In camp (Db.camps (db s)) -> Camp.id camp = campId ->
     (Camp.beds camp <= 0)%Z ->
     selectCamp campId s = (inr (failed "This camp is full"), s)).
Proof.
  intros campId s u Hu. repeat apply conj.
  - intros sel Hsel. exact (selectCamp_already campId s u sel Hu Hsel).
  - intros Hsel Hf. exact (selectCamp_not_found campId s u Hu Hsel Hf).
  - intros camp Hsel Hf Hb. exact (selectCamp_full campId s u camp Hu Hsel Hf Hb).
  - intros camp Hsel Hf Hb. apply (selectCamp_full campId s u camp Hu Hsel Hf). lia.
  - intros H. apply (selectCamp_writes_nothing campId s u Hu).
    apply insert_refused_when_active. exact H.
  - intros H. apply (selectCamp_writes_nothing campId s u Hu).
    apply insert_refused_no_camp. exact H.
  - intros camp CC N Hsel Hin Hid Hb.
    apply (selectCamp_full campId s u camp Hu Hsel); [|exact Hb].
    rewrite CC. apply cached_camp_found; assumption.
Qed.

(** The theorem on a camp that does not exist, on a user who has already
    selected, on the last bed taken (read from the manager's copy, and
    read from the table under a current copy), and on a user whose active
    row the manager has not loaded. *)
Lemma selectCamp_refuses_witness :
  selectCamp 99 (client refugee1 []) = (inr (failed "Camp not found"), client refugee1 []) /\
  selectCamp 20 (snd (call (SelectCamp 20) (small_client refugee1 []))) =
  (inr (failed "You already have a camp selected. Please cancel your current selection first."),
   snd (call (SelectCamp 20) (small_client refugee1 []))) /\
  selectCamp 20 last_bed_taken = (inr (failed "This camp is full"), last_bed_taken) /\
  (succeeded (fst (call (SelectCamp 20) half_selected)) = false /\
   db (snd (call (SelectCamp 20) half_selected)) = db half_selected) /\
  selectCamp 20 last_bed_taken = (inr (failed "This camp is full"), last_bed_taken).
Proof.
  split; [|split; [|split; [|split]]].
  - exact (proj1 (proj2 (selectCamp_refuses 99 (client refugee1 []) refugee1 eq_refl))
                 eq_refl eq_refl).
  - exact (proj1 (selectCamp_refuses 20 (snd (call (SelectCamp 20) (small_client refugee1 [])))
                                    refugee1 eq_refl)
                 (CampSelection.mk 100 1 20 active 1 None) eq_refl).
  - apply (proj1 (proj2 (proj2 (selectCamp_refuses 20 last_bed_taken refugee2 eq_refl)))
                 (Camp.with_beds one_bed 0)).
    + reflexivity.
    + reflexivity.
    + cbn. lia.
  - exact (proj1 (proj2 (proj2 (proj2 (proj2
             (selectCamp_refuses 20 half_selected refugee1 eq_refl))))) eq_refl).
  - apply (proj2 (proj2 (proj2 (proj2 (proj2 (proj2
             (selectCamp_refuses 20 last_bed_taken refugee2 eq_refl))))))
                 (Camp.with_beds one_bed 0)).
    + reflexivity.
    + repeat constructor; cbn; intuition discriminate.
    + reflexivity.
    + left; reflexivity.
    + reflexivity.
    + cbn. lia.
Defined.

(** C4 fails as stated.  In [stale_copy] the camp has 0 beds in the table
    and the signed-in user, the second refugee, has no active selection;
    the manager's copy of the camp still shows 1 bed.  [selectCamp] is not
    refused with CampFull: it succeeds, and a second active row points at
    the camp of one bed. *)
Lemma selectCamp_takes_a_full_camp :
  camp_beds (db stale_copy) 20 = Some 0%Z /\
  AuthManager.currentUser (authManager stale_copy) = Some refugee2 /\
  count_key 2 active (Db.camp_selections (db stale_copy)) = 0 /\
  option_map Camp.beds (find_camp 20 (CampManager.camps (campManager stale_copy))) =
    Some 1%Z /\
  fst (call (SelectCamp 20) stale_copy) = Fulfilled true None /\
  fst (call (SelectCamp 20) stale_copy) <> Fulfilled false (Some "This camp is full"%string) /\
  Db.camp_selections (db (snd (call (SelectCamp 20) stale_copy))) =
    Db.camp_selections (db stale_copy) ++ [CampSelection.mk 101 2 20 active 1 None] /\
  active_count (db (snd (call (SelectCamp 20) stale_copy))) 20 = 2.
Proof.
  repeat split. discriminate.
Qed.

(** ** C5 *)

(** C5, as the code has it.  When the store answers every request, the
    tables are as the schema guarantees, the manager's copies are
    current, and the signed-in user has exactly one active selection (the
    one the manager holds, on an existing camp whose [beds + 1] fits the
    integer column) and no cancelled row yet, [cancelSelection] succeeds:
    that row is in the table with [status = cancelled] and [cancelled_at]
    the time of the call, the user has no active row left, and the camp's
    [beds] is its former value plus 1, with no cap at [original_beds].
    [cancelSelection] looks for the selection in the manager's copy, not
    in the table: whenever nobody is signed in or the manager holds no
    selection, it fails with "No active camp selection found"
    (NoActiveSelection) and changes nothing; so it does for a user with
    no active selection in the table when the manager's copy of the
    selection is current. *)
Theorem cancelSelection_effect :
  (forall s u sel camp,
     outcomes s = [] -> db_wf (db s) ->
     CampManager.camps (campManager s) = select_camps (db s) ->
     AuthManager.currentUser (authManager s) = Some u ->
     CampManager.userSelection (campManager s) = Some sel ->
     filter (is_active_of (User.id u)) (Db.camp_selections (db s)) = [sel] ->
     count_key (User.id u) cancelled (Db.camp_selections (db s)) = 0 ->
     In camp (Db.camps (db s)) -> Camp.id camp = CampSelection.camp_id sel ->
     (Camp.beds camp + 1 <= int4_max)%Z ->
     let s' := snd (cancelSelection s) in
     fst (cancelSelection s) = inr (resolved tt) /\
     In (CampSelection.mk (CampSelection.id sel) (User.id u) (Camp.id camp) cancelled
                          (CampSelection.selected_at sel) (Some (date s)))
        (Db.camp_selections (db s')) /\
     count_key (User.id u) active (Db.camp_selections (db s')) = 0 /\
     camp_beds (db s) (Camp.id camp) = Some (Camp.beds camp) /\
     camp_beds (db s') (Camp.id camp) = Some (Camp.beds camp + 1)%Z) /\
  (forall s,
     AuthManager.currentUser (authManager s) = None \/
     CampManager.userSelection (campManager s) = None ->
     cancelSelection s = (inr (failed "No active camp selection found"), s)) /\
  (forall s u,
     AuthManager.currentUser (authManager s) = Some u ->
     CampManager.userSelection (campManager s) = loaded_selection (Some u) (db s) ->
     filter (is_active_of (User.id u)) (Db.camp_selections (db s)) = [] ->
     cancelSelection s = (inr (failed "No active camp selection found"), s)).
Proof.
  split; [|split; [exact cancelSelection_none|]].
  2:{ intros s u Hu Hsel Hact. apply cancelSelection_none. right.
      rewrite Hsel. unfold loaded_selection, select_active_selection.
      rewrite Hact. reflexivity. }
  intros s u sel camp Q W CC Hu Hsel Hact Z Hin Hid Hfit s'. subst s'.
  rewrite (cancelSelection_run s u sel camp Q W CC Hu Hsel Hact Z Hin Hid).
  cbn [fst snd db Db.camp_selections].
  assert (Hs : In sel (filter (is_active_of (User.id u)) (Db.camp_selections (db s))))
    by (rewrite Hact; left; reflexivity).
  apply filter_In in Hs. destruct Hs as [Hs Ha].
  pose proof Ha as Ha'. apply is_active_of_iff in Ha'. destruct Ha' as [E1 E2].
  split; [reflexivity|]. split; [|split; [|split]].
  - unfold cancel_rows. apply in_map_iff. exists sel. split; [|exact Hs].
    rewrite Ha. unfold CampSelection.cancel. rewrite E1, Hid. reflexivity.
  - apply count_active_cancelled.
  - unfold camp_beds.
    pose proof (cached_camp_found (db s) (Camp.id camp) camp (wf_camp_ids W) Hin eq_refl) as F.
    destruct (find_camp (Camp.id camp) (Db.camps (db s))) as [c|] eqn:G.
    + apply find_camp_some in G. destruct G as [G1 G2].
      rewrite (camp_key _ _ _ (wf_camp_ids W) G1 Hin G2). reflexivity.
    + exfalso. exact (find_camp_none _ _ camp G Hin eq_refl).
  - eapply camp_beds_set_beds; [exact W | exact Hin | reflexivity].
Qed.

(** The theorem on [half_selected]: the row is cancelled and the camp has
    one bed more, 2 of 1. *)
Lemma cancelSelection_effect_witness :
  fst (cancelSelection half_selected) = inr (resolved tt) /\
  In (CampSelection.mk 100 1 20 cancelled 1 (Some 2))
     (Db.camp_selections (db (snd (cancelSelection half_selected)))) /\
  count_key 1 active (Db.camp_selections (db (snd (cancelSelection half_selected)))) = 0 /\
  camp_beds (db half_selected) 20 = Some 1%Z /\
  camp_beds (db (snd (cancelSelection half_selected))) 20 = Some 2%Z.
Proof.
  apply (proj1 cancelSelection_effect half_selected refugee1
               (CampSelection.mk 100 1 20 active 1 None) one_bed).
  - reflexivity.
  - constructor; cbn.
    + repeat constructor; cbn; intuition discriminate.
    + repeat constructor.
    + repeat constructor.
    + reflexivity.
  - reflexivity.
  - reflexivity.
  - reflexivity.
  - reflexivity.
  - reflexivity.
  - left; reflexivity.
  - reflexivity.
  - unfold int4_max. cbn. lia.
Defined.

(** C5 fails as stated, in both halves.  The increment is not capped: in
    [half_selected] the user has exactly one active selection, on a camp
    with 1 bed of 1; [cancelSelection] succeeds and the camp has 2 beds of
    1.  And a user with no active selection is not always turned away: in
    [selection_deleted] the table holds no selection row at all, the
    manager still holds the row the cascade deleted, and [cancelSelection]
    reports success. *)
Lemma cancelSelection_not_capped_not_checked :
  (filter (is_active_of 1) (Db.camp_selections (db half_selected))
   = [CampSelection.mk 100 1 20 active 1 None] /\
   CampManager.userSelection (campManager half_selected)
   = Some (CampSelection.mk 100 1 20 active 1 None) /\
   map (fun c => (Camp.id c, Camp.beds c, Camp.original_beds c))
       (Db.camps (db half_selected)) = [(20, 1%Z, 1%Z)] /\
   fst (cancelSelection half_selected) = inr (resolved tt) /\
   map (fun c => (Camp.id c, Camp.beds c, Camp.original_beds c))
       (Db.camps (db (snd (cancelSelection half_selected)))) = [(20, 2%Z, 1%Z)] /\
   ~ (forall c, In c (Db.camps (db (snd (cancelSelection half_selected)))) ->
                (Camp.beds c <= Camp.original_beds c)%Z)) /\
  (AuthManager.currentUser (authManager selection_deleted) = Some volunteer1 /\
   Db.camp_selections (db selection_deleted) = [] /\
   filter (is_active_of 3) (Db.camp_selections (db selection_deleted)) = [] /\
   CampManager.userSelection (campManager selection_deleted)
   = Some (CampSelection.mk 100 3 20 active 1 None) /\
   fst (cancelSelection selection_deleted) = inr (resolved tt) /\
   fst (cancelSelection selection_deleted)
   <> inr (failed "No active camp selection found")).
Proof.
  split.
  - repeat split.
    intros H. specialize (H (Camp.with_beds one_bed 2) (or_introl eq_refl)). cbn in H. lia.
  - repeat split. discriminate.
Qed.

(** ** C6 *)

(** C6, as the code has it.  When the store answers every request, the
    tables are as the schema guarantees, the manager's copy of the camps
    is current and the manager holds no selection, for a signed-in,
    registered user with no selection row yet, active or cancelled, and a
    camp of the table with [beds = b > 0], [selectCamp] brings [beds] to
    [b - 1], [cancelSelection] brings it back to [b], its value before
    the selection, and selecting the same camp again brings it to [b - 1]
    again; the three calls succeed. *)
Theorem select_cancel_select : forall s u camp,
  outcomes s = [] -> db_wf (db s) ->
  CampManager.camps (campManager s) = select_camps (db s) ->
  AuthManager.currentUser (authManager s) = Some u ->
  has_user (db s) (User.id u) = true ->
  CampManager.userSelection (campManager s) = None ->
  count_key (User.id u) active (Db.camp_selections (db s)) = 0 ->
  count_key (User.id u) cancelled (Db.camp_selections (db s)) = 0 ->
  In camp (Db.camps (db s)) -> (0 < Camp.beds camp)%Z ->
  let s1 := snd (call (SelectCamp (Camp.id camp)) s) in
  let s2 := snd (call CancelSelection s1) in
  let s3 := snd (call (SelectCamp (Camp.id camp)) s2) in
  succeeded (fst (call (SelectCamp (Camp.id camp)) s)) = true /\
  succeeded (fst (call CancelSelection s1)) = true /\
  succeeded (fst (call (SelectCamp (Camp.id camp)) s2)) = true /\
  camp_beds (db s1) (Camp.id camp) = Some (Camp.beds camp - 1)%Z /\
  camp_beds (db s2) (Camp.id camp) = Some (Camp.beds camp) /\
  camp_beds (db s3) (Camp.id camp) = Some (Camp.beds camp - 1)%Z.
Proof.
  intros s u camp Q W CC Hu HU Hsel Za Zc Hin Hb. cbv zeta. unfold call.
  set (i := Camp.id camp). set (b := Camp.beds camp).
  set (row := CampSelection.mk (Db.next_uuid (db s)) (User.id u) i active (Db.now (db s)) None).
  (* first selection *)
  pose proof (selectCamp_run s u camp Q W CC Hu HU Hsel Za Hin Hb) as R1.
  cbv zeta in R1. fold i b row in R1.
  pose proof (selectCamp_run_wf (db s) (User.id u) camp W HU Hin Za (b - 1)%Z) as W1.
  fold i row in W1.
  rewrite R1. cbn [settle fst snd].
  set (d1 := Db.mk (Db.users (db s)) (set_beds i (b - 1) (Db.camps (db s)))
                   (Db.camp_selections (db s) ++ [row])
                   (Db.volunteer_assignments (db s)) (S (Db.next_uuid (db s)))
                   (Db.now (db s))) in *.
  set (s1 := mkSys d1 (CampManager.mk (select_camps d1) (Some row)) (authManager s) [] (date s)).
  set (camp1 := Camp.with_beds camp (b - 1)).
  assert (Hin1 : In camp1 (Db.camps d1)) by (apply In_set_beds; exact Hin).
  (* cancellation *)
  assert (Zc1 : count_key (User.id u) cancelled (Db.camp_selections d1) = 0).
  { subst d1. tables. rewrite count_key_app, count_key_one, Zc.
    subst row. cbn [CampSelection.user_id CampSelection.status Status_eqb].
    rewrite Bool.andb_false_r. reflexivity. }
  assert (A1 : filter (is_active_of (User.id u)) (Db.camp_selections d1) = [row]).
  { subst d1. tables. rewrite filter_app, (filter_active_nil _ _ Za).
    subst row. unfold is_active_of.
    cbn [filter app CampSelection.user_id CampSelection.status Status_eqb].
    rewrite Nat.eqb_refl. reflexivity. }
  pose proof (cancelSelection_run s1 u row camp1 eq_refl W1 eq_refl Hu eq_refl A1 Zc1
                Hin1 eq_refl) as R2.
  cbv zeta in R2. cbn [db date authManager s1 camp1 Camp.with_beds Camp.id Camp.beds] in R2.
  fold i in R2.
  pose proof (cancelSelection_run_wf (date s) d1 (User.id u) i (b - 1 + 1)%Z W1 Zc1) as W2.
  rewrite R2. cbn [settle fst snd].
  set (d2 := Db.mk (Db.users d1) (set_beds i (b - 1 + 1) (Db.camps d1))
                   (cancel_rows (date s) (User.id u) (Db.camp_selections d1))
                   (Db.volunteer_assignments d1) (Db.next_uuid d1) (Db.now d1)) in *.
  set (s2 := mkSys d2 (CampManager.mk (select_camps d2) None) (authManager s) [] (date s)).
  set (camp2 := Camp.with_beds camp1 (b - 1 + 1)).
  assert (Hin2 : In camp2 (Db.camps d2)) by (apply (In_set_beds (Db.camps d1) camp1); exact Hin1).
  (* second selection *)
  assert (Za2 : count_key (User.id u) active (Db.camp_selections d2) = 0)
    by apply count_active_cancelled.
  assert (Hb2 : (0 < Camp.beds camp2)%Z) by (cbn; lia).
  pose proof (selectCamp_run s2 u camp2 eq_refl W2 eq_refl Hu HU eq_refl Za2 Hin2 Hb2) as R3.
  cbv zeta in R3. cbn [camp2 camp1 Camp.with_beds Camp.id Camp.beds] in R3. fold i in R3.
  rewrite R3. cbn [settle fst snd succeeded resolved success db].
  repeat split.
  - apply (camp_beds_set_beds (db s) d1 camp (b - 1)%Z W Hin eq_refl).
  - replace (Some b) with (Some (b - 1 + 1)%Z) by (f_equal; lia).
    apply (camp_beds_set_beds d1 d2 camp1 (b - 1 + 1)%Z W1 Hin1 eq_refl).
  - replace (Some (b - 1)%Z) with (Some (b - 1 + 1 - 1)%Z) by (f_equal; lia).
    eapply (camp_beds_set_beds d2 _ camp2 (b - 1 + 1 - 1)%Z W2 Hin2). reflexivity.
Qed.

(** The theorem on the camp with one bed. *)
Lemma select_cancel_select_witness :
  let s := small_client refugee1 [] in
  let s1 := snd (call (SelectCamp 20) s) in
  let s2 := snd (call CancelSelection s1) in
  let s3 := snd (call (SelectCamp 20) s2) in
  succeeded (fst (call (SelectCamp 20) s)) = true /\
  succeeded (fst (call CancelSelection s1)) = true /\
  succeeded (fst (call (SelectCamp 20) s2)) = true /\
  camp_beds (db s1) 20 = Some (1 - 1)%Z /\
  camp_beds (db s2) 20 = Some 1%Z /\
  camp_beds (db s3) 20 = Some (1 - 1)%Z.
Proof.
  apply (select_cancel_select (small_client refugee1 []) refugee1 one_bed).
  - reflexivity.
  - constructor; cbn.
    + repeat constructor; cbn; intuition discriminate.
    + repeat constructor.
    + constructor.
    + reflexivity.
  - reflexivity.
  - reflexivity.
  - reflexivity.
  - reflexivity.
  - reflexivity.
  - reflexivity.
  - left; reflexivity.
  - reflexivity.
Defined.

(** C6 fails as stated.  The camp has 1 bed; the user selects it, cancels
    and selects it again, and the three calls succeed: the camp then has 0
    beds, not the 1 it had before the first selection. *)
Lemma round_trip_loses_a_bed :
  let s := small_client refugee1 [] in
  let s1 := snd (call (SelectCamp 20) s) in
  let s2 := snd (call CancelSelection s1) in
  let s3 := snd (call (SelectCamp 20) s2) in
  fst (call (SelectCamp 20) s) = Fulfilled true None /\
  fst (call CancelSelection s1) = Fulfilled true None /\
  fst (call (SelectCamp 20) s2) = Fulfilled true None /\
  camp_beds (db s) 20 = Some 1%Z /\
  camp_beds (db s3) 20 = Some 0%Z /\
  camp_beds (db s3) 20 <> camp_beds (db s) 20.
Proof.
  cbv zeta. repeat split. discriminate.
Qed.

(** ** C7 *)

(** C7. [addCamp] succeeds only when the signed-in user's role is
    [volunteer]; any other caller is turned away with "Only volunteers can
    add camps" (NotAuthorized) and nothing is written; and the camp a
    successful call creates has [original_beds] equal to the [beds]
    supplied, which is also its [beds].  A call that fails creates no
    camp. *)
Theorem addCamp_volunteers_only : forall campData s,
  let r := fst (call (AddCamp campData) s) in
  let s' := snd (call (AddCamp campData) s) in
  (succeeded r = true ->
     exists u cd,
       AuthManager.currentUser (authManager s) = Some u /\
       User.role u = "volunteer"%string /\
       campData = Some cd /\
       Camp.original_beds (new_camp (db s) u cd) = CampData.beds cd /\
       Camp.beds (new_camp (db s) u cd) = CampData.beds cd /\
       fst (addCamp campData s) = inr (resolved (Some (new_camp (db s) u cd))) /\
       Db.camps (db s') = Db.camps (db s) ++ [new_camp (db s) u cd]) /\
  ((forall u, AuthManager.currentUser (authManager s) = Some u ->
              User.role u <> "volunteer"%string) ->
   addCamp campData s = (inr (failed "Only volunteers can add camps"), s)) /\
  (succeeded r = false -> db s' = db s).
Proof.
  intros campData s r s'. subst r s'. unfold call.
  split; [|split]; [| exact (not_volunteer_add s campData) |].
  all: destruct (volunteer_or_not s) as [[u [Hu Hrole]]|Hno];
    [| rewrite (not_volunteer_add s campData Hno); cbn; intros; try discriminate; reflexivity ].
  all: destruct campData as [cd|];
    [| rewrite (addCamp_no_data s u Hu Hrole); cbn; intros; try discriminate; reflexivity ].
  all: unfold addCamp; js; rewrite Hu; js; rewrite Hrole;
    cbn [String.eqb Ascii.eqb Bool.eqb]; js;
    unfold dbHelpers.createCamp; js.
  all: destruct (refused s) eqn:R;
    [ rewrite (request_refused _ _ _ R); js; cbn; intros; try discriminate; reflexivity
    | rewrite (request_answered _ _ R) ].
  all: unfold insert_camp; destruct (has_user (db s) (User.id u)); cbn [negb fst snd]; js;
    [| cbn; intros; try discriminate; reflexivity ].
  all: match goal with |- context [loadCamps ?x] =>
         pose proof (loadCamps_db x) as Hdb; destruct (loadCamps_returns x) as [rr Hrr];
         destruct (loadCamps x) as [q sx] end;
    cbn [fst snd] in Hdb, Hrr; subst q; js; cbn [settle fst snd succeeded resolved success].
  - intros _. exists u, cd. rewrite Hdb. cbn [consumed db Db.camps].
    repeat split; auto.
  - intros; discriminate.
Qed.

(** The theorem on a refugee, who is turned away, and on a volunteer. *)
Lemma addCamp_volunteers_only_witness :
  addCamp (Some (CampData.mk "Town Library" 8 ["Water"%string] None "No"))
          (client refugee1 []) =
  (inr (failed "Only volunteers can add camps"), client refugee1 []) /\
  exists u cd,
    AuthManager.currentUser (authManager (client volunteer1 [])) = Some u /\
    User.role u = "volunteer"%string /\
    Some (CampData.mk "Town Library" 8 ["Water"%string] None "No") = Some cd /\
    Camp.original_beds (new_camp seeded u cd) = CampData.beds cd /\
    Camp.beds (new_camp seeded u cd) = CampData.beds cd /\
    fst (addCamp (Some (CampData.mk "Town Library" 8 ["Water"%string] None "No"))
                 (client volunteer1 []))
    = inr (resolved (Some (new_camp seeded u cd))) /\
    Db.camps (db (snd (call (AddCamp (Some (CampData.mk "Town Library" 8 ["Water"%string]
                                                       None "No")))
                            (client volunteer1 []))))
    = Db.camps seeded ++ [new_camp seeded u cd].
Proof.
  split.
  - apply (proj1 (proj2 (addCamp_volunteers_only
                           (Some (CampData.mk "Town Library" 8 ["Water"%string] None "No"))
                           (client refugee1 [])))).
    intros u H. inversion H; subst. cbn. discriminate.
  - exact (proj1 (addCamp_volunteers_only
                    (Some (CampData.mk "Town Library" 8 ["Water"%string] None "No"))
                    (client volunteer1 [])) eq_refl).
Defined.

(** ** C8 *)

(** C8. [deleteCamp] succeeds only for a signed-in volunteer; a call that
    fails deletes nothing; a call that succeeds cascades: the camp is gone
    together with every selection and every assignment that pointed at
    it, so that a user whose active selection pointed at the camp has no
    active selection: the next query for it finds no row, and once the
    manager has run that query [cancelSelection] answers "No active camp
    selection found" (NoActiveSelection).  (The code never takes the
    other branch of the claim, rejecting the deletion because of the
    selection.) *)
Theorem deleteCamp_cascades : forall campId s,
  let r := fst (call (DeleteCamp campId) s) in
  let s' := snd (call (DeleteCamp campId) s) in
  (succeeded r = true ->
     exists u, AuthManager.currentUser (authManager s) = Some u /\
               User.role u = "volunteer"%string) /\
  (succeeded r = false -> db s' = db s) /\
  (succeeded r = true ->
     db s' = delete_camp campId (db s) /\
     has_camp (db s') campId = false /\
     (forall row, In row (Db.camp_selections (db s')) ->
                  CampSelection.camp_id row <> campId) /\
     (forall a, In a (Db.volunteer_assignments (db s')) ->
                VolunteerAssignment.camp_id a <> campId) /\
     (forall user row,
        single_active (db s) ->
        In row (Db.camp_selections (db s)) ->
        is_active_of (User.id user) row = true ->
        CampSelection.camp_id row = campId ->
        select_active_selection (User.id user) (db s') = inl PGRST116 /\
        forall t,
          db t = db s' ->
          AuthManager.currentUser (authManager t) = Some user ->
          refused t = None ->
          cancelSelection (snd (loadUserSelection t)) =
          (inr (failed "No active camp selection found"), snd (loadUserSelection t)))).
Proof.
  intros campId s r s'. subst r s'. unfold call.
  destruct (volunteer_or_not s) as [[u [Hu Hrole]]|Hno].
  2:{ rewrite (not_volunteer_delete s campId Hno). cbn.
      repeat split; intros; try discriminate; reflexivity. }
  destruct (refused s) as [e|] eqn:R.
  1:{ rewrite (deleteCamp_refused campId s u e Hu Hrole R). cbn.
      repeat split; intros; try discriminate; reflexivity. }
  destruct (deleteCamp_answered campId s u Hu Hrole R) as [Hr Hdb].
  destruct (deleteCamp campId s) as [q s1]. cbn [fst snd] in Hr, Hdb. subst q.
  unfold settle. cbn [fst snd succeeded resolved success].
  split; [eauto|]. split; [discriminate|]. intros _.
  rewrite Hdb. split; [reflexivity|]. split; [|split; [|split]].
  - destruct (has_camp (delete_camp campId (db s)) campId) eqn:E; [|reflexivity].
    apply has_camp_iff in E. destruct E as [c [Hc Hid]]. unfold delete_camp in Hc. tables.
    apply filter_In in Hc. destruct Hc as [_ Hc].
    rewrite Hid, Nat.eqb_refl in Hc. discriminate.
  - intros row Hrow E. unfold delete_camp in Hrow. tables.
    apply filter_In in Hrow. destruct Hrow as [_ Hrow].
    rewrite E, Nat.eqb_refl in Hrow. discriminate.
  - intros a Ha E. unfold delete_camp in Ha. tables.
    apply filter_In in Ha. destruct Ha as [_ Ha].
    rewrite E, Nat.eqb_refl in Ha. discriminate.
  - intros user row S Hin Ha Hc.
    pose proof (cascade_leaves_none campId (db s) (User.id user) row S Hin Ha Hc) as N.
    split; [exact N|].
    intros t Ht Hu' Rt.
    apply cancelSelection_none. right.
    rewrite (loadUserSelection_answered t user Rt Hu').
    cbn [campManager CampManager.userSelection].
    unfold loaded_selection. rewrite Ht, N. reflexivity.
Qed.

(** The theorem on a volunteer who selected the camp and deletes it. *)
Lemma deleteCamp_cascades_witness :
  let s := snd (call (SelectCamp 20) (small_client volunteer1 [])) in
  db (snd (call (DeleteCamp 20) s)) = delete_camp 20 (db s) /\
  Db.camps (db (snd (call (DeleteCamp 20) s))) = [] /\
  Db.camp_selections (db (snd (call (DeleteCamp 20) s))) = [] /\
  select_active_selection 3 (db (snd (call (DeleteCamp 20) s))) = inl PGRST116.
Proof.
  cbv zeta.
  pose proof (proj2 (proj2 (deleteCamp_cascades 20
                 (snd (call (SelectCamp 20) (small_client volunteer1 []))))) eq_refl)
    as [H1 [_ [_ [_ H5]]]].
  split; [exact H1|]. split; [reflexivity|]. split; [reflexivity|].
  apply (H5 volunteer1 (CampSelection.mk 100 3 20 active 1 None)).
  - apply unique_single_active. reflexivity.
  - left; reflexivity.
  - reflexivity.
  - reflexivity.
Defined.

(** ** C9 *)

(** C9. [login] verifies no password: two calls with the same email and
    any two passwords, from the same system, settle alike and leave the
    same system; and for a registered email, when the store answers, the
    call succeeds with the registered user and signs that user in. *)
Theorem login_ignores_password : forall email password1 password2 s,
  login email password1 s = login email password2 s /\
  (forall u,
     select_user_by_email email (db s) = inr u ->
     refused s = None ->
     login email password1 s =
     (inr (resolved u),
      mkSys (db s) (campManager s) (AuthManager.mk (Some u)) (tl (outcomes s)) (date s))).
Proof.
  intros email p1 p2 s. split; [reflexivity|].
  intros u Hu Hs.
  unfold login, dbHelpers.getUserByEmail; js.
  rewrite (request_answered _ _ Hs). js. rewrite Hu. reflexivity.
Qed.

(** The theorem on a registered email and two passwords. *)
Lemma login_ignores_password_witness :
  login "asha@example.org" "correct horse" (client refugee2 []) =
  login "asha@example.org" "" (client refugee2 []) /\
  login "asha@example.org" "correct horse" (client refugee2 []) =
  (inr (resolved refugee1),
   mkSys seeded (CampManager.mk (select_camps seeded) None)
         (AuthManager.mk (Some refugee1)) [] 2).
Proof.
  split.
  - exact (proj1 (login_ignores_password "asha@example.org" "correct horse" ""
                    (client refugee2 []))).
  - exact (proj2 (login_ignores_password "asha@example.org" "correct horse" ""
                    (client refugee2 [])) refugee1 eq_refl eq_refl).
Defined.

(** ** C10 *)

(** C10. Every public method of [CampManager] ([loadCamps],
    [loadUserSelection], [selectCamp], [cancelSelection], [addCamp],
    [deleteCamp], [addVolunteerAssignment], [getVolunteerHistory]) is total
    at its interface: for every argument, every state of the system and
    every script of store outcomes, the promise fulfils with a result
    object whose [success] field is set and which carries an error message
    when [success] is false; nothing thrown inside reaches the caller. *)
Theorem methods_total :
  total_at_interface loadCamps /\
  total_at_interface loadUserSelection /\
  (forall campId, total_at_interface (selectCamp campId)) /\
  total_at_interface cancelSelection /\
  (forall campData, total_at_interface (addCamp campData)) /\
  (forall campId, total_at_interface (deleteCamp campId)) /\
  (forall campId, total_at_interface (addVolunteerAssignment campId)) /\
  total_at_interface getVolunteerHistory.
Proof.
  repeat split; intros.
  - unfold loadCamps; total.
  - unfold loadUserSelection; total.
  - unfold selectCamp; total.
  - unfold cancelSelection; total.
  - unfold addCamp; total.
  - unfold deleteCamp; total.
  - unfold addVolunteerAssignment; total.
  - unfold getVolunteerHistory; total.
Qed.

(** * More of the code *)

(** ** A program logic for the methods *)

Lemma triple_ret {A} (P : Sys -> Prop) (a : A) (Q : A -> Sys -> Prop) E :
  (forall s, P s -> Q a s) -> triple P (ret a) Q E.
Proof. intros H s Hs. exact (H s Hs). Qed.

Lemma triple_throw {A} (P : Sys -> Prop) e (Q : A -> Sys -> Prop) (E : Sys -> Prop) :
  (forall s, P s -> E s) -> triple P (throw e) Q E.
Proof. intros H s Hs. exact (H s Hs). Qed.

Lemma triple_gets {A B} (P : Sys -> Prop) (f : Sys -> A) (k : A -> M B) Q E :
  (forall a, triple (fun s => P s /\ a = f s) (k a) Q E) ->
  triple P (bind (gets f) k) Q E.
Proof. intros H s Hs. unfold bind, gets. exact (H (f s) s (conj Hs eq_refl)). Qed.

Lemma triple_modify {B} (P P' : Sys -> Prop) (f : Sys -> Sys) (k : unit -> M B) Q E :
  (forall s, P s -> P' (f s)) ->
  triple P' (k tt) Q E ->
  triple P (bind (modify f) k) Q E.
Proof. intros Hf H s Hs. unfold bind, modify. exact (H (f s) (Hf s Hs)). Qed.

Lemma triple_bind {A B} (P : Sys -> Prop) (m : M A) (k : A -> M B) Q' Q E :
  triple P m Q' E -> (forall a, triple (Q' a) (k a) Q E) -> triple P (bind m k) Q E.
Proof.
  intros Hm Hk s Hs. unfold bind. specialize (Hm s Hs).
  destruct (m s) as [[e|a] s1]; [exact Hm|]. exact (Hk a s1 Hm).
Qed.

Lemma triple_try_catch {A} (P : Sys -> Prop) (body : M A) handler Q E' E :
  triple P body Q E' -> (forall e, triple E' (handler e) Q E) ->
  triple P (try_catch body handler) Q E.
Proof.
  intros Hb Hh s Hs. unfold try_catch. specialize (Hb s Hs).
  destruct (body s) as [[e|a] s1]; [|exact Hb]. exact (Hh e s1 Hb).
Qed.

(** A method body under its [catch]: what it throws is returned. *)
Lemma triple_guarded {A} (P : Sys -> Prop) (body : M (Result A)) (I : Sys -> Prop) :
  triple P body (fun _ => I) I -> triple P (guarded body) (fun _ => I) I.
Proof.
  intros H. apply (triple_try_catch P body _ (fun _ => I) I I H).
  intros e. apply triple_ret. auto.
Qed.

(** One request: refused, the tables stay; answered, they take the
    statement. *)
Lemma triple_request {A B} (P : Sys -> Prop) (P' : PostgrestError + A -> Sys -> Prop)
      exec (k : PostgrestError + A -> M B) Q E :
  (forall s, P s ->
     (forall e, P' (inl e) (consumed s (db s))) /\
     P' (fst (exec (db s))) (consumed s (snd (exec (db s))))) ->
  (forall r, triple (P' r) (k r) Q E) ->
  triple P (bind (request exec) k) Q E.
Proof.
  intros H Hk s Hs. unfold bind, request. destruct (H s Hs) as [H1 H2].
  destruct (outcomes s) as [|[e|] rest] eqn:O.
  - unfold consumed in H2. rewrite O in H2. destruct (exec (db s)) as [r d'].
    exact (Hk r _ H2).
  - specialize (H1 e). unfold consumed in H1. rewrite O in H1. exact (Hk (inl e) _ H1).
  - unfold consumed in H2. rewrite O in H2. destruct (exec (db s)) as [r d'].
    exact (Hk r _ H2).
Qed.

Lemma triple_assoc {A B C} (P : Sys -> Prop) (m : M A) (f : A -> M B) (g : B -> M C) Q E :
  triple P (bind m (fun x => bind (f x) g)) Q E -> triple P (bind (bind m f) g) Q E.
Proof.
  intros H s Hs. specialize (H s Hs). unfold bind in *.
  destruct (m s) as [[e|a] s1]; exact H.
Qed.

Lemma triple_ret_bind {A B} (P : Sys -> Prop) (a : A) (k : A -> M B) Q E :
  triple P (k a) Q E -> triple P (bind (ret a) k) Q E.
Proof. intros H s Hs. exact (H s Hs). Qed.

Lemma triple_throw_bind {A B} (P : Sys -> Prop) e (k : A -> M B) Q (E : Sys -> Prop) :
  (forall s, P s -> E s) -> triple P (bind (throw e) k) Q E.
Proof. intros H s Hs. exact (H s Hs). Qed.

(** A fact that holds of every state of [P] may be used from there on. *)
Lemma triple_assert {A} (fact : Prop) (P : Sys -> Prop) (m : M A) Q E :
  (forall s, P s -> fact) -> (fact -> triple P m Q E) -> triple P m Q E.
Proof. intros H1 H2 s Hs. exact (H2 (H1 s Hs) s Hs). Qed.

(** A call as a method that keeps [I]. *)
Lemma maintains_settle {A} (I : Sys -> Prop) (m : M (Result A)) s :
  maintains I m -> I s -> I (snd (settle (m s))).
Proof.
  intros H Hs. specialize (H s Hs). destruct (m s) as [[e|r] s1]; exact H.
Qed.

(** What every call keeps, a sequence of calls keeps. *)
Lemma maintains_calls (I : Sys -> Prop) (ok : Call -> Prop) :
  (forall c s, ok c -> I s -> I (snd (call c s))) ->
  forall l s, Forall ok l -> I s -> I (calls l s).
Proof.
  intros H l. induction l as [|c l IH]; intros s Hl Hs; [exact Hs|].
  inversion Hl; subst. cbn. apply IH; [assumption|]. apply H; assumption.
Qed.

(** A method called for its effect in the middle of another. *)
Lemma triple_then {A B} (I : Sys -> Prop) (m : M A) (k : A -> M B) Q :
  maintains I m -> (forall a, triple I (k a) Q I) -> triple I (bind m k) Q I.
Proof. intros Hm Hk. exact (triple_bind I m k (fun _ => I) Q I Hm Hk). Qed.

(** Steps through a method body up to its requests and writes. *)
Ltac hoare_step :=
  match goal with
  | |- triple _ (bind (bind _ _) _) _ _ => apply triple_assoc
  | |- triple _ (bind (ret _) _) _ _ => apply triple_ret_bind
  | |- triple _ (bind (throw _) _) _ _ => apply triple_throw_bind; intros ? ?
  | |- triple _ (bind (gets _) _) _ _ => apply triple_gets; intro
  | |- triple _ (throw _) _ _ => apply triple_throw; intros ? ?
  | |- triple _ (ret _) _ _ => apply triple_ret; intros ? ?
  | |- triple _ (match ?x with _ => _ end) _ _ => destruct x eqn:?
  | |- triple _ (bind (match ?x with _ => _ end) _) _ _ => destruct x eqn:?
  end.

Ltac hoare := repeat hoare_step.

(** The accessors and the helpers of [dbHelpers], down to reads, writes and
    requests. *)
Ltac unfold_methods :=
  unfold getCurrentUser, this_camps, this_userSelection, set_this_camps,
    set_this_userSelection, setCurrentUser, notify,
    dbHelpers.getCamps, dbHelpers.getUserCampSelection, dbHelpers.createCampSelection,
    dbHelpers.updateCamp, dbHelpers.cancelCampSelection, dbHelpers.createCamp,
    dbHelpers.deleteCamp, dbHelpers.createVolunteerAssignment,
    dbHelpers.getVolunteerAssignments, dbHelpers.getUserByEmail.

(** Splits what is known of the state into its facts. *)
Ltac facts :=
  repeat match goal with
         | H : _ /\ _ |- _ => destruct H
         end; subst.

(** ** [ORDER BY created_at DESC] *)

Lemma insert_desc_perm c l : Permutation (insert_desc c l) (c :: l).
Proof.
  induction l as [|x l IH]; simpl; [reflexivity|].
  destruct (Camp.created_at x <? Camp.created_at c); [reflexivity|].
  rewrite IH. apply perm_swap.
Qed.

Lemma order_desc_perm l : Permutation (order_desc l) l.
Proof.
  induction l as [|c l IH]; simpl; [reflexivity|].
  rewrite insert_desc_perm. constructor. exact IH.
Qed.

Lemma insert_desc_hd c x l :
  Camp.created_at c <= Camp.created_at x ->
  HdRel (fun a b => Camp.created_at b <= Camp.created_at a) x l ->
  HdRel (fun a b => Camp.created_at b <= Camp.created_at a) x (insert_desc c l).
Proof.
  intros Hc H. destruct l as [|y l]; simpl.
  - constructor. exact Hc.
  - destruct (Camp.created_at y <? Camp.created_at c); constructor; [exact Hc|].
    inversion H; assumption.
Qed.

Lemma insert_desc_sorted c l : newest_first l -> newest_first (insert_desc c l).
Proof.
  unfold newest_first. induction l as [|x l IH]; intros H; simpl.
  - repeat constructor.
  - destruct (Camp.created_at x <? Camp.created_at c) eqn:E.
    + constructor; [exact H|]. constructor. apply Nat.ltb_lt in E. lia.
    + inversion H as [|? ? Hs Hh]; subst. constructor; [exact (IH Hs)|].
      apply insert_desc_hd; [|exact Hh]. apply Nat.ltb_ge in E. exact E.
Qed.

Lemma order_desc_sorted l : newest_first (order_desc l).
Proof.
  induction l as [|c l IH]; simpl; [constructor|]. apply insert_desc_sorted. exact IH.
Qed.

Lemma insert_desc_va_perm a l : Permutation (insert_desc_va a l) (a :: l).
Proof.
  induction l as [|x l IH]; simpl; [reflexivity|].
  destruct (VolunteerAssignment.created_at x <? VolunteerAssignment.created_at a);
    [reflexivity|].
  rewrite IH. apply perm_swap.
Qed.

Lemma insert_desc_va_hd a x l :
  VolunteerAssignment.created_at a <= VolunteerAssignment.created_at x ->
  HdRel (fun p q => VolunteerAssignment.created_at q <= VolunteerAssignment.created_at p) x l ->
  HdRel (fun p q => VolunteerAssignment.created_at q <= VolunteerAssignment.created_at p) x
        (insert_desc_va a l).
Proof.
  intros Hc H. destruct l as [|y l]; simpl.
  - constructor. exact Hc.
  - destruct (VolunteerAssignment.created_at y <? VolunteerAssignment.created_at a);
      constructor; [exact Hc|].
    inversion H; assumption.
Qed.

Lemma insert_desc_va_sorted a l :
  assignments_newest_first l -> assignments_newest_first (insert_desc_va a l).
Proof.
  unfold assignments_newest_first. induction l as [|x l IH]; intros H; simpl.
  - repeat constructor.
  - destruct (VolunteerAssignment.created_at x <? VolunteerAssignment.created_at a) eqn:E.
    + constructor; [exact H|]. constructor. apply Nat.ltb_lt in E. lia.
    + inversion H as [|? ? Hs Hh]; subst. constructor; [exact (IH Hs)|].
      apply insert_desc_va_hd; [|exact Hh]. apply Nat.ltb_ge in E. exact E.
Qed.

Lemma select_volunteer_assignments_perm v d :
  Permutation (select_volunteer_assignments v d)
              (filter (fun r => VolunteerAssignment.volunteer_id r =? v)
                      (Db.volunteer_assignments d)).
Proof.
  unfold select_volunteer_assignments.
  induction (filter _ _) as [|a l IH]; simpl; [reflexivity|].
  rewrite insert_desc_va_perm. constructor. exact IH.
Qed.

Lemma select_volunteer_assignments_sorted v d :
  assignments_newest_first (select_volunteer_assignments v d).
Proof.
  unfold select_volunteer_assignments.
  induction (filter _ _) as [|a l IH]; simpl; [constructor|].
  apply insert_desc_va_sorted. exact IH.
Qed.

(** ** The two loads, request by request *)

(** X1.  [loadCamps] makes one request.  Refused, the method returns the
    store's message and keeps its copy of the camps; answered, [this.camps]
    becomes the rows of [camps], every one of them once, the newest first.
    The tables, the selection and the user are as before in both cases. *)
Theorem loadCamps_effect (s : Sys) :
  match refused s with
  | Some e => loadCamps s = (inr (failed (message e)), consumed s (db s))
  | None =>
      loadCamps s =
        (inr (resolved (select_camps (db s))),
         mkSys (db s)
               (CampManager.mk (select_camps (db s))
                               (CampManager.userSelection (campManager s)))
               (authManager s) (tl (outcomes s)) (date s)) /\
      Permutation (select_camps (db s)) (Db.camps (db s)) /\
      newest_first (select_camps (db s))
  end.
Proof.
  destruct (refused s) as [e|] eqn:R.
  - unfold loadCamps, dbHelpers.getCamps; js.
    rewrite (request_refused _ _ _ R); js. reflexivity.
  - split; [|split].
    + unfold loadCamps, dbHelpers.getCamps; js.
      rewrite (request_answered _ _ R); js. reflexivity.
    + apply order_desc_perm.
    + apply order_desc_sorted.
Qed.

(** X2.  [loadUserSelection] asks the store only when a user is signed in.
    Signed out, it clears [this.userSelection] without a request.  A reply
    with the code [PGRST116] counts as no selection; any other refusal is
    returned as a failure and the stale copy stays.  Answered, the copy is
    the user's active row when there is exactly one, and [null] when there
    is none or more than one.  The tables are never written. *)
Theorem loadUserSelection_effect (s : Sys) :
  match AuthManager.currentUser (authManager s) with
  | None => loadUserSelection s = (inr (resolved None), with_userSelection s None)
  | Some u =>
      match refused s with
      | Some e =>
          if String.eqb (code e) "PGRST116"
          then loadUserSelection s =
                 (inr (resolved None), with_userSelection (consumed s (db s)) None)
          else loadUserSelection s = (inr (failed (message e)), consumed s (db s))
      | None =>
          loadUserSelection s =
            (inr (resolved (loaded_selection (Some u) (db s))),
             with_userSelection (consumed s (db s)) (loaded_selection (Some u) (db s))) /\
          match filter (is_active_of (User.id u)) (Db.camp_selections (db s)) with
          | [row] => loaded_selection (Some u) (db s) = Some row
          | _ => loaded_selection (Some u) (db s) = None
          end
      end
  end.
Proof.
  unfold with_userSelection.
  destruct (AuthManager.currentUser (authManager s)) as [u|] eqn:Hu.
  - destruct (refused s) as [e|] eqn:R.
    + unfold loadUserSelection, dbHelpers.getUserCampSelection; js. rewrite Hu; js.
      rewrite (request_refused _ _ _ R); js.
      destruct (String.eqb (code e) "PGRST116"); reflexivity.
    + split.
      * unfold loadUserSelection, dbHelpers.getUserCampSelection; js. rewrite Hu; js.
        rewrite (request_answered _ _ R); js.
        unfold loaded_selection, select_active_selection, single.
        destruct (filter _ _) as [|r [|r' l]]; reflexivity.
      * unfold loaded_selection, select_active_selection, single.
        destruct (filter _ _) as [|r [|r' l]]; reflexivity.
  - unfold loadUserSelection; js. rewrite Hu; js. reflexivity.
Qed.

(** ** Volunteer assignments *)

Lemma insert_volunteer_assignment_cases v c d :
  (has_user d v && has_camp d c = false /\
   insert_volunteer_assignment v c d = (inl foreign_key_violation, d)) \/
  (has_user d v && has_camp d c = true /\
   insert_volunteer_assignment v c d =
     (inr (VolunteerAssignment.mk (Db.next_uuid d) v c (Db.now d)),
      Db.mk (Db.users d) (Db.camps d) (Db.camp_selections d)
            (Db.volunteer_assignments d ++ [VolunteerAssignment.mk (Db.next_uuid d) v c (Db.now d)])
            (S (Db.next_uuid d)) (Db.now d))).
Proof.
  unfold insert_volunteer_assignment. destruct (has_user d v && has_camp d c); [right|left];
    split; reflexivity.
Qed.


(** X10.  [getVolunteerHistory] answers [[]] without a request to anyone
    who is not a signed-in volunteer.  For a volunteer it makes one
    request: refused, the store's message is returned; answered, the
    result is the rows of [volunteer_assignments] of that volunteer and no
    others, every one once, the newest first.  It changes nothing but the
    script of outcomes. *)
Theorem getVolunteerHistory_effect (s : Sys) :
  match AuthManager.currentUser (authManager s) with
  | Some u =>
      if String.eqb (User.role u) "volunteer"
      then match refused s with
           | Some e => getVolunteerHistory s = (inr (failed (message e)), consumed s (db s))
           | None =>
               getVolunteerHistory s =
                 (inr (resolved (select_volunteer_assignments (User.id u) (db s))),
                  consumed s (db s)) /\
               Permutation (select_volunteer_assignments (User.id u) (db s))
                           (filter (fun r => VolunteerAssignment.volunteer_id r =? User.id u)
                                   (Db.volunteer_assignments (db s))) /\
               assignments_newest_first (select_volunteer_assignments (User.id u) (db s))
           end
      else getVolunteerHistory s = (inr (resolved []), s)
  | None => getVolunteerHistory s = (inr (resolved []), s)
  end.
Proof.
  unfold getVolunteerHistory; js.
  destruct (AuthManager.currentUser (authManager s)) as [u|] eqn:Hu; js; [|reflexivity].
  destruct (String.eqb (User.role u) "volunteer") eqn:Hr; js; [|reflexivity].
  unfold dbHelpers.getVolunteerAssignments; js.
  destruct (refused s) as [e|] eqn:R.
  - rewrite (request_refused _ _ _ R); js. reflexivity.
  - rewrite (request_answered _ _ R); js. split; [reflexivity|]. split.
    + apply select_volunteer_assignments_perm.
    + apply select_volunteer_assignments_sorted.
Qed.

Lemma filter_snoc {A} (f : A -> bool) l x :
  filter f (l ++ [x]) = filter f l ++ (if f x then [x] else []).
Proof. rewrite filter_app. reflexivity. Qed.

(** X11.  What a volunteer assigns shows in the history: when the store
    answers, the volunteer is a row of [users] and the camp exists, the
    assignment succeeds and the history read afterwards is the history
    read before plus the new row. *)
Theorem assignment_recorded (campId : uuid) (s : Sys) (u : User.t) :
  outcomes s = [] ->
  AuthManager.currentUser (authManager s) = Some u ->
  User.role u = "volunteer"%string ->
  has_user (db s) (User.id u) = true ->
  has_camp (db s) campId = true ->
  exists a before after,
    fst (addVolunteerAssignment campId s) = inr (resolved (Some a)) /\
    VolunteerAssignment.camp_id a = campId /\
    fst (getVolunteerHistory s) = inr (resolved before) /\
    fst (getVolunteerHistory (snd (addVolunteerAssignment campId s))) = inr (resolved after) /\
    Permutation after (a :: before).
Proof.
  intros Q Hu Hr Hv Hc.
  rewrite (addVolunteerAssignment_quiet s u campId Q Hu Hr).
  destruct (insert_volunteer_assignment_cases (User.id u) campId (db s)) as [[F E]|[F E]].
  { rewrite Hv, Hc in F. discriminate F. }
  rewrite E. cbn [fst snd].
  set (a := VolunteerAssignment.mk (Db.next_uuid (db s)) (User.id u) campId (Db.now (db s))).
  exists a, (select_volunteer_assignments (User.id u) (db s)).
  eexists. split; [reflexivity|]. split; [reflexivity|].
  assert (R : refused s = None) by (unfold refused; rewrite Q; reflexivity).
  split; [|split].
  - unfold getVolunteerHistory; js. rewrite Hu; js. rewrite Hr.
    cbn [String.eqb Ascii.eqb Bool.eqb]; js.
    unfold dbHelpers.getVolunteerAssignments; js.
    rewrite (request_answered _ _ R); js. reflexivity.
  - unfold getVolunteerHistory; js. cbn [authManager]. rewrite Hu; js. rewrite Hr.
    cbn [String.eqb Ascii.eqb Bool.eqb]; js.
    unfold dbHelpers.getVolunteerAssignments; js.
    rewrite request_answered by reflexivity; js. reflexivity.
  - rewrite select_volunteer_assignments_perm. cbn [db Db.volunteer_assignments].
    rewrite filter_snoc. cbn [VolunteerAssignment.volunteer_id a]. rewrite Nat.eqb_refl.
    rewrite <- Permutation_cons_append. constructor.
    symmetry. apply select_volunteer_assignments_perm.
Qed.

(** The theorem for the volunteer of the seeded deployment, who assigns
    herself to one camp twice. *)
Lemma assignment_recorded_witness :
  exists a before after,
    fst (addVolunteerAssignment 11
           (snd (addVolunteerAssignment 11 (client volunteer1 [])))) = inr (resolved (Some a)) /\
    VolunteerAssignment.camp_id a = 11 /\
    fst (getVolunteerHistory (snd (addVolunteerAssignment 11 (client volunteer1 []))))
      = inr (resolved before) /\
    fst (getVolunteerHistory
           (snd (addVolunteerAssignment 11
                   (snd (addVolunteerAssignment 11 (client volunteer1 []))))))
      = inr (resolved after) /\
    Permutation after (a :: before).
Proof.
  apply (assignment_recorded 11 (snd (addVolunteerAssignment 11 (client volunteer1 [])))
                             volunteer1); reflexivity.
Defined.

(** ** What [selectCamp] and [cancelSelection] write *)

(** The reloads at the end of a method: they return, and touch neither
    the tables nor the signed-in user. *)
Lemma loadCamps_frame s :
  exists r s', loadCamps s = (inr r, s') /\ db s' = db s /\ authManager s' = authManager s.
Proof.
  unfold loadCamps, dbHelpers.getCamps; js. destruct (refused s) as [e|] eqn:R.
  - rewrite (request_refused _ _ _ R); js. eauto.
  - rewrite (request_answered _ _ R); js. eauto.
Qed.

Lemma loadUserSelection_frame s :
  exists r s', loadUserSelection s = (inr r, s') /\ db s' = db s /\
               authManager s' = authManager s.
Proof.
  unfold loadUserSelection, dbHelpers.getUserCampSelection; js.
  destruct (AuthManager.currentUser (authManager s)) as [u|]; js; [|eauto].
  destruct (refused s) as [e|] eqn:R.
  - rewrite (request_refused _ _ _ R); js.
    destruct (String.eqb (code e) "PGRST116"); js; eauto.
  - rewrite (request_answered _ _ R); js.
    destruct (select_active_selection _ _) as [e|row]; js; [|eauto].
    destruct (String.eqb (code e) "PGRST116"); js; eauto.
Qed.

Lemma loadUserSelection_camps s :
  CampManager.camps (campManager (snd (loadUserSelection s))) =
  CampManager.camps (campManager s).
Proof.
  unfold loadUserSelection, dbHelpers.getUserCampSelection; js.
  destruct (AuthManager.currentUser (authManager s)) as [u|]; js; [|reflexivity].
  destruct (refused s) as [e|] eqn:R.
  - rewrite (request_refused _ _ _ R); js.
    destruct (String.eqb (code e) "PGRST116"); js; reflexivity.
  - rewrite (request_answered _ _ R); js.
    destruct (select_active_selection _ _) as [e|row]; js; [|reflexivity].
    destruct (String.eqb (code e) "PGRST116"); js; reflexivity.
Qed.






(** ** Bed counts are never negative *)

Lemma nonneg_order_desc l :
  Forall (fun c => (0 <= Camp.beds c)%Z) l ->
  Forall (fun c => (0 <= Camp.beds c)%Z) (order_desc l).
Proof.
  intros H. rewrite Forall_forall in *. intros c Hc. apply H.
  apply (proj1 (In_order_desc c l)). exact Hc.
Qed.

Lemma insert_camp_selection_camps u c st d :
  Db.camps (snd (insert_camp_selection u c st d)) = Db.camps d.
Proof.
  unfold insert_camp_selection.
  repeat match goal with |- context [if ?b then _ else _] => destruct b end; reflexivity.
Qed.

Lemma update_cancel_selection_camps ts u d :
  Db.camps (snd (update_cancel_selection ts u d)) = Db.camps d.
Proof. unfold update_cancel_selection. destruct (_ && _); reflexivity. Qed.

Lemma nonneg_set_beds i b l :
  (0 <= b)%Z ->
  Forall (fun c => (0 <= Camp.beds c)%Z) l ->
  Forall (fun c => (0 <= Camp.beds c)%Z) (set_beds i b l).
Proof.
  intros Hb H. unfold set_beds. apply Forall_map. eapply Forall_impl; [|exact H].
  cbv beta. intros c Hc. destruct (Camp.id c =? i); [exact Hb|exact Hc].
Qed.

Lemma maintains_nonneg_loadCamps : maintains no_negative_beds loadCamps.
Proof.
  unfold maintains, loadCamps. apply triple_guarded. unfold_methods. hoare.
  apply (triple_request _ (fun r s => no_negative_beds s /\
           Forall (fun c => (0 <= Camp.beds c)%Z) (Reply.data (reply_list r)))).
  - intros s [H1 H2]. split; [intros e|]; (split; [split; assumption|]).
    + cbn. constructor.
    + cbn. apply nonneg_order_desc. exact H1.
  - intros r. hoare.
    + tauto.
    + eapply triple_modify with (P' := no_negative_beds).
      * intros s [[H1 H2] H3]. split; auto.
      * hoare. auto.
Qed.

Lemma nonneg_consumed s d :
  no_negative_beds s ->
  Forall (fun c => (0 <= Camp.beds c)%Z) (Db.camps d) ->
  no_negative_beds (consumed s d).
Proof. intros [_ H2] H. split; [exact H|exact H2]. Qed.

Lemma nonneg_refused s : no_negative_beds s -> no_negative_beds (consumed s (db s)).
Proof. intros [H1 H2]. split; assumption. Qed.

(** A request whose statement leaves [beds] of every camp alone or at a
    value that is not negative. *)
Lemma nonneg_request {A B} (P : Sys -> Prop) (exec : Db.t -> (PostgrestError + A) * Db.t)
      (k : PostgrestError + A -> M B) Q E :
  (forall s, P s -> no_negative_beds s /\
                    Forall (fun c => (0 <= Camp.beds c)%Z) (Db.camps (snd (exec (db s))))) ->
  (forall r, triple no_negative_beds (k r) Q E) ->
  triple P (bind (request exec) k) Q E.
Proof.
  intros H Hk. apply (triple_request P (fun _ => no_negative_beds)); [|exact Hk].
  intros s Hs. destruct (H s Hs) as [H1 H2]. split.
  - intros _. apply nonneg_refused. exact H1.
  - apply nonneg_consumed; assumption.
Qed.

Lemma maintains_nonneg_loadUserSelection : maintains no_negative_beds loadUserSelection.
Proof.
  unfold maintains, loadUserSelection. apply triple_guarded. unfold_methods. hoare.
  - apply nonneg_request.
    + intros s Hs. facts. split; [assumption|]. cbn. apply H.
    + intros r. hoare; try assumption;
        (eapply triple_modify with (P' := no_negative_beds);
         [intros s Hs; exact Hs|hoare; assumption]).
  - eapply triple_modify with (P' := no_negative_beds).
    + intros s Hs. facts. assumption.
    + hoare. assumption.
Qed.

Lemma insert_camp_camps cd by_ ty orig d :
  Db.camps (snd (insert_camp cd by_ ty orig d)) = Db.camps d \/
  Db.camps (snd (insert_camp cd by_ ty orig d)) =
    Db.camps d ++ [Camp.mk (Db.next_uuid d) (CampData.name cd) (CampData.beds cd) orig
                           (CampData.resources cd) (CampData.contact cd)
                           (CampData.ambulance cd) (Some by_) ty (Db.now d)].
Proof. unfold insert_camp. destruct (negb _); [left|right]; reflexivity. Qed.

Lemma insert_volunteer_assignment_camps v c d :
  Db.camps (snd (insert_volunteer_assignment v c d)) = Db.camps d.
Proof. unfold insert_volunteer_assignment. destruct (negb _); reflexivity. Qed.

Lemma nonneg_found i l c :
  Forall (fun c => (0 <= Camp.beds c)%Z) l -> find_camp i l = Some c -> (0 <= Camp.beds c)%Z.
Proof.
  intros H F. apply find_some in F. rewrite Forall_forall in H. apply H. apply F.
Qed.

Lemma maintains_nonneg_selectCamp campId : maintains no_negative_beds (selectCamp campId).
Proof.
  unfold maintains, selectCamp. apply triple_guarded. unfold_methods. hoare;
    try (facts; assumption).
  apply nonneg_request.
  - intros s Hs. facts. split; [assumption|].
    rewrite insert_camp_selection_camps. apply H.
  - intros r1. hoare; [assumption|].
    apply nonneg_request.
    + intros s Hs. split; [assumption|]. cbn.
      apply nonneg_set_beds; [|apply Hs]. apply Z.leb_gt in Heqb. lia.
    + intros r2. hoare; [assumption|].
      apply triple_then; [apply maintains_nonneg_loadCamps|]. intros _.
      apply triple_then; [apply maintains_nonneg_loadUserSelection|]. intros _.
      hoare. assumption.
Qed.

Ltac reloads LC LS :=
  apply triple_then; [apply LC|]; intros _;
  apply triple_then; [apply LS|]; intros _.

Lemma maintains_nonneg_cancelSelection : maintains no_negative_beds cancelSelection.
Proof.
  unfold maintains, cancelSelection. apply triple_guarded. unfold_methods. hoare;
    try (facts; assumption).
  match goal with |- context [find_camp ?i ?l] => destruct (find_camp i l) as [camp|] eqn:F end.
  - apply (triple_assert (0 <= Camp.beds camp)%Z).
    { intros s Hs. facts. eapply nonneg_found; [|exact F].
      match goal with H : no_negative_beds _ |- _ => apply H end. }
    intros Hcamp. apply nonneg_request.
    + intros s Hs. facts. split; [assumption|].
      rewrite update_cancel_selection_camps.
      match goal with H : no_negative_beds _ |- _ => apply H end.
    + intros r1. hoare; try assumption.
      apply nonneg_request.
      * intros s Hs. split; [assumption|]. cbn.
        apply nonneg_set_beds; [lia|apply Hs].
      * intros r2. hoare; [assumption|].
        reloads maintains_nonneg_loadCamps maintains_nonneg_loadUserSelection.
        hoare. assumption.
  - apply nonneg_request.
    + intros s Hs. facts. split; [assumption|].
      rewrite update_cancel_selection_camps.
      match goal with H : no_negative_beds _ |- _ => apply H end.
    + intros r1. hoare; try assumption.
      reloads maintains_nonneg_loadCamps maintains_nonneg_loadUserSelection.
      hoare. assumption.
Qed.

Lemma maintains_nonneg_addCamp campData :
  no_negative_capacity (AddCamp campData) -> maintains no_negative_beds (addCamp campData).
Proof.
  intros Hc. unfold maintains, addCamp. apply triple_guarded. unfold_methods. hoare;
    try (facts; assumption).
  apply nonneg_request.
  - intros s Hs. facts. split; [assumption|].
    match goal with H : no_negative_beds _ |- _ => destruct H as [H1 H2] end.
    match goal with |- context [insert_camp ?a ?b ?c ?d ?e] =>
      destruct (insert_camp_camps a b c d e) as [E|E]; rewrite E end.
    + exact H1.
    + apply Forall_app. split; [exact H1|]. constructor; [exact Hc|constructor].
  - intros r. hoare; [assumption|].
    apply triple_then; [apply maintains_nonneg_loadCamps|]. intros _. hoare. assumption.
Qed.

Lemma maintains_nonneg_deleteCamp campId : maintains no_negative_beds (deleteCamp campId).
Proof.
  unfold maintains, deleteCamp. apply triple_guarded. unfold_methods. hoare;
    try (facts; assumption).
  apply nonneg_request.
  - intros s Hs. facts. split; [assumption|]. cbn.
    match goal with H : no_negative_beds _ |- _ => destruct H as [H1 H2] end.
    rewrite Forall_forall in *. intros c Hc. apply filter_In in Hc. apply H1. apply Hc.
  - intros r. hoare; [assumption|].
    apply triple_then; [apply maintains_nonneg_loadCamps|]. intros _. hoare. assumption.
Qed.

Lemma maintains_nonneg_addVolunteerAssignment campId :
  maintains no_negative_beds (addVolunteerAssignment campId).
Proof.
  unfold maintains, addVolunteerAssignment. apply triple_guarded. unfold_methods. hoare;
    try (facts; assumption).
  apply nonneg_request.
  - intros s Hs. facts. split; [assumption|].
    rewrite insert_volunteer_assignment_camps.
    match goal with H : no_negative_beds _ |- _ => apply H end.
  - intros r. hoare; assumption.
Qed.

Lemma maintains_nonneg_getVolunteerHistory : maintains no_negative_beds getVolunteerHistory.
Proof.
  unfold maintains, getVolunteerHistory. apply triple_guarded. unfold_methods. hoare;
    try (facts; assumption).
  apply nonneg_request.
  - intros s Hs. facts. split; [assumption|]. cbn.
    match goal with H : no_negative_beds _ |- _ => apply H end.
  - intros r. hoare; assumption.
Qed.

Lemma maintains_nonneg_login email password : maintains no_negative_beds (login email password).
Proof.
  unfold maintains, login. apply triple_guarded. unfold_methods. hoare.
  apply nonneg_request.
  - intros s Hs. split; [assumption|]. cbn. apply Hs.
  - intros r. hoare; try assumption.
    eapply triple_modify with (P' := no_negative_beds); [intros s Hs; exact Hs|].
    hoare. assumption.
Qed.

Lemma maintains_nonneg_logout : maintains no_negative_beds logout.
Proof.
  unfold maintains, logout. unfold_methods.
  eapply triple_modify with (P' := no_negative_beds); [intros s Hs; exact Hs|].
  hoare. assumption.
Qed.

Lemma nonneg_call c s :
  no_negative_capacity c -> no_negative_beds s -> no_negative_beds (snd (call c s)).
Proof.
  intros Hc Hs. destruct c; unfold call; apply maintains_settle; try assumption.
  - apply maintains_nonneg_loadCamps.
  - apply maintains_nonneg_loadUserSelection.
  - apply maintains_nonneg_selectCamp.
  - apply maintains_nonneg_cancelSelection.
  - apply maintains_nonneg_addCamp. exact Hc.
  - apply maintains_nonneg_deleteCamp.
  - apply maintains_nonneg_addVolunteerAssignment.
  - apply maintains_nonneg_getVolunteerHistory.
  - apply maintains_nonneg_login.
  - apply maintains_nonneg_logout.
Qed.

(** X6. whatever the store refuses, and with copies as stale as one likes, no
    sequence of calls makes a bed count negative, in the table or in the
    manager's copy, when no camp is added with a negative capacity. *)
Theorem beds_never_negative (l : list Call) (s : Sys) :
  Forall no_negative_capacity l ->
  no_negative_beds s ->
  no_negative_beds (calls l s).
Proof. intros Hl Hs. exact (maintains_calls _ _ nonneg_call l s Hl Hs). Qed.

(** The theorem on a run over the shared deployment in which the store
    refuses two requests. *)
Lemma beds_never_negative_witness :
  no_negative_beds
    (calls [SelectCamp 11; CancelSelection; SelectCamp 12; Logout;
            Login "chitra@example.org" "pw";
            AddCamp (Some (CampData.mk "Town Library" 0 ["Water"%string] None "No"));
            DeleteCamp 10]
           (shared refugee2 [None; Some unavailable; None; None; Some unavailable])).
Proof.
  apply (beds_never_negative
           [SelectCamp 11; CancelSelection; SelectCamp 12; Logout;
            Login "chitra@example.org" "pw";
            AddCamp (Some (CampData.mk "Town Library" 0 ["Water"%string] None "No"));
            DeleteCamp 10]
           (shared refugee2 [None; Some unavailable; None; None; Some unavailable])).
  - repeat constructor. cbn. lia.
  - split; repeat constructor; cbn; lia.
Defined.

(** ** The rows of other users *)

Lemma rows_of_others_insert u c st d :
  rows_of_others u (snd (insert_camp_selection u c st d)) = rows_of_others u d.
Proof.
  unfold insert_camp_selection, rows_of_others.
  repeat match goal with |- context [if ?b then _ else _] => destruct b end; try reflexivity.
  cbn [snd Db.camp_selections]. rewrite filter_app. cbn. rewrite Nat.eqb_refl. cbn.
  apply app_nil_r.
Qed.

Lemma rows_of_others_cancel_rows ts u tbl :
  filter (fun r => negb (CampSelection.user_id r =? u)) (cancel_rows ts u tbl) =
  filter (fun r => negb (CampSelection.user_id r =? u)) tbl.
Proof.
  induction tbl as [|r tbl IH]; [reflexivity|]. unfold cancel_rows in *. simpl.
  destruct (is_active_of u r) eqn:A.
  - apply andb_prop in A. destruct A as [A _].
    unfold CampSelection.cancel. cbn [CampSelection.user_id]. rewrite A. simpl. exact IH.
  - destruct (CampSelection.user_id r =? u); simpl; rewrite IH; reflexivity.
Qed.

Lemma rows_of_others_cancel ts u d :
  rows_of_others u (snd (update_cancel_selection ts u d)) = rows_of_others u d.
Proof.
  unfold update_cancel_selection, rows_of_others. destruct (_ && _); [reflexivity|].
  cbn [snd Db.with_camp_selections Db.camp_selections]. apply rows_of_others_cancel_rows.
Qed.

Lemma rows_of_others_insert_camp u cd by_ ty orig d :
  rows_of_others u (snd (insert_camp cd by_ ty orig d)) = rows_of_others u d.
Proof. unfold insert_camp. destruct (negb _); reflexivity. Qed.

Lemma rows_of_others_assignment u v c d :
  rows_of_others u (snd (insert_volunteer_assignment v c d)) = rows_of_others u d.
Proof. unfold insert_volunteer_assignment. destruct (negb _); reflexivity. Qed.

(** A request whose statement leaves the rows of the others alone. *)
Lemma others_request {A B} u rows (P : Sys -> Prop)
      (exec : Db.t -> (PostgrestError + A) * Db.t) (k : PostgrestError + A -> M B) Q E :
  (forall s, P s -> others_are u rows s /\
                    rows_of_others (User.id u) (snd (exec (db s))) =
                    rows_of_others (User.id u) (db s)) ->
  (forall r, triple (others_are u rows) (k r) Q E) ->
  triple P (bind (request exec) k) Q E.
Proof.
  intros H Hk. apply (triple_request P (fun _ => others_are u rows)); [|exact Hk].
  intros s Hs. destruct (H s Hs) as [[H1 H2] H3]. split.
  - intros _. split; assumption.
  - split; [exact H1|]. cbn [consumed db]. rewrite H3. exact H2.
Qed.

Ltac others_step :=
  match goal with
  | |- triple _ (bind (request _) _) _ _ =>
      eapply others_request;
      [ let x := fresh "x" in let Hx := fresh "Hx" in
        intros x Hx; facts; split; [eassumption|]
      | intros ? ]
  | |- triple _ (bind (modify _) _) _ _ =>
      eapply triple_modify with (P' := others_are _ _);
      [ let x := fresh "x" in let Hx := fresh "Hx" in
        intros x Hx; facts; match goal with H : others_are _ _ _ |- _ => exact H end
      | ]
  | |- triple _ (bind loadCamps _) _ _ => apply triple_then; [|intros _]
  | |- triple _ (bind loadUserSelection _) _ _ => apply triple_then; [|intros _]
  | _ => hoare_step
  end.

Lemma maintains_others_loadCamps u rows : maintains (others_are u rows) loadCamps.
Proof.
  unfold maintains, loadCamps. apply triple_guarded. unfold_methods.
  repeat others_step; try (facts; assumption); reflexivity.
Qed.

Lemma maintains_others_loadUserSelection u rows :
  maintains (others_are u rows) loadUserSelection.
Proof.
  unfold maintains, loadUserSelection. apply triple_guarded. unfold_methods.
  repeat others_step; try (facts; assumption); reflexivity.
Qed.

Lemma maintains_others_selectCamp u rows campId :
  maintains (others_are u rows) (selectCamp campId).
Proof.
  unfold maintains, selectCamp. apply triple_guarded. unfold_methods.
  repeat others_step; try (facts; assumption);
    try apply maintains_others_loadCamps; try apply maintains_others_loadUserSelection;
    try reflexivity.
  match goal with
  | H : others_are _ _ _, E : Some ?t = AuthManager.currentUser _ |- _ =>
      let Ha := fresh in let Hb := fresh in
      destruct H as [Ha Hb]; rewrite Ha in E; inversion E; subst
  end.
  apply rows_of_others_insert.
Qed.

Lemma maintains_others_cancelSelection u rows : maintains (others_are u rows) cancelSelection.
Proof.
  unfold maintains, cancelSelection. apply triple_guarded. unfold_methods.
  repeat others_step; try (facts; assumption);
    try apply maintains_others_loadCamps; try apply maintains_others_loadUserSelection;
    try reflexivity.
  match goal with
  | H : others_are _ _ _, E : Some ?t = AuthManager.currentUser _ |- _ =>
      let Ha := fresh in let Hb := fresh in
      destruct H as [Ha Hb]; rewrite Ha in E; inversion E; subst
  end.
  apply rows_of_others_cancel.
Qed.

Lemma maintains_others_addCamp u rows campData :
  maintains (others_are u rows) (addCamp campData).
Proof.
  unfold maintains, addCamp. apply triple_guarded. unfold_methods.
  repeat others_step; try (facts; assumption);
    try apply maintains_others_loadCamps; try reflexivity.
  apply rows_of_others_insert_camp.
Qed.

Lemma maintains_others_addVolunteerAssignment u rows campId :
  maintains (others_are u rows) (addVolunteerAssignment campId).
Proof.
  unfold maintains, addVolunteerAssignment. apply triple_guarded. unfold_methods.
  repeat others_step; try (facts; assumption); try reflexivity.
  apply rows_of_others_assignment.
Qed.

Lemma maintains_others_getVolunteerHistory u rows :
  maintains (others_are u rows) getVolunteerHistory.
Proof.
  unfold maintains, getVolunteerHistory. apply triple_guarded. unfold_methods.
  repeat others_step; try (facts; assumption); reflexivity.
Qed.

Lemma others_call u rows c s :
  own_call c -> others_are u rows s -> others_are u rows (snd (call c s)).
Proof.
  intros Hc Hs. destruct c; try contradiction; unfold call; apply maintains_settle;
    try assumption.
  - apply maintains_others_loadCamps.
  - apply maintains_others_loadUserSelection.
  - apply maintains_others_selectCamp.
  - apply maintains_others_cancelSelection.
  - apply maintains_others_addCamp.
  - apply maintains_others_addVolunteerAssignment.
  - apply maintains_others_getVolunteerHistory.
Qed.

(** ** The references between the tables *)

Lemma references_transfer d d' :
  Db.users d' = Db.users d ->
  map Camp.id (Db.camps d') = map Camp.id (Db.camps d) ->
  map Camp.added_by (Db.camps d') = map Camp.added_by (Db.camps d) ->
  map CampSelection.user_id (Db.camp_selections d') =
    map CampSelection.user_id (Db.camp_selections d) ->
  map CampSelection.camp_id (Db.camp_selections d') =
    map CampSelection.camp_id (Db.camp_selections d) ->
  Db.volunteer_assignments d' = Db.volunteer_assignments d ->
  references_hold d -> references_hold d'.
Proof.
  intros Hu Hc Ha Hsu Hsc Hv [R1 R2 R3 R4 R5].
  assert (HU : forall i, has_user d' i = has_user d i)
    by (intros i; unfold has_user; rewrite Hu; reflexivity).
  pose proof (has_camp_ids d d' Hc) as HC.
  constructor.
  - apply Forall_map with (f := CampSelection.user_id) (P := fun i => has_user d' i = true).
    rewrite Hsu. apply Forall_map. eapply Forall_impl; [|exact R1].
    cbv beta. intros r H. rewrite HU. exact H.
  - apply Forall_map with (f := CampSelection.camp_id) (P := fun i => has_camp d' i = true).
    rewrite Hsc. apply Forall_map. eapply Forall_impl; [|exact R2].
    cbv beta. intros r H. rewrite HC. exact H.
  - rewrite Hv. eapply Forall_impl; [|exact R3]. cbv beta. intros r H. rewrite HU. exact H.
  - rewrite Hv. eapply Forall_impl; [|exact R4]. cbv beta. intros r H. rewrite HC. exact H.
  - apply Forall_map with (f := Camp.added_by)
      (P := fun a => match a with Some u => has_user d' u = true | None => True end).
    rewrite Ha. apply Forall_map. eapply Forall_impl; [|exact R5].
    cbv beta. intros c H. destruct (Camp.added_by c); [rewrite HU|]; exact H.
Qed.

Lemma references_insert_selection u c st d :
  references_hold d -> references_hold (snd (insert_camp_selection u c st d)).
Proof.
  intros R. unfold insert_camp_selection.
  destruct (check_single_active_selection _ _); [exact R|].
  destruct (has_user d u && has_camp d c) eqn:FK; cbn [negb]; [|exact R].
  destruct (unique_user_status _); cbn [negb]; [|exact R].
  apply andb_prop in FK. destruct FK as [F1 F2]. destruct R as [R1 R2 R3 R4 R5].
  constructor; cbn [snd Db.camp_selections Db.volunteer_assignments Db.camps];
    try assumption.
  - apply Forall_app. split; [exact R1|]. constructor; [exact F1|constructor].
  - apply Forall_app. split; [exact R2|]. constructor; [exact F2|constructor].
Qed.

Lemma references_cancel ts u d :
  references_hold d -> references_hold (snd (update_cancel_selection ts u d)).
Proof.
  intros R. unfold update_cancel_selection. destruct (_ && _); [exact R|].
  cbn [snd]. apply (references_transfer d); try reflexivity; [| |exact R];
    cbn [Db.with_camp_selections Db.camp_selections]; unfold cancel_rows; rewrite map_map;
    apply map_ext; intros r; destruct (is_active_of u r); reflexivity.
Qed.

Lemma has_camp_delete i d c :
  has_camp d c = true -> (c =? i) = false -> has_camp (delete_camp i d) c = true.
Proof.
  intros H N. apply has_camp_iff. apply (proj1 (has_camp_iff d c)) in H.
  destruct H as [x [Hx E]]. exists x. split; [|exact E].
  cbn [delete_camp Db.camps]. apply filter_In. split; [exact Hx|]. rewrite E, N. reflexivity.
Qed.

Lemma references_delete i d : references_hold d -> references_hold (delete_camp i d).
Proof.
  intros [R1 R2 R3 R4 R5]. rewrite Forall_forall in *.
  constructor; rewrite Forall_forall; cbn [delete_camp Db.camp_selections
    Db.volunteer_assignments Db.camps]; intros r Hr; apply filter_In in Hr;
    destruct Hr as [Hr N].
  - exact (R1 r Hr).
  - apply has_camp_delete; [exact (R2 r Hr)|]. apply negb_true_iff. exact N.
  - exact (R3 r Hr).
  - apply has_camp_delete; [exact (R4 r Hr)|]. apply negb_true_iff. exact N.
  - exact (R5 r Hr).
Qed.

Lemma has_camp_snoc d l c x :
  has_camp d c = true ->
  l = Db.camps d ++ [x] ->
  existsb (fun r => Camp.id r =? c) l = true.
Proof.
  intros H ->. rewrite existsb_app. unfold has_camp in H. rewrite H. reflexivity.
Qed.

Lemma references_insert_camp cd by_ ty orig d :
  references_hold d -> references_hold (snd (insert_camp cd by_ ty orig d)).
Proof.
  intros R. unfold insert_camp. destruct (has_user d by_) eqn:FK; cbn [negb]; [|exact R].
  destruct R as [R1 R2 R3 R4 R5].
  constructor; cbn [snd Db.camp_selections Db.volunteer_assignments Db.camps];
    try assumption.
  - eapply Forall_impl; [|exact R2]. cbv beta. intros r H.
    unfold has_camp. cbn [Db.camps]. eapply has_camp_snoc; [exact H|reflexivity].
  - eapply Forall_impl; [|exact R4]. cbv beta. intros r H.
    unfold has_camp. cbn [Db.camps]. eapply has_camp_snoc; [exact H|reflexivity].
  - apply Forall_app. split; [exact R5|]. constructor; [exact FK|constructor].
Qed.

Lemma references_update_beds i b d :
  references_hold d -> references_hold (snd (update_camp_beds i b d)).
Proof.
  intros R. cbn [update_camp_beds snd]. apply (references_transfer d); try reflexivity;
    [| |exact R]; cbn [Db.with_camps Db.camps].
  - apply map_id_set_beds.
  - unfold set_beds. rewrite map_map. apply map_ext.
    intros c. destruct (Camp.id c =? i); reflexivity.
Qed.

Lemma references_insert_assignment v c d :
  references_hold d -> references_hold (snd (insert_volunteer_assignment v c d)).
Proof.
  intros R. unfold insert_volunteer_assignment.
  destruct (has_user d v && has_camp d c) eqn:FK; cbn [negb]; [|exact R].
  apply andb_prop in FK. destruct FK as [F1 F2]. destruct R as [R1 R2 R3 R4 R5].
  constructor; cbn [snd Db.camp_selections Db.volunteer_assignments Db.camps];
    try assumption.
  - apply Forall_app. split; [exact R3|]. constructor; [exact F1|constructor].
  - apply Forall_app. split; [exact R4|]. constructor; [exact F2|constructor].
Qed.

Lemma references_calls l s : references_hold (db s) -> references_hold (db (calls l s)).
Proof.
  apply keeps_calls.
  - exact references_insert_selection.
  - exact references_cancel.
  - exact references_delete.
  - exact references_insert_camp.
  - exact references_update_beds.
  - exact references_insert_assignment.
Qed.

Lemma db_wf_calls l s : db_wf (db s) -> db_wf (db (calls l s)).
Proof.
  apply keeps_calls.
  - exact db_wf_insert_selection.
  - exact db_wf_cancel.
  - exact db_wf_delete.
  - exact db_wf_insert_camp.
  - exact db_wf_update_beds.
  - exact db_wf_insert_assignment.
Qed.

(** ** Registration and sign-in *)

Lemma has_email_iff d e :
  has_email d e = true <-> In e (map User.email (Db.users d)).
Proof.
  unfold has_email. rewrite existsb_exists, in_map_iff.
  split; intros [u [H1 H2]]; exists u.
  - split; [apply String.eqb_eq; exact H2|exact H1].
  - split; [exact H2|apply String.eqb_eq; exact H1].
Qed.

Lemma NoDup_snoc {A} (l : list A) x : NoDup l -> ~ In x l -> NoDup (l ++ [x]).
Proof.
  intros N H. induction N as [|y l Hy N IH]; simpl.
  - constructor; [intros []|constructor].
  - constructor.
    + rewrite in_app_iff. intros [Hin|[E|[]]]; [exact (Hy Hin)|].
      apply H. left. symmetry. exact E.
    + apply IH. intros Hin. apply H. right. exact Hin.
Qed.

Lemma insert_user_cases ud d :
  let NEW := User.mk (Db.next_uuid d) (UserData.name ud) (UserData.email ud)
                     (UserData.role ud) (UserData.age ud) (UserData.contact ud) in
  (role_allowed (UserData.role ud) = false /\ insert_user ud d = (inl check_violation, d)) \/
  (role_allowed (UserData.role ud) = true /\ has_email d (UserData.email ud) = true /\
   insert_user ud d = (inl unique_violation, d)) \/
  (role_allowed (UserData.role ud) = true /\ has_email d (UserData.email ud) = false /\
   insert_user ud d =
     (inr NEW, Db.mk (Db.users d ++ [NEW]) (Db.camps d) (Db.camp_selections d)
                     (Db.volunteer_assignments d) (S (Db.next_uuid d)) (Db.now d))).
Proof.
  cbv zeta. unfold insert_user.
  destruct (role_allowed (UserData.role ud)); cbn [negb]; [|left; auto].
  destruct (has_email d (UserData.email ud)); right; [left|right]; auto.
Qed.

Lemma users_wf_insert_user ud d : users_wf d -> users_wf (snd (insert_user ud d)).
Proof.
  intros [W1 W2].
  destruct (insert_user_cases ud d) as [[_ E]|[(_ & _ & E)|(Hr & He & E)]]; rewrite E;
    try (constructor; assumption).
  constructor; cbn [snd Db.users].
  - rewrite map_app. apply NoDup_snoc; [exact W1|]. cbn [map User.email].
    intros Hin. apply has_email_iff in Hin. rewrite He in Hin. discriminate.
  - apply Forall_app. split; [exact W2|]. constructor; [exact Hr|constructor].
Qed.




Lemma select_user_by_email_found e d u :
  select_user_by_email e d = inr u -> In u (Db.users d) /\ User.email u = e.
Proof.
  unfold select_user_by_email, single.
  destruct (filter _ _) as [|x [|y l]] eqn:F; try discriminate.
  intros E. inversion E; subst.
  assert (X : In u (filter (fun r => String.eqb (User.email r) e) (Db.users d)))
    by (rewrite F; left; reflexivity).
  apply filter_In in X. destruct X as [X1 X2]. split; [exact X1|].
  apply String.eqb_eq. exact X2.
Qed.




Lemma seeded_users_wf : users_wf seeded.
Proof.
  constructor.
  - repeat constructor; cbn; intuition discriminate.
  - repeat constructor.
Qed.


(** X13.  [register] does not read the error of its lookup.  When the
    lookup is refused and the next request is answered, the insert is sent
    whether or not the email is registered, and the result is the store's:
    its error message with nothing written, or the new user signed in. *)
Theorem register_lookup_refused (ud : UserData.t) (s : Sys) (e : PostgrestError) :
  refused s = Some e ->
  refused (consumed s (db s)) = None ->
  match insert_user ud (db s) with
  | (inl e', _) =>
      register ud s = (inr (failed (message e')), consumed (consumed s (db s)) (db s))
  | (inr u, d1) =>
      register ud s =
        (inr (resolved u),
         mkSys d1 (campManager s) (AuthManager.mk (Some u)) (tl (tl (outcomes s))) (date s))
  end.
Proof.
  intros R1 R2. unfold register, createUser, dbHelpers.getUserByEmail; js.
  rewrite (request_refused _ _ _ R1); js.
  rewrite (request_answered _ _ R2); js. cbn [consumed db].
  destruct (insert_user_cases ud (db s)) as [[_ E]|[(_ & _ & E)|(_ & _ & E)]]; rewrite E; js;
    reflexivity.
Qed.

(** The theorem for an email that is registered already: the client's own
    check is skipped and the message is the store's. *)
Lemma register_lookup_refused_witness :
  register (UserData.mk "Asha" "asha@example.org" "refugee" 34 "+91 90000 00001")
           (visitor [Some unavailable]) =
  (inr (failed "duplicate key value violates unique constraint"),
   visitor []).
Proof.
  exact (register_lookup_refused
           (UserData.mk "Asha" "asha@example.org" "refugee" 34 "+91 90000 00001")
           (visitor [Some unavailable]) unavailable eq_refl eq_refl).
Defined.

Lemma maintains_users_wf_register ud : maintains (fun s => users_wf (db s)) (register ud).
Proof.
  unfold maintains, register, createUser. apply triple_guarded. unfold_methods. hoare.
  apply (triple_request _ (fun _ s => users_wf (db s))).
  { intros s Hs. split; [intros _|]; exact Hs. }
  intros r. hoare; [assumption|].
  apply (triple_request _ (fun _ s => users_wf (db s))).
  { intros s Hs. split; [intros _; exact Hs|]. cbn [consumed db].
    apply users_wf_insert_user. exact Hs. }
  intros r'. hoare; try assumption.
  eapply triple_modify with (P' := fun s => users_wf (db s)); [intros s Hs; exact Hs|].
  hoare. assumption.
Qed.

Lemma users_calls l s : Db.users (db (calls l s)) = Db.users (db s).
Proof.
  apply (keeps_calls (fun d => Db.users d = Db.users (db s))); try reflexivity.
  - intros u c st d H. rewrite <- H. unfold insert_camp_selection.
    repeat match goal with |- context [if ?b then _ else _] => destruct b end; reflexivity.
  - intros ts u d H. rewrite <- H. unfold update_cancel_selection.
    destruct (_ && _); reflexivity.
  - intros i d H. exact H.
  - intros cd u ty o d H. rewrite <- H. unfold insert_camp. destruct (negb _); reflexivity.
  - intros i b d H. exact H.
  - intros v c d H. rewrite <- H. unfold insert_volunteer_assignment.
    destruct (negb _); reflexivity.
Qed.

(** X14.  The two constraints of [users] (unique emails, a role of
    [refugee] or [volunteer]) hold after [register] whatever the store
    refuses, and no call of the camp manager, [login] or [logout] writes
    to [users] at all. *)
Theorem users_stay_wf (ud : UserData.t) (l : list Call) (s : Sys) :
  users_wf (db s) ->
  users_wf (db (snd (register ud s))) /\
  Db.users (db (calls l s)) = Db.users (db s).
Proof.
  intros W. split; [|apply users_calls].
  pose proof (maintains_users_wf_register ud s W) as H.
  destruct (register ud s) as [[e|r] s']; exact H.
Qed.

(** The theorem on a registration whose insert is refused. *)
Lemma users_stay_wf_witness :
  users_wf (db (snd (register newcomer (visitor [None; Some unavailable])))) /\
  Db.users (db (calls [Login "asha@example.org" "pw"; SelectCamp 10; Logout]
                      (visitor [None; Some unavailable]))) =
  Db.users (db (visitor [None; Some unavailable])).
Proof.
  exact (users_stay_wf newcomer [Login "asha@example.org" "pw"; SelectCamp 10; Logout]
                       (visitor [None; Some unavailable]) seeded_users_wf).
Defined.



Lemma login_cases (email password : string) (s : Sys) :
  exists r s',
    login email password s = (inr r, s') /\
    db s' = db s /\
    campManager s' = campManager s /\
    outcomes s' = tl (outcomes s) /\
    if success r
    then exists u,
           payload r = Some u /\
           In u (Db.users (db s)) /\
           User.email u = email /\
           AuthManager.currentUser (authManager s') = Some u
    else error r = Some "Invalid email or password"%string /\
         authManager s' = authManager s.
Proof.
  unfold login, dbHelpers.getUserByEmail; js.
  destruct (refused s) as [e|] eqn:R.
  - rewrite (request_refused _ _ _ R); js.
    eexists. eexists. split; [reflexivity|]. cbn. auto.
  - rewrite (request_answered _ _ R); js.
    destruct (select_user_by_email email (db s)) as [e|u] eqn:E; js.
    + eexists. eexists. split; [reflexivity|]. cbn. auto.
    + apply select_user_by_email_found in E. destruct E as [E1 E2].
      eexists. eexists. split; [reflexivity|]. cbn. repeat (split; [reflexivity|]).
      exists u. auto.
Qed.

(** X16.  [login] makes one request and writes to no table and to no copy
    of the camp manager, whatever the store does.  When it succeeds, the
    user it signs in is a row of [users] with the email given; when it
    fails, the message is always the same one, whatever went wrong, and
    whoever was signed in before stays signed in. *)
Theorem login_effect (email password : string) (s : Sys) :
  exists r s',
    login email password s = (inr r, s') /\
    db s' = db s /\
    campManager s' = campManager s /\
    outcomes s' = tl (outcomes s) /\
    if success r
    then exists u,
           payload r = Some u /\
           In u (Db.users (db s)) /\
           User.email u = email /\
           AuthManager.currentUser (authManager s') = Some u
    else error r = Some "Invalid email or password"%string /\
         authManager s' = authManager s.
Proof. exact (login_cases email password s). Qed.

(** X17.  After a registration that succeeded, whatever the store refused
    on the way, somebody is signed in and exactly one of [isVolunteer] and
    [isRefugee] answers [true]: the one named by the role that was asked
    for.  After [logout] all three answer [false]. *)
Theorem role_of_registered (ud : UserData.t) (s : Sys) (r : Result User.t) (s' : Sys) :
  register ud s = (inr r, s') ->
  success r = true ->
  fst (isLoggedIn s') = inr true /\
  fst (isVolunteer s') = inr (String.eqb (UserData.role ud) "volunteer") /\
  fst (isRefugee s') = inr (String.eqb (UserData.role ud) "refugee") /\
  String.eqb (UserData.role ud) "volunteer" = negb (String.eqb (UserData.role ud) "refugee") /\
  fst (isLoggedIn (snd (logout s'))) = inr false /\
  fst (isVolunteer (snd (logout s'))) = inr false /\
  fst (isRefugee (snd (logout s'))) = inr false.
Proof.
  intros E S.
  assert (T : triple (fun _ => True) (register ud)
                (fun r t => success r = true ->
                   exists u, AuthManager.currentUser (authManager t) = Some u /\
                             User.role u = UserData.role ud /\
                             role_allowed (UserData.role ud) = true)
                (fun _ => False)).
  { unfold register, createUser.
    apply (triple_try_catch _ _ _ _ (fun _ => True)).
    2:{ intros e. apply triple_ret. intros t _ X. discriminate X. }
    unfold_methods. hoare.
    apply (triple_request _ (fun _ _ => True)); [auto|]. intros x. hoare; [exact I|].
    apply (triple_request _ (fun (x' : PostgrestError + User.t) _ =>
             match x' with
             | inr u => User.role u = UserData.role ud /\
                        role_allowed (UserData.role ud) = true
             | inl _ => True
             end)).
    { intros y _. split; [auto|].
      destruct (insert_user_cases ud (db y)) as [[_ X]|[(_ & _ & X)|(Hr & _ & X)]];
        rewrite X; cbn; auto. }
    intros [e'|u]; hoare; try exact I; try discriminate.
    eapply triple_modify with
      (P' := fun t => exists u, AuthManager.currentUser (authManager t) = Some u /\
                                User.role u = UserData.role ud /\
                                role_allowed (UserData.role ud) = true).
    { intros y Hy. exists u. cbn in Heqo1. inversion Heqo1; subst. cbn. tauto. }
    hoare. intros _. assumption. }
  specialize (T s Logic.I). rewrite E in T. specialize (T S).
  assert (X := T). clear T.
  destruct X as (u & Hu & Hrole & Hok).
  unfold isLoggedIn, isVolunteer, isRefugee, logout; js. rewrite Hu, Hrole. cbn.
  repeat (split; [reflexivity|]). split; [|auto].
  unfold role_allowed in Hok.
  destruct (String.eqb (UserData.role ud) "refugee") eqn:E1.
  - apply String.eqb_eq in E1. rewrite E1. reflexivity.
  - cbn in Hok. rewrite Hok. reflexivity.
Qed.

(** The theorem for the newcomer, whose lookup was refused. *)
Lemma role_of_registered_witness :
  fst (isLoggedIn (snd (register newcomer (visitor [Some unavailable])))) = inr true /\
  fst (isVolunteer (snd (register newcomer (visitor [Some unavailable])))) = inr true /\
  fst (isRefugee (snd (register newcomer (visitor [Some unavailable])))) = inr false /\
  true = negb false /\
  fst (isLoggedIn (snd (logout (snd (register newcomer (visitor [Some unavailable])))))) =
    inr false /\
  fst (isVolunteer (snd (logout (snd (register newcomer (visitor [Some unavailable])))))) =
    inr false /\
  fst (isRefugee (snd (logout (snd (register newcomer (visitor [Some unavailable])))))) =
    inr false.
Proof.
  exact (role_of_registered newcomer (visitor [Some unavailable]) _ _ eq_refl eq_refl).
Defined.

(** ** Invariants over whole sessions *)

(** X5.  What one signed-in user does through the camp manager, short of
    deleting a camp, never changes a selection row of anybody else:
    after any sequence of loads, [selectCamp], [cancelSelection], [addCamp]
    and the assignment methods, whatever the store refuses, the rows of
    the other users are the rows they had. *)
Theorem others_rows_untouched (l : list Call) (s : Sys) (u : User.t) :
  AuthManager.currentUser (authManager s) = Some u ->
  Forall own_call l ->
  rows_of_others (User.id u) (db (calls l s)) = rows_of_others (User.id u) (db s).
Proof.
  intros Hu Hl.
  assert (H : others_are u (rows_of_others (User.id u) (db s)) (calls l s)).
  { apply (maintains_calls _ own_call); [|exact Hl|split; [exact Hu|reflexivity]].
    intros c t. apply others_call. }
  exact (proj2 H).
Qed.

(** The theorem for the second refugee, while the first holds a bed. *)
Lemma others_rows_untouched_witness :
  rows_of_others 2
    (db (calls [SelectCamp 10; CancelSelection; SelectCamp 11; LoadUserSelection;
                CancelSelection]
               (shared refugee2 [None; Some unavailable]))) =
  rows_of_others 2 (db (shared refugee2 [None; Some unavailable])).
Proof.
  apply (others_rows_untouched
           [SelectCamp 10; CancelSelection; SelectCamp 11; LoadUserSelection; CancelSelection]
           (shared refugee2 [None; Some unavailable]) refugee2).
  - reflexivity.
  - repeat constructor.
Defined.

(** X7.  The schema's constraints survive every call: after any sequence
    of calls, whatever the store refuses, the keys of [camps] are distinct,
    [(user_id, status)] is unique in [camp_selections], and every
    [user_id], [volunteer_id], [camp_id] and [added_by] names a row that
    exists. *)
Theorem schema_kept (l : list Call) (s : Sys) :
  db_wf (db s) ->
  references_hold (db s) ->
  db_wf (db (calls l s)) /\ references_hold (db (calls l s)).
Proof.
  intros W R. split; [apply db_wf_calls; exact W|apply references_calls; exact R].
Qed.

Lemma seeded_references : references_hold seeded.
Proof. constructor; repeat constructor. Qed.

(** The theorem on a session of the volunteer of the seeded deployment. *)
Lemma schema_kept_witness :
  db_wf (db (calls [AddVolunteerAssignment 11; SelectCamp 11;
                    AddCamp (Some (CampData.mk "Town Library" 8 ["Water"%string] None "No"));
                    DeleteCamp 11; CancelSelection]
                   (client volunteer1 [None; None; Some unavailable]))) /\
  references_hold
    (db (calls [AddVolunteerAssignment 11; SelectCamp 11;
                AddCamp (Some (CampData.mk "Town Library" 8 ["Water"%string] None "No"));
                DeleteCamp 11; CancelSelection]
               (client volunteer1 [None; None; Some unavailable]))).
Proof.
  apply (schema_kept
           [AddVolunteerAssignment 11; SelectCamp 11;
            AddCamp (Some (CampData.mk "Town Library" 8 ["Water"%string] None "No"));
            DeleteCamp 11; CancelSelection]
           (client volunteer1 [None; None; Some unavailable])).
  - exact (tables_wf seeded_sound).
  - exact seeded_references.
Defined.

(** ** Deleting a camp that is not there *)

Lemma filter_all {A} (f : A -> bool) (l : list A) :
  (forall x, In x l -> f x = true) -> filter f l = l.
Proof.
  induction l as [|a l IH]; simpl; intros H; [reflexivity|].
  rewrite (H a (or_introl eq_refl)). f_equal. apply IH. intros x Hx. apply H. right; exact Hx.
Qed.

Lemma delete_camp_missing i d :
  references_hold d -> has_camp d i = false -> delete_camp i d = d.
Proof.
  intros [_ R2 _ R4 _] H. rewrite Forall_forall in *.
  assert (K : forall c, has_camp d c = true -> negb (c =? i) = true).
  { intros c Hc. destruct (c =? i) eqn:E; [|reflexivity].
    apply Nat.eqb_eq in E. subst c. rewrite H in Hc. discriminate. }
  unfold delete_camp. rewrite !filter_all.
  - destruct d; reflexivity.
  - intros r Hr. apply K. exact (R4 r Hr).
  - intros r Hr. apply K. exact (R2 r Hr).
  - intros c Hc. apply K. apply has_camp_iff. exists c. auto.
Qed.

(** X8.  [deleteCamp] does not tell a camp that is not there from one
    that was deleted: for a volunteer whose request the store answers, the
    call on a key that no camp has reports success, and the tables are
    what they were. *)
Theorem deleteCamp_missing (campId : uuid) (s : Sys) (u : User.t) :
  AuthManager.currentUser (authManager s) = Some u ->
  User.role u = "volunteer"%string ->
  refused s = None ->
  references_hold (db s) ->
  has_camp (db s) campId = false ->
  fst (deleteCamp campId s) = inr (resolved tt) /\
  db (snd (deleteCamp campId s)) = db s.
Proof.
  intros Hu Hr R Ref H.
  destruct (deleteCamp_answered campId s u Hu Hr R) as [E1 E2].
  split; [exact E1|]. rewrite E2. apply delete_camp_missing; assumption.
Qed.

(** The theorem for the volunteer of the seeded deployment. *)
Lemma deleteCamp_missing_witness :
  fst (deleteCamp 77 (client volunteer1 [])) = inr (resolved tt) /\
  db (snd (deleteCamp 77 (client volunteer1 []))) = db (client volunteer1 []).
Proof.
  exact (deleteCamp_missing 77 (client volunteer1 []) volunteer1
           eq_refl eq_refl eq_refl seeded_references eq_refl).
Defined.

(** ** The entry point and the subscriptions *)

(** X18.  The page's start-up.  With nobody signed in it asks nothing of
    the store and loads nothing.  With a user restored, on a store that
    answers and whose tables are sound, it returns with both copies of
    the camp manager current, and every session that follows keeps
    [0 <= beds <= original_beds] for every camp. *)
Theorem initialize_effect (s : Sys) :
  outcomes s = [] ->
  sound (db s) ->
  match AuthManager.currentUser (authManager s) with
  | None => initialize s = (inr tt, s)
  | Some _ =>
      initialize s = (inr tt, reloaded s (db s)) /\
      consistent (reloaded s (db s)) /\
      forall l, Forall session_call l -> beds_bounded (db (calls l (reloaded s (db s))))
  end.
Proof.
  intros Q S. unfold initialize, isLoggedIn; js.
  destruct (AuthManager.currentUser (authManager s)) as [u|] eqn:Hu; js; [|reflexivity].
  split; [|split].
  - rewrite (loadCamps_quiet s Q); js.
    rewrite loadUserSelection_quiet by reflexivity. unfold reloaded. cbn. rewrite Hu.
    reflexivity.
  - apply consistent_reloaded. exact S.
  - intros l Hl. apply sound_bounded.
    exact (tables_sound (calls_consistent l _ (consistent_reloaded s (db s) S) Hl)).
Qed.

(** The theorem for a page load of the first refugee. *)
Lemma initialize_effect_witness :
  initialize (restored refugee1 []) = (inr tt, reloaded (restored refugee1 []) seeded) /\
  consistent (reloaded (restored refugee1 []) seeded) /\
  forall l, Forall session_call l ->
            beds_bounded (db (calls l (reloaded (restored refugee1 []) seeded))).
Proof. exact (initialize_effect (restored refugee1 []) eq_refl seeded_sound). Defined.

(** X19.  The handlers of the two subscriptions.  A change of [camps]
    reloads the camps.  A change of [camp_selections] reloads the user's
    selection only when the row's old or new [user_id] is the signed-in
    user's key: a row of somebody else costs no request and changes
    nothing.  With nobody signed in, an event that lacks one of the two
    rows (an insert or a delete) compares [undefined] with [undefined]
    and clears [this.userSelection], without a request.  Neither handler
    writes to a table or signs anybody in or out. *)
Theorem subscriptions_effect (payload : Payload.t) (s : Sys) :
  onCampsChange s = (inr tt, snd (loadCamps s)) /\
  (exists s', onCampSelectionsChange payload s = (inr tt, s') /\
     db s' = db s /\ authManager s' = authManager s /\
     CampManager.camps (campManager s') = CampManager.camps (campManager s) /\
     match AuthManager.currentUser (authManager s) with
     | Some u =>
         if same_id (Some (User.id u)) (Payload.new_user_id payload) ||
            same_id (Some (User.id u)) (Payload.old_user_id payload)
         then s' = snd (loadUserSelection s)
         else s' = s
     | None =>
         match Payload.new_user_id payload, Payload.old_user_id payload with
         | Some _, Some _ => s' = s
         | _, _ => s' = with_userSelection s None
         end
     end).
Proof.
  split.
  - unfold onCampsChange, bind. destruct (loadCamps_frame s) as (r & s' & E & _).
    rewrite E. reflexivity.
  - unfold onCampSelectionsChange; js.
    destruct (AuthManager.currentUser (authManager s)) as [u|] eqn:Hu; cbn [option_map].
    + destruct (same_id (Some (User.id u)) (Payload.new_user_id payload) ||
                same_id (Some (User.id u)) (Payload.old_user_id payload)).
      * pose proof (loadUserSelection_camps s) as C.
        destruct (loadUserSelection_frame s) as (r & s' & E & D' & A').
        rewrite E in *. exists s'. auto.
      * exists s. auto.
    + destruct (Payload.new_user_id payload), (Payload.old_user_id payload); cbn;
        try (exists s; auto; fail);
        unfold loadUserSelection; js; rewrite Hu; js;
        eexists; (split; [reflexivity|]); cbn; auto.
Qed.

(** ** The copies of the camp manager across users *)

(** X20.  Signing out and in again leaves the camp manager as it was:
    [logout] and [login] write to neither of its copies.  A selection the
    manager still holds from the user before is taken for the next
    user's: until the selection is reloaded, [selectCamp] turns the user
    away, and writes nothing. *)
Theorem session_change_keeps_copies
        (email password : string) (campId : uuid) (s : Sys) (sel : CampSelection.t) :
  CampManager.userSelection (campManager s) = Some sel ->
  campManager (calls [Logout; Login email password] s) = campManager s /\
  db (calls [Logout; Login email password] s) = db s /\
  snd (call (SelectCamp campId) (calls [Logout; Login email password] s)) =
    calls [Logout; Login email password] s /\
  (fst (call (SelectCamp campId) (calls [Logout; Login email password] s)) =
     Fulfilled false
       (Some "You already have a camp selected. Please cancel your current selection first."%string) \/
   fst (call (SelectCamp campId) (calls [Logout; Login email password] s)) =
     Fulfilled false (Some "User must be logged in to select a camp"%string)).
Proof.
  intros Hsel.
  assert (K : exists s', calls [Logout; Login email password] s = s' /\
                         db s' = db s /\ campManager s' = campManager s).
  { cbn [calls fold_left]. unfold call.
    destruct (login_cases email password (snd (settle (logout s))))
      as (r & s' & E & D' & C' & _).
    rewrite E. exists s'. cbn [settle snd]. split; [reflexivity|].
    rewrite D', C'. split; reflexivity. }
  destruct K as (s' & E & D' & C'). rewrite E. split; [exact C'|]. split; [exact D'|].
  unfold call.
  destruct (AuthManager.currentUser (authManager s')) as [u|] eqn:Hu.
  - rewrite (selectCamp_already campId s' u sel Hu) by (rewrite C'; exact Hsel).
    cbn. auto.
  - rewrite (selectCamp_signed_out campId s' Hu). cbn. auto.
Qed.

(** The theorem for the second refugee signing in on the browser in
    which the first one selected a camp. *)
Lemma session_change_keeps_copies_witness :
  campManager (calls [Logout; Login "biju@example.org" "pw"]
                     (snd (call (SelectCamp 10) (client refugee1 [])))) =
  campManager (snd (call (SelectCamp 10) (client refugee1 []))) /\
  db (calls [Logout; Login "biju@example.org" "pw"]
            (snd (call (SelectCamp 10) (client refugee1 [])))) =
  db (snd (call (SelectCamp 10) (client refugee1 []))) /\
  snd (call (SelectCamp 11)
            (calls [Logout; Login "biju@example.org" "pw"]
                   (snd (call (SelectCamp 10) (client refugee1 []))))) =
  calls [Logout; Login "biju@example.org" "pw"]
        (snd (call (SelectCamp 10) (client refugee1 []))) /\
  (fst (call (SelectCamp 11)
             (calls [Logout; Login "biju@example.org" "pw"]
                    (snd (call (SelectCamp 10) (client refugee1 []))))) =
     Fulfilled false
       (Some "You already have a camp selected. Please cancel your current selection first."%string) \/
   fst (call (SelectCamp 11)
             (calls [Logout; Login "biju@example.org" "pw"]
                    (snd (call (SelectCamp 10) (client refugee1 []))))) =
     Fulfilled false (Some "User must be logged in to select a camp"%string)).
Proof.
  exact (session_change_keeps_copies "biju@example.org" "pw" 11
           (snd (call (SelectCamp 10) (client refugee1 [])))
           (CampSelection.mk 100 1 10 active 1 None) eq_refl).
Defined.

(** X21.  With at most one active row per user in the table, what
    [loadUserSelection] stores for a signed-in user whose request is
    answered is that user's active row: a row is the manager's copy
    exactly when it is a row of the table, of this user, and active. *)
Theorem loadUserSelection_current (s : Sys) (u : User.t) :
  refused s = None ->
  AuthManager.currentUser (authManager s) = Some u ->
  single_active (db s) ->
  forall row,
    CampManager.userSelection (campManager (snd (loadUserSelection s))) = Some row <->
    In row (Db.camp_selections (db s)) /\ is_active_of (User.id u) row = true.
Proof.
  intros R Hu S row. rewrite (loadUserSelection_answered s u R Hu).
  cbn [campManager CampManager.userSelection]. split.
  - intros H. apply loaded_selection_some in H.
    apply filter_In. rewrite H. left. reflexivity.
  - intros [Hin Ha]. unfold loaded_selection, select_active_selection.
    rewrite (filter_le_one (is_active_of (User.id u)) _ row (S (User.id u)) Hin Ha).
    reflexivity.
Qed.

(** The theorem for the first refugee, who holds a bed of the first camp. *)
Lemma loadUserSelection_current_witness :
  CampManager.userSelection
    (campManager (snd (loadUserSelection (shared refugee1 [])))) =
    Some (CampSelection.mk 100 1 10 active 1 None) <->
  In (CampSelection.mk 100 1 10 active 1 None)
     (Db.camp_selections (db (shared refugee1 []))) /\
  is_active_of 1 (CampSelection.mk 100 1 10 active 1 None) = true.
Proof.
  apply (loadUserSelection_current (shared refugee1 []) refugee1).
  - reflexivity.
  - reflexivity.
  - apply unique_single_active. reflexivity.
Defined.

(** ** The interface of [AuthManager] *)

(** X22.  [register] and [login] are total at their interface, like the
    methods of the camp manager: for every argument, every system and
    every script of store outcomes the promise fulfils with a result
    object, and a failure carries a message.  [logout] always succeeds and
    signs out. *)
Theorem auth_methods_total :
  (forall userData, total_at_interface (register userData)) /\
  (forall email password, total_at_interface (login email password)) /\
  (forall s, fst (logout s) = inr (resolved tt) /\
             AuthManager.currentUser (authManager (snd (logout s))) = None /\
             db (snd (logout s)) = db s /\
             campManager (snd (logout s)) = campManager s).
Proof.
  repeat split; intros.
  - unfold register; total.
  - unfold login; total.
Qed.
